(** * vibediff: the unified-diff parser of [internal/git]

    A shallow embedding of [internal/git/parser.go] (the [diffParser] with
    its three methods [parse], [parseFile] and [parseHunk]) and of
    [Service.getUntrackedFileDiff], followed by the properties the
    specification states about them.

    Conventions of the embedding.
    - A Go [string] is a sequence of bytes: [String.string].
    - A Go [int] is a 64-bit two's complement integer (the size of [int] on
      amd64 and arm64): a [Z] kept in range by [wrap], which is written at
      every [++].
    - [p.current] only ever ranges over [0 .. len(p.lines)], so the cursor is
      a [nat] and its increment needs no wrap-around.
    - The three [for] loops take a fuel argument; [None] means that the fuel
      ran out, and is shown never to happen with the fuel [parseDiff]
      supplies. *)

From Stdlib Require Import Bool Arith ZArith List Sorted Lia Ascii String.
From Stdlib Require Import Numbers.DecimalString.
From Stdlib Require DecimalPos.
Import ListNotations.

Local Open Scope string_scope.
Local Open Scope list_scope.

(** ** Go integers *)

Module GoInt.

Definition intSize : Z := 64.
Definition maxInt : Z := 2 ^ (intSize - 1) - 1.
Definition minInt : Z := - 2 ^ (intSize - 1).

(** Two's complement wrap-around of an [int] result. *)
Definition wrap (z : Z) : Z :=
  ((z + 2 ^ (intSize - 1)) mod 2 ^ intSize - 2 ^ (intSize - 1))%Z.

(** [x++] on an [int]. *)
Definition incr (z : Z) : Z := wrap (z + 1).

End GoInt.

(** ** The [strings] functions the parser calls *)

Module strings.

Definition newline : ascii := "010"%char.

(** [strings.Split(s, "\n")]: the pieces of [s] between line feeds; a string
    with [n] line feeds has [n + 1] pieces, and the empty string has one. *)
Fixpoint Split (s : string) : list string :=
  match s with
  | EmptyString => [EmptyString]
  | String c s' =>
      if Ascii.eqb c newline then EmptyString :: Split s'
      else match Split s' with
           | l :: ls => String c l :: ls
           | [] => [String c EmptyString]
           end
  end.

(** [strings.HasPrefix(s, prefix)]. *)
Fixpoint HasPrefix (s prefix : string) {struct prefix} : bool :=
  match prefix with
  | EmptyString => true
  | String a prefix' =>
      match s with
      | EmptyString => false
      | String b s' => Ascii.eqb b a && HasPrefix s' prefix'
      end
  end.

Arguments HasPrefix : simpl never.

(** [s[n:]]: the string without its first [n] bytes. *)
Fixpoint drop (n : nat) (s : string) {struct n} : string :=
  match n, s with
  | O, _ => s
  | S n', String _ s' => drop n' s'
  | S _, EmptyString => EmptyString
  end.

(** [strings.TrimPrefix(s, prefix)]. *)
Definition TrimPrefix (s prefix : string) : string :=
  if HasPrefix s prefix then drop (String.length prefix) s else s.

(** The six ASCII bytes that are white space: tab, line feed, vertical tab,
    form feed, carriage return and space. *)
Definition asciiSpace (c : ascii) : bool :=
  match nat_of_ascii c with
  | 9 | 10 | 11 | 12 | 13 | 32 => true
  | _ => false
  end.

(** The two-byte UTF-8 encodings of white space: U+0085 and U+00A0. *)
Definition space2 (a b : ascii) : bool :=
  (nat_of_ascii a =? 194)%nat
  && ((nat_of_ascii b =? 133) || (nat_of_ascii b =? 160))%nat.

(** The three-byte UTF-8 encodings of white space: U+1680, U+2000 to
    U+200A, U+2028, U+2029, U+202F, U+205F and U+3000. *)
Definition space3 (a b c : ascii) : bool :=
  let x := nat_of_ascii a in
  let y := nat_of_ascii b in
  let z := nat_of_ascii c in
  ((x =? 225) && (y =? 154) && (z =? 128)
   || (x =? 226) && (y =? 128)
      && ((128 <=? z) && (z <=? 138) || (z =? 168) || (z =? 169) || (z =? 175))
   || (x =? 226) && (y =? 129) && (z =? 159)
   || (x =? 227) && (y =? 128) && (z =? 128))%nat.

(** [strings.TrimLeftFunc(s, unicode.IsSpace)]: [s] without the white space
    runes at its start.  A byte that starts no white space rune stops the
    scan, whether it starts another rune or is no valid UTF-8. *)
Fixpoint TrimLeftSpace (s : string) : string :=
  match s with
  | String a s1 =>
      if asciiSpace a then TrimLeftSpace s1
      else
        match s1 with
        | String b s2 =>
            if space2 a b then TrimLeftSpace s2
            else
              match s2 with
              | String c s3 => if space3 a b c then TrimLeftSpace s3 else s
              | EmptyString => s
              end
        | EmptyString => s
        end
  | EmptyString => s
  end.

(** The bytes of [s] in reverse order, in front of [acc]. *)
Fixpoint rev_onto (s acc : string) : string :=
  match s with
  | EmptyString => acc
  | String c s' => rev_onto s' (String c acc)
  end.

Definition rev (s : string) : string := rev_onto s EmptyString.

(** The scan of [TrimRightFunc] on the reversed text: the last bytes come
    first. *)
Fixpoint TrimLeftSpace_rev (s : string) : string :=
  match s with
  | String a s1 =>
      if asciiSpace a then TrimLeftSpace_rev s1
      else
        match s1 with
        | String b s2 =>
            if space2 b a then TrimLeftSpace_rev s2
            else
              match s2 with
              | String c s3 => if space3 c b a then TrimLeftSpace_rev s3 else s
              | EmptyString => s
              end
        | EmptyString => s
        end
  | EmptyString => s
  end.

(** [strings.TrimRightFunc(s, unicode.IsSpace)]. *)
Definition TrimRightSpace (s : string) : string := rev (TrimLeftSpace_rev (rev s)).

(** [strings.TrimSpace(s)]: [s] without leading and trailing white space, as
    Unicode defines it.  Go's fast path for ASCII and its fall-back agree
    with trimming the left end and then the right end. *)
Definition TrimSpace (s : string) : string := TrimRightSpace (TrimLeftSpace s).

(** [strings.Join(ls, "\n")]. *)
Fixpoint Join (ls : list string) : string :=
  match ls with
  | [] => EmptyString
  | [l] => l
  | l :: ls' => l ++ String newline (Join ls')
  end.

End strings.

(** ** The fragment of [regexp] the two patterns need

    Go's [regexp] returns the match a backtracking matcher finds first
    (leftmost, then by preference order: greedy repetitions try the longest
    run first).  The matcher below is that backtracking search, in
    continuation-passing style, for literals, byte classes, greedy
    repetitions of a class, sequences, greedy optional groups and capture
    groups.  Both patterns only use byte classes whose members are ASCII or
    "any byte but line feed", for which matching by byte and matching by
    UTF-8 rune select the same substrings. *)

Module regexp.

Inductive regex : Type :=
| Lit (t : string)
| Class (f : ascii -> bool)
| Plus (f : ascii -> bool)
| Star (f : ascii -> bool)
| Seq (r1 r2 : regex)
| Opt (r : regex)
| Group (i : nat) (r : regex).

Declare Scope regex_scope.
Delimit Scope regex_scope with re.
Bind Scope regex_scope with regex.
Infix "+++" := Seq (at level 60, right associativity) : regex_scope.

(** [\d] *)
Definition digit (c : ascii) : bool :=
  ((48 <=? nat_of_ascii c) && (nat_of_ascii c <=? 57))%nat.
(** [[a-z]] *)
Definition lower (c : ascii) : bool :=
  ((97 <=? nat_of_ascii c) && (nat_of_ascii c <=? 122))%nat.
(** [.] *)
Definition dot (c : ascii) : bool := negb (Ascii.eqb c strings.newline).

Fixpoint set_cap (i : nat) (v : string) (caps : list string) : list string :=
  match i, caps with
  | _, [] => []
  | O, _ :: cs => v :: cs
  | S i', c :: cs => c :: set_cap i' v cs
  end.

(** The text of [s] in front of its suffix [s']. *)
Definition consumed (s s' : string) : string :=
  String.substring 0 (String.length s - String.length s') s.

Section Matcher.
Context {R : Type}.

(** Greedy [f*]: the longest run of [f] first, then shorter ones. *)
Fixpoint star_class (f : ascii -> bool) (s : string)
         (k : string -> option R) : option R :=
  match s with
  | String c s' =>
      if f c then
        match star_class f s' k with
        | Some r => Some r
        | None => k s
        end
      else k s
  | EmptyString => k s
  end.

Fixpoint rmatch (r : regex) (s : string) (caps : list string)
         (k : string -> list string -> option R) : option R :=
  match r with
  | Lit t =>
      if strings.HasPrefix s t then k (strings.drop (String.length t) s) caps
      else None
  | Class f =>
      match s with
      | String c s' => if f c then k s' caps else None
      | EmptyString => None
      end
  | Plus f =>
      match s with
      | String c s' =>
          if f c then star_class f s' (fun s'' => k s'' caps) else None
      | EmptyString => None
      end
  | Star f => star_class f s (fun s' => k s' caps)
  | Seq r1 r2 => rmatch r1 s caps (fun s' caps' => rmatch r2 s' caps' k)
  | Opt r1 =>
      match rmatch r1 s caps k with
      | Some x => Some x
      | None => k s caps
      end
  | Group i r1 =>
      rmatch r1 s caps (fun s' caps' => k s' (set_cap i (consumed s s') caps'))
  end.
End Matcher.

(** A match of [r] that starts at the first byte of [s]: the submatches,
    with the whole match at index 0. *)
Definition match_here (r : regex) (ngroups : nat) (s : string)
  : option (list string) :=
  rmatch r s (repeat EmptyString (S ngroups))
         (fun s' caps => Some (set_cap 0 (consumed s s') caps)).

(** [regexp.MustCompile(r).FindStringSubmatch(s)]: the leftmost match;
    the empty list stands for [nil]. *)
Fixpoint FindStringSubmatch (r : regex) (ngroups : nat) (s : string)
  : list string :=
  match match_here r ngroups s with
  | Some caps => caps
  | None =>
      match s with
      | EmptyString => []
      | String _ s' => FindStringSubmatch r ngroups s'
      end
  end.

End regexp.

(** ** [strconv.Atoi] and [%d] *)

Module strconv.

Definition digit_value (c : ascii) : Z := Z.of_nat (nat_of_ascii c) - 48.

(** The value of a run of decimal digits; [None] on any other byte. *)
Fixpoint digits_from (acc : Z) (s : string) : option Z :=
  match s with
  | EmptyString => Some acc
  | String c s' =>
      if regexp.digit c then digits_from (acc * 10 + digit_value c)%Z s'
      else None
  end.

Definition digits (s : string) : option Z :=
  match s with
  | EmptyString => None
  | _ => digits_from 0 s
  end.

(** [strconv.Atoi(s)]: the value and whether an error is returned.  A
    syntax error yields 0; a value out of the range of [int] yields the
    nearest bound (and an error, which the parser drops). *)
Definition Atoi (s : string) : Z * bool :=
  let '(neg, body) :=
    match s with
    | String "+"%char t => (false, t)
    | String "-"%char t => (true, t)
    | _ => (false, s)
    end in
  match digits body with
  | None => (0%Z, true)
  | Some n =>
      if neg then
        if (n >? - GoInt.minInt)%Z then (GoInt.minInt, true) else ((- n)%Z, false)
      else
        if (n >? GoInt.maxInt)%Z then (GoInt.maxInt, true) else (n, false)
  end.

(** [fmt.Sprintf("%d", n)]. *)
Definition Itoa (n : Z) : string := NilZero.string_of_int (Z.to_int n).

End strconv.

(** ** The data model *)

(** Modelled from the spec: the type declarations of [FileDiff], [Hunk],
    [Line], [FileStatus] and [LineType] (the package's types file) are not
    part of the sources at hand; the fields are those [parser.go] assigns,
    typed as section 3 of the specification describes them.  [FileStatus] is
    a string type whose zero value [""] is written [FileStatusUnset]; the
    pointers [*int] of [OldNumber] and [NewNumber] are options. *)
Inductive FileStatus : Type :=
| FileStatusUnset
| FileStatusAdded
| FileStatusDeleted
| FileStatusModified
| FileStatusRenamed.

Inductive LineType : Type :=
| LineTypeAdded
| LineTypeDeleted
| LineTypeContext.

Record Line : Type := mkLine {
  Type_ : LineType;
  Content : string;
  OldNumber : option Z;
  NewNumber : option Z
}.

Record Hunk : Type := mkHunk {
  OldStart : Z;
  OldLines : Z;
  NewStart : Z;
  NewLines : Z;
  Header : string;
  Lines : list Line
}.

Record FileDiff : Type := mkFileDiff {
  Path : string;
  OldPath : string;
  Status : FileStatus;
  Additions : Z;
  Deletions : Z;
  IsBinary : bool;
  Hunks : list Hunk
}.

Definition FileStatus_eqb (a b : FileStatus) : bool :=
  match a, b with
  | FileStatusUnset, FileStatusUnset
  | FileStatusAdded, FileStatusAdded
  | FileStatusDeleted, FileStatusDeleted
  | FileStatusModified, FileStatusModified
  | FileStatusRenamed, FileStatusRenamed => true
  | _, _ => false
  end.

Definition set_Paths (old new : string) (f : FileDiff) : FileDiff :=
  mkFileDiff new old (Status f) (Additions f) (Deletions f) (IsBinary f) (Hunks f).
Definition set_OldPath (old : string) (f : FileDiff) : FileDiff :=
  mkFileDiff (Path f) old (Status f) (Additions f) (Deletions f) (IsBinary f) (Hunks f).
Definition set_Status (st : FileStatus) (f : FileDiff) : FileDiff :=
  mkFileDiff (Path f) (OldPath f) st (Additions f) (Deletions f) (IsBinary f) (Hunks f).
Definition set_IsBinary (b : bool) (f : FileDiff) : FileDiff :=
  mkFileDiff (Path f) (OldPath f) (Status f) (Additions f) (Deletions f) b (Hunks f).
Definition add_Hunk (h : Hunk) (f : FileDiff) : FileDiff :=
  mkFileDiff (Path f) (OldPath f) (Status f) (Additions f) (Deletions f) (IsBinary f)
             (Hunks f ++ [h]).
Definition incr_Additions (f : FileDiff) : FileDiff :=
  mkFileDiff (Path f) (OldPath f) (Status f) (GoInt.incr (Additions f)) (Deletions f)
             (IsBinary f) (Hunks f).
Definition incr_Deletions (f : FileDiff) : FileDiff :=
  mkFileDiff (Path f) (OldPath f) (Status f) (Additions f) (GoInt.incr (Deletions f))
             (IsBinary f) (Hunks f).

(** ** The parser *)

Record diffParser : Type := mkParser {
  lines : list string;
  current : nat
}.

Definition newDiffParser (diff : string) : diffParser :=
  mkParser (strings.Split diff) 0.

(** [p.lines[p.current]]; every read in the source is guarded by
    [p.current < len(p.lines)]. *)
Definition cur_line (p : diffParser) : string :=
  nth (current p) (lines p) EmptyString.

(** [p.current++] *)
Definition advance (p : diffParser) : diffParser :=
  mkParser (lines p) (S (current p)).

Definition at_end (p : diffParser) : bool :=
  negb (current p <? List.length (lines p))%nat.

Import regexp.

(** The pattern of the marker line: [diff --git [a-z]/(.+) [a-z]/(.+)]. *)
Definition diffGitRe : regex :=
  (Lit "diff --git " +++ Class lower +++ Lit "/" +++ Group 1 (Plus dot) +++
   Lit " " +++ Class lower +++ Lit "/" +++ Group 2 (Plus dot))%re.

(** The pattern of the hunk header: [@@ -(\d+)(?:,(\d+))? \+(\d+)(?:,(\d+))? @@]
    followed by a fifth group that captures the rest of the line. *)
Definition hunkRe : regex :=
  (Lit "@@ -" +++ Group 1 (Plus digit) +++ Opt (Lit "," +++ Group 2 (Plus digit)) +++
   Lit " +" +++ Group 3 (Plus digit) +++ Opt (Lit "," +++ Group 4 (Plus digit)) +++
   Lit " @@" +++ Group 5 (Star dot))%re.

Definition sub (matches : list string) (i : nat) : string :=
  nth i matches EmptyString.

(** The body of the [for] loop of [parseHunk], from the cursor of [p] on,
    with the two running counters and the lines stored so far. *)
Fixpoint parseHunk_loop (fuel : nat) (p : diffParser) (oldLine newLine : Z)
         (acc : list Line) : option (list Line * diffParser) :=
  match fuel with
  | O => None
  | S fuel' =>
      if at_end p then Some (acc, p)
      else if strings.HasPrefix (cur_line p) "@@"
              || strings.HasPrefix (cur_line p) "diff --git"
      then Some (acc, p)
      else
        match cur_line p with
        | EmptyString => parseHunk_loop fuel' (advance p) oldLine newLine acc
        | String c rest =>
            if Ascii.eqb c "+" then
              parseHunk_loop fuel' (advance p) oldLine (GoInt.incr newLine)
                (acc ++ [mkLine LineTypeAdded rest None (Some newLine)])
            else if Ascii.eqb c "-" then
              parseHunk_loop fuel' (advance p) (GoInt.incr oldLine) newLine
                (acc ++ [mkLine LineTypeDeleted rest (Some oldLine) None])
            else if Ascii.eqb c " " then
              parseHunk_loop fuel' (advance p) (GoInt.incr oldLine) (GoInt.incr newLine)
                (acc ++ [mkLine LineTypeContext rest (Some oldLine) (Some newLine)])
            else if Ascii.eqb c "\" then
              parseHunk_loop fuel' (advance p) oldLine newLine acc
            else
              parseHunk_loop fuel' (advance p) oldLine newLine acc
        end
  end.

(** The header fields [parseHunk] reads off the submatches. *)
Definition header_OldStart (matches : list string) : Z :=
  fst (strconv.Atoi (sub matches 1)).
Definition header_OldLines (matches : list string) : Z :=
  if negb (String.eqb (sub matches 2) "") then fst (strconv.Atoi (sub matches 2))
  else 1%Z.
Definition header_NewStart (matches : list string) : Z :=
  fst (strconv.Atoi (sub matches 3)).
Definition header_NewLines (matches : list string) : Z :=
  if negb (String.eqb (sub matches 4) "") then fst (strconv.Atoi (sub matches 4))
  else 1%Z.

(** [parseHunk]: [Some (None, p)] is the [nil] return, which leaves the
    cursor on the header. *)
Definition parseHunk (fuel : nat) (p : diffParser)
  : option (option Hunk * diffParser) :=
  let header := cur_line p in
  let matches := FindStringSubmatch hunkRe 5 header in
  if (List.length matches <? 5)%nat then Some (None, p)
  else
    let oldStart := header_OldStart matches in
    let newStart := header_NewStart matches in
    match parseHunk_loop fuel (advance p) oldStart newStart [] with
    | None => None
    | Some (ls, p') =>
        Some (Some (mkHunk oldStart (header_OldLines matches)
                           newStart (header_NewLines matches) header ls), p')
    end.

(** The scan of one file section: the first [for] loop of [parseFile]. *)
Fixpoint parseFile_loop (fuel : nat) (p : diffParser) (file : FileDiff)
  : option (FileDiff * diffParser) :=
  match fuel with
  | O => None
  | S fuel' =>
      if negb (at_end p) && negb (strings.HasPrefix (cur_line p) "diff --git") then
        let line := cur_line p in
        if strings.HasPrefix line "new file" then
          parseFile_loop fuel' (advance p) (set_Status FileStatusAdded file)
        else if strings.HasPrefix line "deleted file" then
          parseFile_loop fuel' (advance p) (set_Status FileStatusDeleted file)
        else if strings.HasPrefix line "rename from" then
          parseFile_loop fuel' (advance p)
            (set_OldPath (strings.TrimPrefix line "rename from ")
                         (set_Status FileStatusRenamed file))
        else if strings.HasPrefix line "Binary files" then
          parseFile_loop fuel' (advance p) (set_IsBinary true file)
        else if strings.HasPrefix line "@@" then
          match parseHunk fuel' p with
          | None => None
          | Some (Some hunk, p') => parseFile_loop fuel' p' (add_Hunk hunk file)
          | Some (None, p') => parseFile_loop fuel' (advance p') file
          end
        else parseFile_loop fuel' (advance p) file
      else Some (file, p)
  end.

(** The tally at the end of [parseFile]: one [++] per added or deleted line. *)
Definition tally_line (file : FileDiff) (line : Line) : FileDiff :=
  match Type_ line with
  | LineTypeAdded => incr_Additions file
  | LineTypeDeleted => incr_Deletions file
  | LineTypeContext => file
  end.

Definition tally_hunk (file : FileDiff) (hunk : Hunk) : FileDiff :=
  fold_left tally_line (Lines hunk) file.

Definition tally (file : FileDiff) : FileDiff :=
  fold_left tally_hunk (Hunks file) file.

Definition default_Status (file : FileDiff) : FileDiff :=
  if FileStatus_eqb (Status file) FileStatusUnset
  then set_Status FileStatusModified file else file.

Definition emptyFileDiff : FileDiff :=
  mkFileDiff "" "" FileStatusUnset 0 0 false [].

(** What the marker line gives [OldPath] and [Path]. *)
Definition marker_paths (diffLine : string) (file : FileDiff) : FileDiff :=
  let paths := FindStringSubmatch diffGitRe 2 diffLine in
  if (3 <=? List.length paths)%nat then set_Paths (sub paths 1) (sub paths 2) file
  else file.

Definition parseFile (fuel : nat) (p : diffParser) : option (FileDiff * diffParser) :=
  let file := marker_paths (cur_line p) emptyFileDiff in
  match parseFile_loop fuel (advance p) file with
  | None => None
  | Some (file', p') => Some (tally (default_Status file'), p')
  end.

(** The loop of [parse]. [parseFile] never returns [nil], so every call
    appends. *)
Fixpoint parse_loop (fuel : nat) (p : diffParser) (files : list FileDiff)
  : option (list FileDiff * diffParser) :=
  match fuel with
  | O => None
  | S fuel' =>
      if negb (at_end p) then
        if strings.HasPrefix (cur_line p) "diff --git" then
          match parseFile fuel' p with
          | None => None
          | Some (file, p') => parse_loop fuel' p' (files ++ [file])
          end
        else parse_loop fuel' (advance p) files
      else Some (files, p)
  end.

(** [parse]: the files, and the error, which is always [nil] ([false]). *)
Definition parse (fuel : nat) (p : diffParser) : option (list FileDiff * bool) :=
  match parse_loop fuel p [] with
  | None => None
  | Some (files, _) => Some (files, false)
  end.

(** The fuel that is enough for a parser with [n] lines. *)
Definition enough (n : nat) : nat := S (S n).

(** [Service.parseDiff]: the entry point of the package. *)
Definition parseDiff (diffOutput : string) : option (list FileDiff * bool) :=
  if String.eqb diffOutput "" then Some ([], false)
  else
    let parser := newDiffParser diffOutput in
    parse (enough (List.length (lines parser))) parser.

(** ** [Service.getUntrackedFileDiff] *)

(** The [Line] records of the [range] loop, the index being at [i]:
    [lineNum := i + 1]. *)
Fixpoint untracked_lines (i : nat) (ls : list string) : list Line :=
  match ls with
  | [] => []
  | line :: ls' =>
      mkLine LineTypeAdded line None (Some (GoInt.wrap (Z.of_nat i + 1)))
        :: untracked_lines (S i) ls'
  end.

(** [getUntrackedFileDiff]; [ReadFile] stands for [os.ReadFile] ([None] is
    its error), and [None] is the error return. *)
Definition getUntrackedFileDiff (ReadFile : string -> option string)
           (filepath : string) (contextLines : Z) : option FileDiff :=
  match ReadFile filepath with
  | None => None
  | Some content =>
      let lines := strings.Split content in
      let diffLines := untracked_lines 0 lines in
      let n := Z.of_nat (List.length lines) in
      Some (mkFileDiff filepath "" FileStatusAdded n 0 false
              [mkHunk 0 0 1 n ("@@ -0,0 +1," ++ strconv.Itoa n ++ " @@") diffLines])
  end.

(** ** The scan as a function of the lines in front of the cursor *)

Fixpoint takeWhile {A : Type} (f : A -> bool) (l : list A) : list A :=
  match l with
  | [] => []
  | x :: l' => if f x then x :: takeWhile f l' else []
  end.

Fixpoint dropWhile {A : Type} (f : A -> bool) (l : list A) : list A :=
  match l with
  | [] => []
  | x :: l' => if f x then dropWhile f l' else l
  end.

(** The lines from the cursor on. *)
Definition rest (p : diffParser) : list string := skipn (current p) (lines p).

(** The parser [k] lines further. *)
Definition jump (k : nat) (p : diffParser) : diffParser :=
  mkParser (lines p) (current p + k).

(** A line at which the loop of [parseHunk] stops. *)
Definition is_boundary (l : string) : bool :=
  strings.HasPrefix l "@@" || strings.HasPrefix l "diff --git".

Definition in_body (l : string) : bool := negb (is_boundary l).

(** The lines that [parseHunk] stores for the body lines [ls], the counters
    being at [oldLine] and [newLine]. *)
Fixpoint classify (ls : list string) (oldLine newLine : Z) : list Line :=
  match ls with
  | [] => []
  | EmptyString :: ls' => classify ls' oldLine newLine
  | String c content :: ls' =>
      if Ascii.eqb c "+" then
        mkLine LineTypeAdded content None (Some newLine)
          :: classify ls' oldLine (GoInt.incr newLine)
      else if Ascii.eqb c "-" then
        mkLine LineTypeDeleted content (Some oldLine) None
          :: classify ls' (GoInt.incr oldLine) newLine
      else if Ascii.eqb c " " then
        mkLine LineTypeContext content (Some oldLine) (Some newLine)
          :: classify ls' (GoInt.incr oldLine) (GoInt.incr newLine)
      else classify ls' oldLine newLine
  end.

(** The body of the hunk whose header is in front of [ls]: the lines up to
    the next one that starts with ["@@"] or ["diff --git"]. *)
Definition hunk_body (ls : list string) : list string := takeWhile in_body ls.

(** Whether a line matches the pattern of the hunk header. *)
Definition valid_header (l : string) : bool :=
  negb (List.length (FindStringSubmatch hunkRe 5 l) <? 5)%nat.

(** The hunk [parseHunk] returns for a header line and the lines after it;
    [None] when the header does not match. *)
Definition hunk_of (header : string) (following : list string) : option Hunk :=
  let matches := FindStringSubmatch hunkRe 5 header in
  if (List.length matches <? 5)%nat then None
  else
    Some (mkHunk (header_OldStart matches) (header_OldLines matches)
                 (header_NewStart matches) (header_NewLines matches) header
                 (classify (hunk_body following)
                           (header_OldStart matches) (header_NewStart matches))).

(** What a line of a section does to the file when the scan of [parseFile]
    dispatches on it and it is not a hunk header. *)
Definition apply_marker (line : string) (file : FileDiff) : FileDiff :=
  if strings.HasPrefix line "new file" then set_Status FileStatusAdded file
  else if strings.HasPrefix line "deleted file" then set_Status FileStatusDeleted file
  else if strings.HasPrefix line "rename from" then
    set_OldPath (strings.TrimPrefix line "rename from ")
                (set_Status FileStatusRenamed file)
  else if strings.HasPrefix line "Binary files" then set_IsBinary true file
  else file.

Definition in_section (l : string) : bool := negb (strings.HasPrefix l "diff --git").

(** The lines of the file section whose marker line is in front of [ls]. *)
Definition section_body (ls : list string) : list string := takeWhile in_section ls.

(** The scan of a section body as a two-state machine: outside a hunk
    ([in_hunk = false]) every line is dispatched on, inside a hunk lines are
    consumed by [parseHunk] until the next line starting with ["@@"]. *)
Fixpoint scan (body : list string) (in_hunk : bool) (file : FileDiff) : FileDiff :=
  match body with
  | [] => file
  | l :: body' =>
      if strings.HasPrefix l "@@" then
        match hunk_of l body' with
        | Some h => scan body' true (add_Hunk h file)
        | None => scan body' false file
        end
      else if in_hunk then scan body' true file
      else scan body' false (apply_marker l file)
  end.

(** The file [parseFile] returns for a marker line and its section body. *)
Definition file_of_section (sec : string * list string) : FileDiff :=
  tally (default_Status (scan (snd sec) false (marker_paths (fst sec) emptyFileDiff))).

(** The file sections of a text: every line starting with ["diff --git"],
    with the lines up to the next one. *)
Fixpoint sections (ls : list string) : list (string * list string) :=
  match ls with
  | [] => []
  | l :: ls' =>
      if strings.HasPrefix l "diff --git" then (l, section_body ls') :: sections ls'
      else sections ls'
  end.

(** ** Notions the properties are stated with *)

Definition LineType_eqb (a b : LineType) : bool :=
  match a, b with
  | LineTypeAdded, LineTypeAdded
  | LineTypeDeleted, LineTypeDeleted
  | LineTypeContext, LineTypeContext => true
  | _, _ => false
  end.

(** All the lines of a file, hunk after hunk. *)
Definition all_lines (f : FileDiff) : list Line := flat_map Lines (Hunks f).

(** The number of lines of type [t] in a list of lines. *)
Definition count_in (t : LineType) (ls : list Line) : nat :=
  List.length (filter (fun l => LineType_eqb (Type_ l) t) ls).

(** The number of lines of type [t] across the hunks of [f]. *)
Definition count_type (t : LineType) (f : FileDiff) : nat :=
  count_in t (all_lines f).

(** A length that a Go slice can have. *)
Definition is_len (n : nat) : Prop := (Z.of_nat n <= GoInt.maxInt)%Z.

(** The number pattern of a line: new only, old only, or both. *)
Definition number_pattern (l : Line) : Prop :=
  match Type_ l with
  | LineTypeAdded => OldNumber l = None /\ exists n, NewNumber l = Some n
  | LineTypeDeleted => NewNumber l = None /\ exists n, OldNumber l = Some n
  | LineTypeContext => (exists n, OldNumber l = Some n) /\ exists n, NewNumber l = Some n
  end.

Definition opt_list {A : Type} (o : option A) : list A :=
  match o with
  | Some a => [a]
  | None => []
  end.

(** The old and the new numbers of a list of lines, in order. *)
Definition old_numbers (ls : list Line) : list Z :=
  flat_map (fun l => opt_list (OldNumber l)) ls.
Definition new_numbers (ls : list Line) : list Z :=
  flat_map (fun l => opt_list (NewNumber l)) ls.

(** [start; start + 1; ...; start + n - 1]: strictly increasing and
    contiguous from [start]. *)
Definition consecutive (start : Z) (n : nat) : list Z :=
  map (fun i => (start + Z.of_nat i)%Z) (seq 0 n).

(** The counters as the code steps them: [n] values from [start], each the
    [++] of the one before. *)
Fixpoint counted (start : Z) (n : nat) : list Z :=
  match n with
  | O => []
  | S n' => start :: counted (GoInt.incr start) n'
  end.

(** A stored line with its marker byte back in front. *)
Definition render (l : Line) : string :=
  match Type_ l with
  | LineTypeAdded => String "+" (Content l)
  | LineTypeDeleted => String "-" (Content l)
  | LineTypeContext => String " " (Content l)
  end.

(** The body lines [parseHunk] stores: those starting with ['+'], ['-'] or
    a space. *)
Definition stored (l : string) : bool :=
  match l with
  | EmptyString => false
  | String c _ => Ascii.eqb c "+" || Ascii.eqb c "-" || Ascii.eqb c " "
  end.

(** The marker of "no newline at end of file". *)
Definition is_backslash_line (l : string) : bool :=
  match l with
  | String c _ => Ascii.eqb c "\"
  | EmptyString => false
  end.

(** The text of a hunk header with the given fields; a count is optional. *)
Definition count_text (c : option string) : string :=
  match c with
  | Some d => "," ++ d
  | None => ""
  end.

Definition header_text (oldStart : string) (oldLines : option string)
           (newStart : string) (newLines : option string) (trailing : string)
  : string :=
  "@@ -" ++ oldStart ++ count_text oldLines ++ " +" ++ newStart
         ++ count_text newLines ++ " @@" ++ trailing.

(** The count that is stored for a count field: 1 when it is omitted, the
    number given up to the largest [int], and the largest [int] beyond. *)
Definition stored_count (c : option string) : Z :=
  match c with
  | None => 1%Z
  | Some d =>
      match strconv.digits d with
      | Some n => Z.min n GoInt.maxInt
      | None => 0%Z
      end
  end.

(** Whether every byte of [s] is in the class [f]. *)
Fixpoint all_in (f : ascii -> bool) (s : string) : bool :=
  match s with
  | EmptyString => true
  | String c s' => f c && all_in f s'
  end.

(** A text without line feed, as every line of the parser is. *)
Definition no_newline (s : string) : bool := all_in dot s.

(** Whether [s] does not go on with a byte of the class [f]. *)
Definition stops (f : ascii -> bool) (s : string) : bool :=
  match s with
  | EmptyString => true
  | String c _ => negb (f c)
  end.

(** An optional count field that is well formed. *)
Definition count_ok (c : option string) : Prop :=
  match c with
  | None => True
  | Some d => exists n, strconv.digits d = Some n
  end.

(** The marker line of a file section with the given side prefixes and paths. *)
Definition marker_line (a : ascii) (old : string) (b : ascii) (new : string)
  : string :=
  "diff --git " ++ String a ("/" ++ old ++ " " ++ String b ("/" ++ new)).

(** Whether the text continues with a side prefix and a path:
    a space, a lower-case letter, a slash and one more byte. *)
Definition side_here (s : string) : bool :=
  match s with
  | String sp (String c (String sl (String x _))) =>
      Ascii.eqb sp " " && lower c && Ascii.eqb sl "/" && dot x
  | _ => false
  end.

(** Whether a path contains what reads as the start of another side. *)
Fixpoint has_side_marker (s : string) : bool :=
  side_here s ||
  match s with
  | String _ s' => has_side_marker s'
  | EmptyString => false
  end.

(** The lines of a section body the scan of [parseFile] dispatches on: those
    outside every hunk, that is all lines but the matching headers and the
    bodies of their hunks. *)
Fixpoint seen_lines (body : list string) (in_hunk : bool) : list string :=
  match body with
  | [] => []
  | l :: body' =>
      if strings.HasPrefix l "@@" then
        if valid_header l then seen_lines body' true
        else l :: seen_lines body' false
      else if in_hunk then seen_lines body' true
      else l :: seen_lines body' false
  end.

(** The status a marker line assigns. *)
Definition marker_status (l : string) : option FileStatus :=
  if strings.HasPrefix l "new file" then Some FileStatusAdded
  else if strings.HasPrefix l "deleted file" then Some FileStatusDeleted
  else if strings.HasPrefix l "rename from" then Some FileStatusRenamed
  else None.

(** The old path a ["rename from"] line assigns. *)
Definition marker_old_path (l : string) : option string :=
  if strings.HasPrefix l "new file" then None
  else if strings.HasPrefix l "deleted file" then None
  else if strings.HasPrefix l "rename from" then
    Some (strings.TrimPrefix l "rename from ")
  else None.

(** The value [g] gives for the last line of [ls] that has one. *)
Fixpoint last_of {A : Type} (g : string -> option A) (ls : list string) : option A :=
  match ls with
  | [] => None
  | l :: ls' =>
      match last_of g ls' with
      | Some a => Some a
      | None => g l
      end
  end.

Definition or_default {A : Type} (o : option A) (d : A) : A :=
  match o with
  | Some a => a
  | None => d
  end.

(** The submatches an optional count leaves in group [i]. *)
Definition count_cap (i : nat) (c : option string) (caps : list string)
  : list string :=
  match c with
  | Some d => set_cap i d caps
  | None => caps
  end.

(** Two files that agree on everything but the two paths. *)
Definition same_but_paths (f g : FileDiff) : Prop :=
  Status f = Status g /\ Additions f = Additions g /\
  Deletions f = Deletions g /\ IsBinary f = IsBinary g /\ Hunks f = Hunks g.

(** The number of line feeds of a text. *)
Fixpoint line_feeds (s : string) : nat :=
  match s with
  | EmptyString => 0
  | String c s' =>
      (if Ascii.eqb c strings.newline then 1 else 0) + line_feeds s'
  end.

(** Whether every line of a text is closed by a line feed: the text is
    empty or ends in a line feed. *)
Fixpoint terminated (s : string) : bool :=
  match s with
  | EmptyString => true
  | String c s' =>
      match s' with
      | EmptyString => Ascii.eqb c strings.newline
      | String _ _ => terminated s'
      end
  end.

(** The number of lines of a file with the given content: one for each line
    feed, and one more for a last line that no line feed closes. *)
Definition file_lines (content : string) : nat :=
  if terminated content then line_feeds content else S (line_feeds content).

(** ** Concrete inputs *)

Definition nl : string := String strings.newline "".

(** The text of scenario A. *)
Definition scenarioA : string :=
  "diff --git a/x.txt b/x.txt" ++ nl ++ "@@ -1,2 +1,3 @@" ++ nl
  ++ " a" ++ nl ++ "-b" ++ nl ++ "+b2" ++ nl ++ "+c" ++ nl.

Definition binary_with_hunk : string :=
  "diff --git a/x b/x" ++ nl ++ "Binary files a/x and b/x differ" ++ nl
  ++ "@@ -1 +1 @@" ++ nl ++ "+a".

Definition overflowing_hunk : string :=
  "diff --git a/x b/x" ++ nl ++ "@@ -9223372036854775807 +1 @@" ++ nl
  ++ "-a" ++ nl ++ "-b".

Definition blank_in_hunk : string :=
  "diff --git a/x b/x" ++ nl ++ "@@ -1 +1,2 @@" ++ nl
  ++ "+a" ++ nl ++ nl ++ "+b".

Definition renamed_section : string :=
  "diff --git a/x b/y" ++ nl ++ "rename from z" ++ nl ++ "rename to y".

Definition three_markers : string :=
  "diff --git a/x b/y" ++ nl ++ "new file mode 100644" ++ nl
  ++ "rename from z" ++ nl ++ "deleted file mode 100644".

Definition bogus_header : string :=
  "diff --git a/x b/x" ++ nl ++ "@@ bogus" ++ nl ++ "+a".

Definition renamed_binary : string :=
  "diff --git a/x b/y" ++ nl ++ "rename from x" ++ nl
  ++ "Binary files a/x and b/y differ" ++ nl ++ "@@ bogus".

Definition binary_in_hunk : string :=
  "diff --git a/x b/x" ++ nl ++ "@@ -1 +1 @@" ++ nl ++ "+a" ++ nl
  ++ "Binary files a/x and b/x differ".

(** The file and the hunk of scenario A. *)
Definition scenarioA_hunk : Hunk :=
  mkHunk 1 2 1 3 "@@ -1,2 +1,3 @@"
    [mkLine LineTypeContext "a" (Some 1%Z) (Some 1%Z);
     mkLine LineTypeDeleted "b" (Some 2%Z) None;
     mkLine LineTypeAdded "b2" None (Some 2%Z);
     mkLine LineTypeAdded "c" None (Some 3%Z)].

Definition scenarioA_file : FileDiff :=
  mkFileDiff "x.txt" "x.txt" FileStatusModified 2 1 false [scenarioA_hunk].

Definition overflowing_result : Hunk :=
  mkHunk 9223372036854775807 1 1 1 "@@ -9223372036854775807 +1 @@"
    [mkLine LineTypeDeleted "a" (Some 9223372036854775807%Z) None;
     mkLine LineTypeDeleted "b" (Some (-9223372036854775808)%Z) None].

Definition huge_count : string :=
  "diff --git a/x b/x" ++ nl ++ "@@ -1,99999999999999999999 +1 @@" ++ nl ++ "+a".

Definition ambiguous_marker : string :=
  "diff --git a/x b/y b/z".

Definition unmatched_marker : string :=
  "diff --git" ++ nl ++ "rename from z".

(** A file of five lines, and a file system that only has it. *)
Definition five_lines : string :=
  "l1" ++ nl ++ "l2" ++ nl ++ "l3" ++ nl ++ "l4" ++ nl ++ "l5".

(** The same five lines, each closed by a line feed. *)
Definition five_lines_terminated : string :=
  "l1" ++ nl ++ "l2" ++ nl ++ "l3" ++ nl ++ "l4" ++ nl ++ "l5" ++ nl.

(** A section whose marker line does not match the path pattern. *)
Definition malformed_section : string :=
  "diff --git x y" ++ nl ++ "@@ -1 +1 @@" ++ nl ++ "+a".

Definition one_file (path content : string) (name : string) : option string :=
  if String.eqb name path then Some content else None.

(** ** The service around the parser

    [Service] runs git and reads files.  The two are the environment of the
    model: [git] gives, for a command line, whether the command failed and
    what it wrote, and [readFile] the content of a file ([None] when it
    cannot be read).  Within one call the environment does not change. *)

Record cmdResult : Type := mkCmdResult {
  failed : bool;
  stdout : string;
  stderr : string
}.

Record Env : Type := mkEnv {
  git : list string -> cmdResult;
  readFile : string -> option string
}.

(** The errors the service returns, by the text [fmt.Errorf] gives them;
    [%w] wraps the cause. *)
Inductive error : Type :=
| ErrGitCommandFailed (stderr : string)
| ErrFailedToGetDiff (cause : error)
| ErrFailedToParseDiff
| ErrFailedToReadUntracked (filepath : string)
| ErrFileNotFoundInDiff (filename : string).

(** Modelled from the spec: the declarations of [DiffType] and [DiffResult]
    are not part of the sources at hand; [DiffType] has the three kinds the
    code names, and [DiffTypeOther] stands for any other value of its
    underlying type. *)
Inductive DiffType : Type :=
| DiffTypeStaged
| DiffTypeUnstaged
| DiffTypeAll
| DiffTypeOther (v : string).

Record DiffResult : Type := mkDiffResult {
  Files : list FileDiff;
  ResultType : DiffType
}.

(** [Service.runGitCommand] *)
Definition runGitCommand (w : Env) (args : list string) : string + error :=
  let r := git w args in
  if failed r then inr (ErrGitCommandFailed (stderr r)) else inl (stdout r).

(** [Service.getUntrackedFiles] *)
Definition getUntrackedFiles (w : Env) : list string + error :=
  match runGitCommand w ["ls-files"; "--others"; "--exclude-standard"] with
  | inr err => inr err
  | inl output =>
      if String.eqb output "" then inl []
      else
        let lines := strings.Split (strings.TrimSpace output) in
        inl (fold_left
               (fun files line =>
                  if negb (String.eqb line "") then files ++ [line] else files)
               lines [])
  end.


(** The context of [GetDiff] and [GetFileDiff]: the first of the optional
    arguments, 3 without one. *)
Definition context_of (contextLines : list Z) : Z :=
  match contextLines with
  | c :: _ => c
  | [] => 3%Z
  end.

(** The command line of [GetDiff]. *)
Definition diff_args (diffType : DiffType) (context : Z) : list string :=
  let args :=
    match diffType with
    | DiffTypeStaged => ["diff"; "--cached"; "--no-color"; "--no-ext-diff"]
    | DiffTypeUnstaged => ["diff"; "--no-color"; "--no-ext-diff"]
    | _ => ["diff"; "HEAD"; "--no-color"; "--no-ext-diff"]
    end in
  if (0 <=? context)%Z then args ++ [("-U" ++ strconv.Itoa context)%string] else args.

Definition wants_untracked (diffType : DiffType) : bool :=
  match diffType with
  | DiffTypeUnstaged | DiffTypeAll => true
  | _ => false
  end.

(** The loop of [GetDiff] over the untracked files: a file that cannot be
    read is passed over. *)
Definition add_untracked (w : Env) (context : Z) (files : list FileDiff)
           (filepath : string) : list FileDiff :=
  match getUntrackedFileDiff (readFile w) filepath context with
  | Some fileDiff => files ++ [fileDiff]
  | None => files
  end.

(** [Service.GetDiff]; [None] only stands for a parse out of fuel. *)
Definition GetDiff (w : Env) (diffType : DiffType) (contextLines : list Z)
  : option (DiffResult + error) :=
  let context := context_of contextLines in
  match runGitCommand w (diff_args diffType context) with
  | inr err => Some (inr (ErrFailedToGetDiff err))
  | inl output =>
      match parseDiff output with
      | None => None
      | Some (_, true) => Some (inr ErrFailedToParseDiff)
      | Some (files, false) =>
          let files :=
            if wants_untracked diffType then
              match getUntrackedFiles w with
              | inl untrackedFiles =>
                  if (0 <? List.length untrackedFiles)%nat
                  then fold_left (add_untracked w context) untrackedFiles files
                  else files
              | inr _ => files
              end
            else files in
          Some (inl (mkDiffResult files diffType))
      end
  end.

(** [Service.GetFileDiff] *)
Definition GetFileDiff (w : Env) (filename : string) (diffType : DiffType)
           (contextLines : list Z) : option (FileDiff + error) :=
  let context := context_of contextLines in
  let is_untracked :=
    match getUntrackedFiles w with
    | inl untrackedFiles => existsb (fun untracked => String.eqb untracked filename)
                                    untrackedFiles
    | inr _ => false
    end in
  if is_untracked then
    match getUntrackedFileDiff (readFile w) filename context with
    | Some fileDiff => Some (inl fileDiff)
    | None => Some (inr (ErrFailedToReadUntracked filename))
    end
  else
    match GetDiff w diffType contextLines with
    | None => None
    | Some (inr err) => Some (inr err)
    | Some (inl diff) =>
        match find (fun file => String.eqb (Path file) filename) (Files diff) with
        | Some file => Some (inl file)
        | None => Some (inr (ErrFileNotFoundInDiff filename))
        end
    end.

(** [Service.GetFileDiffWithFullContext] *)
Definition GetFileDiffWithFullContext (w : Env) (filename : string)
           (diffType : DiffType) : option (FileDiff + error) :=
  GetFileDiff w filename diffType [999999%Z].

(** ** Further notions the properties are stated with *)

(** A line that starts a file section. *)
Definition is_marker (l : string) : bool := strings.HasPrefix l "diff --git".

(** A line that starts a hunk: it starts with ["@@"] and matches the pattern. *)
Definition is_header (l : string) : bool :=
  strings.HasPrefix l "@@" && valid_header l.

(** A line that the parser reads nowhere: it is not stored in a hunk, and is
    no marker line, no hunk header line and no status line. *)
Definition inert (l : string) : bool :=
  negb (stored l)
  && negb (strings.HasPrefix l "@@")
  && negb (strings.HasPrefix l "diff --git")
  && negb (strings.HasPrefix l "new file")
  && negb (strings.HasPrefix l "deleted file")
  && negb (strings.HasPrefix l "rename from")
  && negb (strings.HasPrefix l "Binary files").

Definition not_inert (l : string) : bool := negb (inert l).

(** The lines of a section body that lie inside a hunk: after a matching
    header, up to the next line starting with ["@@"]. *)
Fixpoint inside_hunks (body : list string) (in_hunk : bool) : list string :=
  match body with
  | [] => []
  | l :: body' =>
      if strings.HasPrefix l "@@" then
        if valid_header l then inside_hunks body' true
        else inside_hunks body' false
      else if in_hunk then l :: inside_hunks body' true
      else inside_hunks body' false
  end.

(** Whether a line starts with the byte [c]. *)
Definition starts_with (c : ascii) (l : string) : bool :=
  match l with
  | String c' _ => Ascii.eqb c' c
  | EmptyString => false
  end.

(** A text of lines, each ended by a line feed, as git writes its lists. *)
Fixpoint unlines (ls : list string) : string :=
  match ls with
  | [] => EmptyString
  | l :: ls' => l ++ String strings.newline (unlines ls')
  end.

(** A printable ASCII byte other than the space. *)
Definition graphic (c : ascii) : bool :=
  ((33 <=? nat_of_ascii c) && (nat_of_ascii c <=? 126))%nat.

(** The last byte of a text. *)
Fixpoint last_byte (s : string) : option ascii :=
  match s with
  | EmptyString => None
  | String c EmptyString => Some c
  | String _ s' => last_byte s'
  end.

(** A path as git lists it: without line feed, and starting and ending
    with a printable ASCII byte other than the space. *)
Definition clean_path (p : string) : bool :=
  no_newline p
  && match p with
     | String c _ => graphic c
     | EmptyString => false
     end
  && match last_byte p with
     | Some c => graphic c
     | None => false
     end.




(** The hunks the scan of a section body adds. *)
Definition section_hunks (body : list string) : list Hunk :=
  Hunks (scan body false emptyFileDiff).

Definition file_header_lines : string :=
  "diff --git a/x b/x" ++ nl ++ "--- a/x" ++ nl ++ "+++ b/x" ++ nl
  ++ "@@ -1 +1 @@" ++ nl ++ "-a" ++ nl ++ "+b".



(** The diffs [GetDiff] makes for a list of untracked files: one for each
    file that can be read, in the order of the list. *)
Definition untracked_diffs (w : Env) (context : Z) (fs : list string)
  : list FileDiff :=
  flat_map (fun f => match getUntrackedFileDiff (readFile w) f context with
                     | Some d => [d]
                     | None => []
                     end) fs.

(** What [GetDiff] appends to the parsed files. *)
Definition untracked_part (w : Env) (diffType : DiffType) (context : Z)
  : list FileDiff :=
  if wants_untracked diffType then
    match getUntrackedFiles w with
    | inl fs => untracked_diffs w context fs
    | inr _ => []
    end
  else [].

(** The environment the examples run in: the diff is [diff_out], one file
    [new.txt] is untracked, and [gone.txt] is listed but cannot be read. *)
Definition example_env (diff_fails : bool) (diff_out : string) : Env :=
  mkEnv (fun args =>
           match args with
           | "ls-files"%string :: _ =>
               mkCmdResult false ("new.txt" ++ nl ++ "gone.txt" ++ nl) ""
           | "diff"%string :: _ => mkCmdResult diff_fails diff_out "fatal: not a git repository"
           | _ => mkCmdResult true "" "unknown command"
           end)
        (fun path => if String.eqb path "new.txt" then Some ("a" ++ nl ++ "b")%string
                     else None).

(** A section with a line that starts with ["@@"] and is no header, and
    two headers. *)
Definition headers_in_section : string :=
  "diff --git a/x b/x" ++ nl ++ "@@ bogus" ++ nl ++ "@@ -1 +1 @@" ++ nl ++ "+a"
  ++ nl ++ "@@ -5 +5,2 @@ f()" ++ nl ++ "+b" ++ nl ++ "+c".

(** ** A file of the data model written out as diff text *)

(** The status line of a section, for a status that has one. *)
Definition status_lines (st : FileStatus) : list string :=
  match st with
  | FileStatusAdded => ["new file mode 100644"]
  | FileStatusDeleted => ["deleted file mode 100644"]
  | _ => []
  end.

(** A hunk written out: its header line as it is, then its lines, each with
    the byte of its type back in front. *)
Definition hunk_text (h : Hunk) : list string :=
  Header h :: map render (Lines h).

(** A file written out as a section of diff text: the marker line with the
    path of the file on both sides, the status line, and the hunks.  This is
    the rendering of the record, whatever produced it; it is not defined
    from what git would write for the same content. *)
Definition diff_text (f : FileDiff) : string :=
  strings.Join
    (marker_line "a" (Path f) "b" (Path f)
       :: status_lines (Status f) ++ flat_map hunk_text (Hunks f)).
(** * Properties

    ** Prefixes of lists *)

Section ListPrefixes.
Context {A : Type} (f : A -> bool).

Lemma takeWhile_dropWhile (l : list A) : takeWhile f l ++ dropWhile f l = l.
Proof.
  induction l as [|x l IH]; simpl; [reflexivity|].
  destruct (f x); simpl; [now rewrite IH | reflexivity].
Qed.

Lemma takeWhile_length (l : list A) : List.length (takeWhile f l) <= List.length l.
Proof.
  induction l as [|x l IH]; simpl; [lia|]. destruct (f x); simpl; lia.
Qed.

Lemma skipn_takeWhile (l : list A) :
  skipn (List.length (takeWhile f l)) l = dropWhile f l.
Proof.
  induction l as [|x l IH]; simpl; [reflexivity|].
  destruct (f x); simpl; [exact IH | reflexivity].
Qed.

Lemma takeWhile_Forall (l : list A) : Forall (fun x => f x = true) (takeWhile f l).
Proof.
  induction l as [|x l IH]; simpl; [constructor|].
  destruct (f x) eqn:E; constructor; assumption.
Qed.

End ListPrefixes.

Lemma HasPrefix_cons (b : ascii) (s : string) (a : ascii) (prefix : string) :
  strings.HasPrefix (String b s) (String a prefix)
  = Ascii.eqb b a && strings.HasPrefix s prefix.
Proof. reflexivity. Qed.

Lemma rest_at_end (p : diffParser) : at_end p = true -> rest p = [].
Proof.
  unfold at_end, rest. rewrite negb_true_iff, Nat.ltb_ge.
  intros H. now apply skipn_all2.
Qed.

Lemma rest_not_at_end (p : diffParser) :
  at_end p = false -> rest p = cur_line p :: rest (advance p).
Proof.
  unfold at_end, rest, cur_line, advance. rewrite negb_false_iff, Nat.ltb_lt.
  destruct p as [ls c]; simpl. revert c.
  induction ls as [|l ls IH]; intros c H; simpl in H; [lia|].
  destruct c as [|c]; [reflexivity|]. simpl. apply IH. lia.
Qed.

Lemma rest_jump (k : nat) (p : diffParser) : rest (jump k p) = skipn k (rest p).
Proof.
  unfold rest, jump; simpl. now rewrite skipn_skipn, Nat.add_comm.
Qed.

Lemma jump_0 (p : diffParser) : jump 0 p = p.
Proof. destruct p; unfold jump; simpl. now rewrite Nat.add_0_r. Qed.

Lemma jump_advance (k : nat) (p : diffParser) : jump k (advance p) = jump (S k) p.
Proof. unfold jump, advance; simpl. f_equal. lia. Qed.

Lemma parseHunk_loop_spec (fuel : nat) :
  forall (p : diffParser) (oldLine newLine : Z) (acc : list Line),
    List.length (rest p) < fuel ->
    parseHunk_loop fuel p oldLine newLine acc
    = Some (acc ++ classify (hunk_body (rest p)) oldLine newLine,
            jump (List.length (hunk_body (rest p))) p).
Proof.
  induction fuel as [|fuel IH]; intros p o n acc Hf; [lia|].
  simpl. destruct (at_end p) eqn:E.
  - rewrite (rest_at_end p E). simpl. now rewrite app_nil_r, jump_0.
  - rewrite (rest_not_at_end p E) in *. simpl in Hf.
    unfold hunk_body; simpl. unfold in_body at 1 3, is_boundary.
    destruct (strings.HasPrefix (cur_line p) "@@"
              || strings.HasPrefix (cur_line p) "diff --git") eqn:B; simpl.
    + now rewrite app_nil_r, jump_0.
    + fold (hunk_body (rest (advance p))).
      assert (Hf' : List.length (rest (advance p)) < fuel) by lia.
      destruct (cur_line p) as [|c content].
      * rewrite IH by exact Hf'. now rewrite jump_advance.
      * destruct (Ascii.eqb c "+");
          [|destruct (Ascii.eqb c "-");
            [|destruct (Ascii.eqb c " "); [|destruct (Ascii.eqb c "\")]]];
          rewrite IH by exact Hf'; rewrite jump_advance, <- ?app_assoc;
          reflexivity.
Qed.

Lemma parseHunk_spec (fuel : nat) (p : diffParser) :
  List.length (rest p) <= fuel ->
  at_end p = false ->
  parseHunk fuel p
  = Some (match hunk_of (cur_line p) (rest (advance p)) with
          | Some h => (Some h, jump (S (List.length (hunk_body (rest (advance p))))) p)
          | None => (None, p)
          end).
Proof.
  intros Hf E. unfold parseHunk, hunk_of.
  destruct (List.length (FindStringSubmatch hunkRe 5 (cur_line p)) <? 5)%nat;
    [reflexivity|].
  rewrite (rest_not_at_end p E) in Hf. simpl in Hf.
  rewrite parseHunk_loop_spec by lia. simpl. now rewrite jump_advance.
Qed.

Lemma at_prefix_no_marker (l : string) :
  strings.HasPrefix l "@@" = true ->
  strings.HasPrefix l "new file" = false /\
  strings.HasPrefix l "deleted file" = false /\
  strings.HasPrefix l "rename from" = false /\
  strings.HasPrefix l "Binary files" = false.
Proof.
  intros H. destruct l as [|c l]; [discriminate|].
  rewrite HasPrefix_cons in H. apply andb_prop in H. destruct H as [H _].
  apply Ascii.eqb_eq in H. subst c.
  repeat split; reflexivity.
Qed.

Lemma at_prefix_in_section (l : string) :
  strings.HasPrefix l "@@" = true -> in_section l = true.
Proof.
  intros H. destruct l as [|c l]; [discriminate|].
  rewrite HasPrefix_cons in H. apply andb_prop in H. destruct H as [H _].
  apply Ascii.eqb_eq in H. subst c.
  reflexivity.
Qed.

Lemma in_body_in_section (l : string) : in_body l = true -> in_section l = true.
Proof.
  unfold in_body, is_boundary, in_section. rewrite negb_orb.
  intros H. apply andb_prop in H. tauto.
Qed.

Lemma in_body_not_at (l : string) : in_body l = true -> strings.HasPrefix l "@@" = false.
Proof.
  unfold in_body, is_boundary. rewrite negb_orb, andb_true_iff, !negb_true_iff. tauto.
Qed.

Lemma hunk_body_section_body (ls : list string) :
  hunk_body (section_body ls) = hunk_body ls.
Proof.
  unfold hunk_body, section_body.
  induction ls as [|l ls IH]; simpl; [reflexivity|].
  destruct (in_section l) eqn:S1; simpl.
  - destruct (in_body l); [now rewrite IH | reflexivity].
  - destruct (in_body l) eqn:B; [|reflexivity].
    apply in_body_in_section in B. congruence.
Qed.

Lemma hunk_of_section_body (l : string) (ls : list string) :
  hunk_of l (section_body ls) = hunk_of l ls.
Proof. unfold hunk_of. now rewrite hunk_body_section_body. Qed.

Lemma section_body_dropWhile (ls : list string) :
  section_body (dropWhile in_body ls) = dropWhile in_body (section_body ls).
Proof.
  unfold section_body.
  induction ls as [|l ls IH]; simpl; [reflexivity|].
  destruct (in_body l) eqn:B.
  - rewrite (in_body_in_section l B). simpl. now rewrite B.
  - simpl. destruct (in_section l); simpl; [now rewrite B | reflexivity].
Qed.

Lemma section_body_length_split (ls : list string) :
  List.length (section_body ls)
  = List.length (hunk_body ls) + List.length (section_body (dropWhile in_body ls)).
Proof.
  unfold section_body, hunk_body.
  induction ls as [|l ls IH]; simpl; [reflexivity|].
  destruct (in_body l) eqn:B; simpl.
  - rewrite (in_body_in_section l B). simpl. now rewrite IH.
  - reflexivity.
Qed.

Lemma scan_in_hunk (body : list string) :
  Forall (fun l => in_section l = true) body ->
  forall file, scan body true file = scan (dropWhile in_body body) false file.
Proof.
  induction 1 as [|l body Hl _ IH]; intros file; [reflexivity|].
  simpl. destruct (in_body l) eqn:B.
  - rewrite (in_body_not_at l B). apply IH.
  - assert (A : strings.HasPrefix l "@@" = true).
    { unfold in_body, is_boundary, in_section in *.
      rewrite negb_false_iff in B. rewrite negb_true_iff in Hl.
      rewrite Hl, orb_false_r in B. exact B. }
    simpl. rewrite A. destruct (hunk_of l body); reflexivity.
Qed.

Lemma parseFile_loop_spec (fuel : nat) :
  forall (p : diffParser) (file : FileDiff),
    List.length (rest p) < fuel ->
    parseFile_loop fuel p file
    = Some (scan (section_body (rest p)) false file,
            jump (List.length (section_body (rest p))) p).
Proof.
  induction fuel as [|fuel IH]; intros p file Hf; [lia|].
  simpl. destruct (at_end p) eqn:E; simpl.
  { rewrite (rest_at_end p E). simpl. now rewrite jump_0. }
  pose proof (rest_not_at_end p E) as R. rewrite R in *.
  unfold section_body; simpl. unfold in_section at 1 3.
  simpl in Hf.
  destruct (strings.HasPrefix (cur_line p) "diff --git") eqn:D; simpl.
  { now rewrite jump_0. }
  fold (section_body (rest (advance p))).
  assert (Hf' : List.length (rest (advance p)) < fuel) by lia.
  destruct (strings.HasPrefix (cur_line p) "@@") eqn:A.
  - destruct (at_prefix_no_marker _ A) as (-> & -> & -> & ->).
    rewrite parseHunk_spec by (rewrite ?R; simpl; lia || exact E).
    rewrite hunk_of_section_body.
    destruct (hunk_of (cur_line p) (rest (advance p))) as [h|].
    + set (k := List.length (hunk_body (rest (advance p)))).
      assert (Rk : rest (jump (S k) p) = dropWhile in_body (rest (advance p))).
      { rewrite <- jump_advance, rest_jump. apply skipn_takeWhile. }
      rewrite IH.
      2:{ rewrite Rk. pose proof (takeWhile_dropWhile in_body (rest (advance p))) as T.
          apply (f_equal (@List.length string)) in T. rewrite length_app in T. lia. }
      rewrite Rk, section_body_dropWhile.
      rewrite scan_in_hunk by apply takeWhile_Forall.
      f_equal. f_equal.
      rewrite (section_body_length_split (rest (advance p))).
      rewrite section_body_dropWhile. fold k.
      unfold jump; simpl. f_equal. lia.
    + rewrite IH by exact Hf'. now rewrite jump_advance.
  - unfold apply_marker.
    destruct (strings.HasPrefix (cur_line p) "new file");
      [|destruct (strings.HasPrefix (cur_line p) "deleted file");
        [|destruct (strings.HasPrefix (cur_line p) "rename from");
          [|destruct (strings.HasPrefix (cur_line p) "Binary files")]]];
      rewrite IH by exact Hf'; now rewrite jump_advance.
Qed.

Lemma parseFile_spec (fuel : nat) (p : diffParser) :
  List.length (rest p) <= fuel ->
  at_end p = false ->
  parseFile fuel p
  = Some (file_of_section (cur_line p, section_body (rest (advance p))),
          jump (S (List.length (section_body (rest (advance p))))) p).
Proof.
  intros Hf E. unfold parseFile.
  rewrite (rest_not_at_end p E) in Hf. simpl in Hf.
  rewrite parseFile_loop_spec by lia. now rewrite jump_advance.
Qed.

Lemma sections_dropWhile (ls : list string) :
  sections (dropWhile in_section ls) = sections ls.
Proof.
  induction ls as [|l ls IH]; simpl; [reflexivity|].
  unfold in_section at 1.
  destruct (strings.HasPrefix l "diff --git") eqn:D; simpl;
    [now rewrite D | exact IH].
Qed.

Lemma parse_loop_spec (fuel : nat) :
  forall (p : diffParser) (files : list FileDiff),
    List.length (rest p) < fuel ->
    parse_loop fuel p files
    = Some (files ++ map file_of_section (sections (rest p)),
            jump (List.length (rest p)) p).
Proof.
  induction fuel as [|fuel IH]; intros p files Hf; [lia|].
  simpl. destruct (at_end p) eqn:E; simpl.
  { rewrite (rest_at_end p E). simpl. now rewrite app_nil_r, jump_0. }
  pose proof (rest_not_at_end p E) as R.
  assert (Hf' : List.length (rest (advance p)) < fuel)
    by (rewrite R in Hf; simpl in Hf; lia).
  destruct (strings.HasPrefix (cur_line p) "diff --git") eqn:D.
  - rewrite parseFile_spec by (lia || exact E).
    set (k := List.length (section_body (rest (advance p)))).
    assert (Rk : rest (jump (S k) p) = dropWhile in_section (rest (advance p))).
    { rewrite <- jump_advance, rest_jump. apply skipn_takeWhile. }
    pose proof (takeWhile_dropWhile in_section (rest (advance p))) as T.
    apply (f_equal (@List.length string)) in T. rewrite length_app in T.
    fold (section_body (rest (advance p))) in T. fold k in T.
    rewrite IH by (rewrite Rk; lia).
    rewrite Rk, sections_dropWhile. rewrite R at 1 2. simpl. rewrite D.
    rewrite <- app_assoc. simpl. f_equal. f_equal.
    unfold jump; simpl. f_equal. lia.
  - rewrite IH by exact Hf'. rewrite R at 1 2. simpl. rewrite D.
    now rewrite jump_advance.
Qed.

Lemma parse_spec (fuel : nat) (p : diffParser) :
  List.length (rest p) < fuel ->
  parse fuel p = Some (map file_of_section (sections (rest p)), false).
Proof.
  intros Hf. unfold parse. now rewrite parse_loop_spec.
Qed.

Lemma parseDiff_spec (diff : string) :
  parseDiff diff
  = Some (map file_of_section (sections (strings.Split diff)), false).
Proof.
  unfold parseDiff. destruct (String.eqb diff "") eqn:E.
  - apply String.eqb_eq in E. subst diff. reflexivity.
  - rewrite parse_spec; [reflexivity|].
    unfold enough, newDiffParser, rest; simpl. lia.
Qed.


(** ** Scenario A *)

(** C1: for the input of scenario A, the parser returns exactly one file with
    path and old path [x.txt], status Modified, 2 additions, 1 deletion, and
    a single hunk (1,2,1,3) with the lines Context "a" (old 1, new 1),
    Deleted "b" (old 2), Added "b2" (new 2) and Added "c" (new 3). *)
Theorem scenario_A_parse :
  parseDiff scenarioA
  = Some ([mkFileDiff "x.txt" "x.txt" FileStatusModified 2 1 false
             [mkHunk 1 2 1 3 "@@ -1,2 +1,3 @@"
                [mkLine LineTypeContext "a" (Some 1%Z) (Some 1%Z);
                 mkLine LineTypeDeleted "b" (Some 2%Z) None;
                 mkLine LineTypeAdded "b2" None (Some 2%Z);
                 mkLine LineTypeAdded "c" None (Some 3%Z)]]],
          false) /\
  strings.Split scenarioA
  = ["diff --git a/x.txt b/x.txt"; "@@ -1,2 +1,3 @@"; " a"; "-b"; "+b2"; "+c"; ""].
Proof. split; vm_compute; reflexivity. Qed.

(** ** The tally of additions and deletions *)

Lemma incr_in_range (z : Z) :
  (GoInt.minInt <= z < GoInt.maxInt)%Z -> GoInt.incr z = (z + 1)%Z.
Proof.
  unfold GoInt.incr, GoInt.wrap, GoInt.minInt, GoInt.maxInt, GoInt.intSize.
  intros H. change (2 ^ (64 - 1))%Z with 9223372036854775808%Z in *.
  change (2 ^ 64)%Z with 18446744073709551616%Z.
  rewrite Z.mod_small; lia.
Qed.

Lemma wrap_in_range (z : Z) :
  (GoInt.minInt <= z <= GoInt.maxInt)%Z -> GoInt.wrap z = z.
Proof.
  unfold GoInt.wrap, GoInt.minInt, GoInt.maxInt, GoInt.intSize.
  intros H. change (2 ^ (64 - 1))%Z with 9223372036854775808%Z in *.
  change (2 ^ 64)%Z with 18446744073709551616%Z.
  rewrite Z.mod_small; lia.
Qed.

Lemma maxInt_pos : (0 < GoInt.maxInt)%Z.
Proof. reflexivity. Qed.

Lemma minInt_neg : (GoInt.minInt < 0)%Z.
Proof. reflexivity. Qed.

(** The tally only touches the two counters. *)
Lemma tally_line_fields (file : FileDiff) (l : Line) :
  Hunks (tally_line file l) = Hunks file /\
  Path (tally_line file l) = Path file /\
  OldPath (tally_line file l) = OldPath file /\
  Status (tally_line file l) = Status file /\
  IsBinary (tally_line file l) = IsBinary file.
Proof. unfold tally_line. destruct (Type_ l); repeat split. Qed.

Lemma tally_lines_fields (ls : list Line) :
  forall file,
    Hunks (fold_left tally_line ls file) = Hunks file /\
    Path (fold_left tally_line ls file) = Path file /\
    OldPath (fold_left tally_line ls file) = OldPath file /\
    Status (fold_left tally_line ls file) = Status file /\
    IsBinary (fold_left tally_line ls file) = IsBinary file.
Proof.
  induction ls as [|l ls IH]; intros file; simpl; [repeat split|].
  destruct (IH (tally_line file l)) as (-> & -> & -> & -> & ->).
  apply tally_line_fields.
Qed.

Lemma tally_hunks_fields (hs : list Hunk) :
  forall file,
    Hunks (fold_left tally_hunk hs file) = Hunks file /\
    Path (fold_left tally_hunk hs file) = Path file /\
    OldPath (fold_left tally_hunk hs file) = OldPath file /\
    Status (fold_left tally_hunk hs file) = Status file /\
    IsBinary (fold_left tally_hunk hs file) = IsBinary file.
Proof.
  induction hs as [|h hs IH]; intros file; simpl; [repeat split|].
  destruct (IH (tally_hunk file h)) as (-> & -> & -> & -> & ->).
  apply tally_lines_fields.
Qed.

Lemma tally_fields (file : FileDiff) :
  Hunks (tally file) = Hunks file /\
  Path (tally file) = Path file /\
  OldPath (tally file) = OldPath file /\
  Status (tally file) = Status file /\
  IsBinary (tally file) = IsBinary file.
Proof. apply tally_hunks_fields. Qed.

Lemma count_in_le (t : LineType) (ls : list Line) : count_in t ls <= List.length ls.
Proof. unfold count_in. apply filter_length_le. Qed.

Lemma count_in_app (t : LineType) (l1 l2 : list Line) :
  count_in t (l1 ++ l2) = count_in t l1 + count_in t l2.
Proof. unfold count_in. now rewrite filter_app, length_app. Qed.

(** While the counters stay below the largest [int], the tally counts. *)
Lemma tally_lines_counts (ls : list Line) :
  forall file,
    (0 <= Additions file)%Z -> (0 <= Deletions file)%Z ->
    (Additions file + Z.of_nat (List.length ls) <= GoInt.maxInt)%Z ->
    (Deletions file + Z.of_nat (List.length ls) <= GoInt.maxInt)%Z ->
    Additions (fold_left tally_line ls file)
    = (Additions file + Z.of_nat (count_in LineTypeAdded ls))%Z /\
    Deletions (fold_left tally_line ls file)
    = (Deletions file + Z.of_nat (count_in LineTypeDeleted ls))%Z.
Proof.
  pose proof minInt_neg as Hm.
  induction ls as [|l ls IH]; intros file HA HD BA BD; simpl.
  { unfold count_in; simpl. lia. }
  simpl List.length in BA, BD.
  unfold count_in in *; simpl.
  unfold tally_line at 2 4.
  destruct (Type_ l); simpl.
  - destruct (IH (incr_Additions file)) as [-> ->]; simpl;
      rewrite ?incr_in_range by lia; lia.
  - destruct (IH (incr_Deletions file)) as [-> ->]; simpl;
      rewrite ?incr_in_range by lia; lia.
  - destruct (IH file) as [-> ->]; lia.
Qed.

Lemma tally_hunks_counts (hs : list Hunk) :
  forall file,
    (0 <= Additions file)%Z -> (0 <= Deletions file)%Z ->
    (Additions file + Z.of_nat (List.length (flat_map Lines hs)) <= GoInt.maxInt)%Z ->
    (Deletions file + Z.of_nat (List.length (flat_map Lines hs)) <= GoInt.maxInt)%Z ->
    Additions (fold_left tally_hunk hs file)
    = (Additions file + Z.of_nat (count_in LineTypeAdded (flat_map Lines hs)))%Z /\
    Deletions (fold_left tally_hunk hs file)
    = (Deletions file + Z.of_nat (count_in LineTypeDeleted (flat_map Lines hs)))%Z.
Proof.
  induction hs as [|h hs IH]; intros file HA HD BA BD; simpl.
  { unfold count_in; simpl. lia. }
  simpl in BA, BD. rewrite length_app in BA, BD.
  pose proof (count_in_le LineTypeAdded (Lines h)) as LA.
  pose proof (count_in_le LineTypeDeleted (Lines h)) as LD.
  destruct (tally_lines_counts (Lines h) file) as [EA ED]; try lia.
  unfold tally_hunk at 2 4.
  destruct (IH (fold_left tally_line (Lines h) file)) as [-> ->];
    rewrite ?EA, ?ED; try lia.
  rewrite !count_in_app. lia.
Qed.

(** The scan of a section leaves the counters alone and stores at most one
    line per body line. *)
Lemma apply_marker_fields (l : string) (file : FileDiff) :
  Hunks (apply_marker l file) = Hunks file /\
  Additions (apply_marker l file) = Additions file /\
  Deletions (apply_marker l file) = Deletions file /\
  Path (apply_marker l file) = Path file.
Proof.
  unfold apply_marker.
  repeat match goal with |- context [if ?b then _ else _] => destruct b end;
    repeat split.
Qed.

Lemma scan_counters (body : list string) :
  forall b file,
    Additions (scan body b file) = Additions file /\
    Deletions (scan body b file) = Deletions file /\
    Path (scan body b file) = Path file.
Proof.
  induction body as [|l body IH]; intros b file; simpl; [repeat split|].
  destruct (strings.HasPrefix l "@@").
  - destruct (hunk_of l body).
    + destruct (IH true (add_Hunk h file)) as (-> & -> & ->). repeat split.
    + apply IH.
  - destruct b; [apply IH|].
    destruct (IH false (apply_marker l file)) as (-> & -> & ->).
    destruct (apply_marker_fields l file) as (_ & -> & -> & ->). repeat split.
Qed.

Lemma classify_length (ls : list string) :
  forall o n, List.length (classify ls o n) <= List.length ls.
Proof.
  induction ls as [|l ls IH]; intros o n; simpl; [lia|].
  destruct l as [|c content]; [specialize (IH o n); lia|].
  destruct (Ascii.eqb c "+"); [simpl; specialize (IH o (GoInt.incr n)); lia|].
  destruct (Ascii.eqb c "-"); [simpl; specialize (IH (GoInt.incr o) n); lia|].
  destruct (Ascii.eqb c " ");
    [simpl; specialize (IH (GoInt.incr o) (GoInt.incr n)); lia|].
  specialize (IH o n); lia.
Qed.

Lemma hunk_of_Lines_length (l : string) (following : list string) (h : Hunk) :
  hunk_of l following = Some h ->
  List.length (Lines h) <= List.length (hunk_body following).
Proof.
  unfold hunk_of. destruct (_ <? _)%nat; [discriminate|].
  intros H; injection H as <-. simpl. apply classify_length.
Qed.

Lemma scan_stored_bound (body : list string) :
  Forall (fun l => in_section l = true) body ->
  forall b file,
    List.length (all_lines (scan body b file))
    + (if b then List.length (hunk_body body) else 0)
    <= List.length (all_lines file) + List.length body.
Proof.
  unfold all_lines.
  induction 1 as [|l body Hl _ IH]; intros b file; simpl.
  { destruct b; simpl; lia. }
  unfold hunk_body; simpl. unfold in_body at 1, is_boundary.
  unfold in_section in Hl. rewrite negb_true_iff in Hl. rewrite Hl, orb_false_r.
  destruct (strings.HasPrefix l "@@"); simpl.
  - destruct (hunk_of l body) as [h|] eqn:Hh.
    + specialize (IH true (add_Hunk h file)). cbn [add_Hunk Hunks] in IH.
      rewrite flat_map_app, length_app in IH. cbn [flat_map] in IH.
      rewrite app_nil_r in IH.
      apply hunk_of_Lines_length in Hh. destruct b; simpl; lia.
    + specialize (IH false file). destruct b; simpl in *; lia.
  - destruct b.
    + specialize (IH true file). fold (hunk_body body). simpl. lia.
    + specialize (IH false (apply_marker l file)).
      destruct (apply_marker_fields l file) as (E & _). rewrite E in IH. lia.
Qed.

Lemma sections_In (ls : list string) (sec : string * list string) :
  In sec (sections ls) ->
  exists pre post,
    ls = pre ++ fst sec :: post /\ snd sec = section_body post /\
    strings.HasPrefix (fst sec) "diff --git" = true.
Proof.
  induction ls as [|l ls IH]; simpl; [tauto|].
  destruct (strings.HasPrefix l "diff --git") eqn:D.
  - intros [<-|H].
    + exists [], ls. simpl. auto.
    + destruct (IH H) as (pre & post & -> & E & D'). exists (l :: pre), post. auto.
  - intros H. destruct (IH H) as (pre & post & -> & E & D').
    exists (l :: pre), post. auto.
Qed.

Lemma marker_paths_counters (l : string) (file : FileDiff) :
  Additions (marker_paths l file) = Additions file /\
  Deletions (marker_paths l file) = Deletions file /\
  Hunks (marker_paths l file) = Hunks file /\
  Status (marker_paths l file) = Status file /\
  IsBinary (marker_paths l file) = IsBinary file.
Proof. unfold marker_paths. destruct (_ <=? _)%nat; repeat split. Qed.

Lemma default_Status_fields (file : FileDiff) :
  Additions (default_Status file) = Additions file /\
  Deletions (default_Status file) = Deletions file /\
  Hunks (default_Status file) = Hunks file /\
  Path (default_Status file) = Path file /\
  OldPath (default_Status file) = OldPath file /\
  IsBinary (default_Status file) = IsBinary file.
Proof. unfold default_Status. destruct (FileStatus_eqb _ _); repeat split. Qed.

(** The hunks only depend on the hunks so far and on the body. *)
Lemma scan_Hunks_ext (body : list string) :
  forall b f1 f2,
    Hunks f1 = Hunks f2 -> Hunks (scan body b f1) = Hunks (scan body b f2).
Proof.
  induction body as [|l body IH]; intros b f1 f2 E; simpl; [exact E|].
  destruct (strings.HasPrefix l "@@").
  - destruct (hunk_of l body); [|now apply IH].
    apply IH. simpl. now rewrite E.
  - destruct b; [now apply IH|]. apply IH.
    destruct (apply_marker_fields l f1) as (-> & _).
    destruct (apply_marker_fields l f2) as (-> & _). exact E.
Qed.

(** The hunks of the file of a section are those of the scan of its body. *)
Lemma file_of_section_Hunks (sec : string * list string) :
  Hunks (file_of_section sec) = Hunks (scan (snd sec) false emptyFileDiff).
Proof.
  unfold file_of_section.
  destruct (tally_fields
              (default_Status (scan (snd sec) false (marker_paths (fst sec) emptyFileDiff))))
    as (-> & _).
  destruct (default_Status_fields (scan (snd sec) false (marker_paths (fst sec) emptyFileDiff)))
    as (_ & _ & -> & _).
  apply scan_Hunks_ext. apply marker_paths_counters.
Qed.

Lemma parseDiff_In (diff : string) (files : list FileDiff) (err : bool)
      (f : FileDiff) :
  parseDiff diff = Some (files, err) -> In f files ->
  exists sec, In sec (sections (strings.Split diff)) /\ f = file_of_section sec.
Proof.
  rewrite parseDiff_spec. intros H; injection H as <- <-.
  rewrite in_map_iff. intros (sec & <- & Hin). eauto.
Qed.

(** C2: in every file the parser returns, [Additions] is the number of Added
    lines across its hunks and [Deletions] the number of Deleted lines.  The
    input is any text whose line count is a length a Go slice can have. *)
Theorem additions_deletions_count (diff : string) (files : list FileDiff)
        (err : bool) (f : FileDiff) :
  is_len (List.length (strings.Split diff)) ->
  parseDiff diff = Some (files, err) ->
  In f files ->
  Additions f = Z.of_nat (count_type LineTypeAdded f) /\
  Deletions f = Z.of_nat (count_type LineTypeDeleted f).
Proof.
  intros Hlen Hp Hin.
  destruct (parseDiff_In _ _ _ _ Hp Hin) as (sec & Hsec & ->).
  destruct (sections_In _ _ Hsec) as (pre & post & Els & Ebody & _).
  unfold count_type, all_lines. rewrite file_of_section_Hunks.
  unfold file_of_section.
  set (f0 := marker_paths (fst sec) emptyFileDiff).
  set (f1 := scan (snd sec) false f0).
  assert (B : List.length (all_lines f1) <= List.length (snd sec)).
  { assert (F : Forall (fun l => in_section l = true) (snd sec))
      by (rewrite Ebody; apply takeWhile_Forall).
    pose proof (scan_stored_bound (snd sec) F false f0) as S.
    destruct (marker_paths_counters (fst sec) emptyFileDiff) as (_ & _ & E & _).
    unfold all_lines in S at 2. fold f0 in E. rewrite E in S. simpl in S.
    fold f1 in S. lia. }
  assert (L : (Z.of_nat (List.length (snd sec)) < GoInt.maxInt)%Z).
  { unfold is_len in Hlen. rewrite Els, length_app in Hlen. simpl in Hlen.
    rewrite Ebody. pose proof (takeWhile_length in_section post).
    unfold section_body. lia. }
  destruct (scan_counters (snd sec) false f0) as (A1 & D1 & _). fold f1 in A1, D1.
  destruct (marker_paths_counters (fst sec) emptyFileDiff) as (A0 & D0 & _).
  fold f0 in A0, D0. simpl in A0, D0.
  destruct (default_Status_fields f1) as (A2 & D2 & H2 & _).
  unfold tally. unfold all_lines in B. rewrite H2.
  pose proof (tally_hunks_counts (Hunks f1) (default_Status f1)) as T.
  rewrite A2, D2, A1, D1, A0, D0 in T.
  destruct T as [EA ED]; try lia.
  rewrite EA, ED.
  assert (HH : Hunks f1 = Hunks (scan (snd sec) false emptyFileDiff)).
  { pose proof (file_of_section_Hunks sec) as Q. unfold file_of_section in Q.
    fold f0 in Q. fold f1 in Q.
    destruct (tally_fields (default_Status f1)) as (T & _). rewrite T, H2 in Q.
    exact Q. }
  rewrite <- HH. unfold count_in. split; reflexivity.
Qed.

Lemma additions_deletions_count_witness :
  is_len (List.length (strings.Split scenarioA)) /\
  parseDiff scenarioA = Some ([scenarioA_file], false) /\
  Additions scenarioA_file = Z.of_nat (count_type LineTypeAdded scenarioA_file) /\
  Deletions scenarioA_file = Z.of_nat (count_type LineTypeDeleted scenarioA_file).
Proof.
  assert (Hl : is_len (List.length (strings.Split scenarioA)))
    by (unfold is_len; vm_compute; discriminate).
  assert (Hp : parseDiff scenarioA = Some ([scenarioA_file], false))
    by (vm_compute; reflexivity).
  split; [exact Hl|]. split; [exact Hp|].
  apply (additions_deletions_count scenarioA _ false scenarioA_file Hl Hp).
  left. reflexivity.
Defined.

(** ** Files and sections *)

Lemma parseDiff_nth (diff : string) (i : nat) (sec : string * list string) :
  nth_error (sections (strings.Split diff)) i = Some sec ->
  exists files,
    parseDiff diff = Some (files, false) /\
    nth_error files i = Some (file_of_section sec).
Proof.
  intros H. eexists. split; [apply parseDiff_spec|].
  rewrite nth_error_map, H. reflexivity.
Qed.

Lemma hunk_of_valid (l : string) (following : list string) :
  valid_header l = false -> hunk_of l following = None.
Proof.
  unfold valid_header, hunk_of. rewrite negb_false_iff. now intros ->.
Qed.

Lemma hunk_of_invalid (l : string) (following : list string) :
  hunk_of l following = None -> valid_header l = false.
Proof.
  unfold valid_header, hunk_of. destruct (_ <? _)%nat; [reflexivity|discriminate].
Qed.

(** ** Binary files *)

Lemma apply_marker_IsBinary (l : string) (file : FileDiff) :
  IsBinary (apply_marker l file)
  = IsBinary file || strings.HasPrefix l "Binary files".
Proof.
  destruct l as [|c l]; [simpl; now rewrite orb_false_r|].
  unfold apply_marker.
  destruct (strings.HasPrefix (String c l) "Binary files") eqn:B.
  - rewrite HasPrefix_cons in B. apply andb_prop in B. destruct B as [B _].
    apply Ascii.eqb_eq in B. subst c. simpl. now rewrite orb_true_r.
  - rewrite orb_false_r.
    repeat match goal with |- context [if ?b then _ else _] => destruct b end;
      reflexivity.
Qed.

(** In a section without a matching hunk header every line is dispatched
    on, and no hunk is added. *)
Lemma scan_without_hunks (body : list string) :
  (forall l, In l body -> strings.HasPrefix l "@@" = true -> valid_header l = false) ->
  forall file,
    Hunks (scan body false file) = Hunks file /\
    IsBinary (scan body false file)
    = IsBinary file || existsb (fun l => strings.HasPrefix l "Binary files") body.
Proof.
  induction body as [|l body IH]; intros Hv file; simpl.
  { now rewrite orb_false_r. }
  assert (Hv' : forall l', In l' body -> strings.HasPrefix l' "@@" = true ->
                           valid_header l' = false)
    by (intros l' Hin; apply Hv; now right).
  destruct (strings.HasPrefix l "@@") eqn:A.
  - rewrite (hunk_of_valid l body (Hv l (or_introl eq_refl) A)).
    destruct (at_prefix_no_marker l A) as (_ & _ & _ & ->). simpl.
    now apply IH.
  - destruct (IH Hv' (apply_marker l file)) as [-> ->].
    destruct (apply_marker_fields l file) as (-> & _).
    rewrite apply_marker_IsBinary. now rewrite orb_assoc.
Qed.

Lemma file_of_section_IsBinary (sec : string * list string) :
  IsBinary (file_of_section sec) = IsBinary (scan (snd sec) false emptyFileDiff).
Proof.
  unfold file_of_section.
  destruct (tally_fields
              (default_Status (scan (snd sec) false (marker_paths (fst sec) emptyFileDiff))))
    as (_ & _ & _ & _ & ->).
  destruct (default_Status_fields (scan (snd sec) false (marker_paths (fst sec) emptyFileDiff)))
    as (_ & _ & _ & _ & _ & ->).
  assert (G : forall body b f1 f2,
             IsBinary f1 = IsBinary f2 ->
             IsBinary (scan body b f1) = IsBinary (scan body b f2)).
  { induction body as [|l body IH]; intros b f1 f2 E; simpl; [exact E|].
    destruct (strings.HasPrefix l "@@").
    - destruct (hunk_of l body); now apply IH.
    - destruct b; [now apply IH|]. apply IH.
      now rewrite !apply_marker_IsBinary, E. }
  apply G. apply marker_paths_counters.
Qed.

(** C3, as the code has it: a file section that contains a line starting
    with ["Binary files"] and no line that starts with ["@@"] and matches the
    hunk header pattern yields a file with [IsBinary = true] and no hunks,
    whatever other markers the section has. *)
Theorem binary_section (diff : string) (i : nat) (marker : string)
        (body : list string) :
  nth_error (sections (strings.Split diff)) i = Some (marker, body) ->
  (exists l, In l body /\ strings.HasPrefix l "Binary files" = true) ->
  (forall l, In l body -> strings.HasPrefix l "@@" = true -> valid_header l = false) ->
  exists files f,
    parseDiff diff = Some (files, false) /\
    nth_error files i = Some f /\
    IsBinary f = true /\ Hunks f = [].
Proof.
  intros Hsec (l & Hin & Hb) Hv.
  destruct (parseDiff_nth diff i _ Hsec) as (files & Hp & Hn).
  exists files, (file_of_section (marker, body)).
  split; [exact Hp|]. split; [exact Hn|].
  rewrite file_of_section_IsBinary, file_of_section_Hunks. simpl.
  destruct (scan_without_hunks body Hv emptyFileDiff) as [-> ->].
  split; [|reflexivity]. simpl.
  apply existsb_exists. exists l. now split.
Qed.

Lemma binary_section_witness :
  exists files f,
    parseDiff renamed_binary = Some (files, false) /\
    nth_error files 0 = Some f /\
    IsBinary f = true /\ Hunks f = [].
Proof.
  apply (binary_section renamed_binary 0 "diff --git a/x b/y"
           ["rename from x"; "Binary files a/x and b/y differ"; "@@ bogus"]).
  - vm_compute. reflexivity.
  - exists "Binary files a/x and b/y differ". split; [right; left|]; reflexivity.
  - intros l [<-|[<-|[<-|[]]]] H; solve [discriminate H | vm_compute; reflexivity].
Defined.

(** The claim as the specification words it fails: the first section below
    has a ["Binary files"] line and its file has a hunk; the second has the
    line inside a hunk, and its file is not binary. *)
Lemma binary_section_counterexample :
  exists f g,
    parseDiff binary_with_hunk = Some ([f], false) /\
    sections (strings.Split binary_with_hunk)
    = [("diff --git a/x b/x",
        ["Binary files a/x and b/x differ"; "@@ -1 +1 @@"; "+a"])] /\
    IsBinary f = true /\ Hunks f <> [] /\
    parseDiff binary_in_hunk = Some ([g], false) /\
    sections (strings.Split binary_in_hunk)
    = [("diff --git a/x b/x",
        ["@@ -1 +1 @@"; "+a"; "Binary files a/x and b/x differ"])] /\
    IsBinary g = false.
Proof.
  eexists. eexists. split; [vm_compute; reflexivity|].
  split; [vm_compute; reflexivity|]. split; [reflexivity|].
  split; [discriminate|]. split; [vm_compute; reflexivity|].
  split; [vm_compute; reflexivity|reflexivity].
Qed.

(** ** Status markers *)

Lemma apply_marker_Status (l : string) (file : FileDiff) :
  Status (apply_marker l file) = or_default (marker_status l) (Status file) /\
  OldPath (apply_marker l file) = or_default (marker_old_path l) (OldPath file).
Proof.
  unfold apply_marker, marker_status, marker_old_path.
  repeat match goal with |- context [if ?b then _ else _] => destruct b end;
    split; reflexivity.
Qed.

Lemma at_prefix_marker_status (l : string) :
  strings.HasPrefix l "@@" = true ->
  marker_status l = None /\ marker_old_path l = None.
Proof.
  intros A. unfold marker_status, marker_old_path.
  destruct (at_prefix_no_marker l A) as (-> & -> & -> & _). now split.
Qed.

(** The status and the old path after the scan are those of the last
    marker line among the lines dispatched on. *)
Lemma scan_last_marker (body : list string) :
  forall b file,
    Status (scan body b file)
    = or_default (last_of marker_status (seen_lines body b)) (Status file) /\
    OldPath (scan body b file)
    = or_default (last_of marker_old_path (seen_lines body b)) (OldPath file).
Proof.
  induction body as [|l body IH]; intros b file; simpl; [now split|].
  destruct (strings.HasPrefix l "@@") eqn:A.
  - destruct (hunk_of l body) as [h|] eqn:Hh.
    + assert (V : valid_header l = true).
      { destruct (valid_header l) eqn:V; [reflexivity|].
        rewrite (hunk_of_valid l body V) in Hh. discriminate. }
      rewrite V. apply (IH true (add_Hunk h file)).
    + rewrite (hunk_of_invalid l body Hh). simpl.
      destruct (at_prefix_marker_status l A) as [-> ->].
      destruct (IH false file) as [-> ->].
      destruct (last_of marker_status (seen_lines body false));
        destruct (last_of marker_old_path (seen_lines body false)); now split.
  - destruct b; [apply IH|]. simpl.
    destruct (IH false (apply_marker l file)) as [-> ->].
    destruct (apply_marker_Status l file) as [-> ->].
    destruct (last_of marker_status (seen_lines body false));
      destruct (last_of marker_old_path (seen_lines body false)); now split.
Qed.

Lemma last_of_marker_status_set (ls : list string) (st : FileStatus) :
  last_of marker_status ls = Some st -> st <> FileStatusUnset.
Proof.
  induction ls as [|l ls IH]; simpl; [discriminate|].
  destruct (last_of marker_status ls) as [a|].
  - intros H. apply IH. exact H.
  - unfold marker_status.
    repeat match goal with |- context [if ?b then _ else _] => destruct b end;
      intros H; inversion H; discriminate.
Qed.

Lemma trim_rename_from (t : string) :
  marker_status ("rename from " ++ t) = Some FileStatusRenamed /\
  marker_old_path ("rename from " ++ t) = Some t.
Proof. split; vm_compute; reflexivity. Qed.

(** C10: in the file of a section, the status is the one of the last line
    starting with ["new file"], ["deleted file"] or ["rename from"] among the
    lines the scan of the section dispatches on (Modified when there is
    none), whatever was assigned before; and the old path is what the last
    ["rename from"] line among them gives, the text after ["rename from "],
    in place of the one captured from the marker line. *)
Theorem last_marker_wins (diff : string) (i : nat) (marker : string)
        (body : list string) :
  nth_error (sections (strings.Split diff)) i = Some (marker, body) ->
  exists files f,
    parseDiff diff = Some (files, false) /\
    nth_error files i = Some f /\
    Status f
    = or_default (last_of marker_status (seen_lines body false)) FileStatusModified /\
    OldPath f
    = or_default (last_of marker_old_path (seen_lines body false))
                 (OldPath (marker_paths marker emptyFileDiff)) /\
    (forall t, marker_status ("rename from " ++ t) = Some FileStatusRenamed /\
               marker_old_path ("rename from " ++ t) = Some t).
Proof.
  intros Hsec.
  destruct (parseDiff_nth diff i _ Hsec) as (files & Hp & Hn).
  exists files, (file_of_section (marker, body)).
  split; [exact Hp|]. split; [exact Hn|].
  split; [|split; [|apply trim_rename_from]].
  - unfold file_of_section. simpl.
    set (f0 := marker_paths marker emptyFileDiff).
    destruct (tally_fields (default_Status (scan body false f0)))
      as (_ & _ & _ & -> & _).
    destruct (scan_last_marker body false f0) as [ES _].
    unfold default_Status.
    destruct (marker_paths_counters marker emptyFileDiff) as (_ & _ & _ & E0 & _).
    fold f0 in E0. rewrite E0 in ES. simpl in ES.
    destruct (last_of marker_status (seen_lines body false)) as [st|] eqn:L.
    + pose proof (last_of_marker_status_set _ _ L) as NS.
      cbn [or_default] in *. rewrite ES.
      destruct st; simpl; try exact ES. now contradiction NS.
    + cbn [or_default] in *. rewrite ES. reflexivity.
  - unfold file_of_section. simpl.
    set (f0 := marker_paths marker emptyFileDiff).
    destruct (tally_fields (default_Status (scan body false f0)))
      as (_ & _ & -> & _).
    destruct (default_Status_fields (scan body false f0)) as (_ & _ & _ & _ & -> & _).
    apply scan_last_marker.
Qed.

Lemma last_marker_wins_witness :
  exists files f,
    parseDiff three_markers = Some (files, false) /\
    nth_error files 0 = Some f /\
    Status f = FileStatusDeleted /\ OldPath f = "z".
Proof.
  destruct (last_marker_wins three_markers 0 "diff --git a/x b/y"
              ["new file mode 100644"; "rename from z"; "deleted file mode 100644"])
    as (files & f & H1 & H2 & H3 & H4 & _).
  - vm_compute. reflexivity.
  - exists files, f. split; [exact H1|]. split; [exact H2|].
    split; [exact H3|exact H4].
Defined.

(** ** Hunks and the text they come from *)

Lemma takeWhile_app_cons {A : Type} (f : A -> bool) (l a b : list A) (x : A) :
  takeWhile f l = a ++ x :: b ->
  exists c, l = a ++ x :: c /\ b = takeWhile f c.
Proof.
  revert a. induction l as [|y l IH]; intros a; simpl.
  { destruct a; discriminate. }
  destruct (f y).
  - destruct a as [|z a]; simpl; intros H; injection H as -> H.
    + exists l. split; [reflexivity | now symmetry].
    + destruct (IH a H) as (c & -> & ->). exists c. now split.
  - destruct a; discriminate.
Qed.

(** Every hunk of the scan of a section comes from a header line of the
    body and the lines after it. *)
Lemma scan_Hunks_In (body : list string) :
  forall b file h,
    In h (Hunks (scan body b file)) ->
    In h (Hunks file) \/
    exists pre post,
      body = pre ++ Header h :: post /\ hunk_of (Header h) post = Some h.
Proof.
  induction body as [|l body IH]; intros b file h; simpl; [now left|].
  assert (K : forall b' file',
             In h (Hunks (scan body b' file')) ->
             In h (Hunks file') \/
             exists pre post,
               l :: body = pre ++ Header h :: post /\
               hunk_of (Header h) post = Some h).
  { intros b' file' H. destruct (IH b' file' h H) as [H'|(pre & post & -> & E)];
      [now left|]. right. exists (l :: pre), post. now split. }
  destruct (strings.HasPrefix l "@@").
  - destruct (hunk_of l body) as [h'|] eqn:Hh; [|apply K].
    intros H. destruct (K _ _ H) as [H'|H']; [|now right].
    simpl in H'. apply in_app_or in H'. destruct H' as [H'|[<-|[]]]; [now left|].
    right. exists [], body.
    assert (EH : Header h' = l).
    { unfold hunk_of in Hh. destruct (_ <? _)%nat; [discriminate|].
      injection Hh as <-. reflexivity. }
    rewrite EH. now split.
  - destruct b; [apply K|].
    intros H. destruct (K _ _ H) as [H'|H']; [|now right].
    left. now destruct (apply_marker_fields l file) as (<- & _).
Qed.

Lemma parseDiff_hunk_origin (diff : string) (files : list FileDiff) (err : bool)
      (f : FileDiff) (h : Hunk) :
  parseDiff diff = Some (files, err) -> In f files -> In h (Hunks f) ->
  exists pre post,
    strings.Split diff = pre ++ Header h :: post /\
    hunk_of (Header h) post = Some h.
Proof.
  intros Hp Hf Hh.
  destruct (parseDiff_In _ _ _ _ Hp Hf) as (sec & Hsec & ->).
  destruct (sections_In _ _ Hsec) as (pre & post & Els & Ebody & _).
  rewrite file_of_section_Hunks in Hh.
  destruct (scan_Hunks_In _ _ _ _ Hh) as [[]|(pre' & post' & E & Ho)].
  rewrite Ebody in E. unfold section_body in E.
  destruct (takeWhile_app_cons _ _ _ _ _ E) as (c & -> & ->).
  fold (section_body c) in Ho. rewrite hunk_of_section_body in Ho.
  exists (pre ++ fst sec :: pre'), c. split; [|exact Ho].
  rewrite Els, <- app_assoc. reflexivity.
Qed.

(** ** Line numbers *)

Lemma digits_from_nonneg (s : string) :
  forall acc n, (0 <= acc)%Z -> strconv.digits_from acc s = Some n -> (0 <= n)%Z.
Proof.
  induction s as [|c s IH]; intros acc n Ha; simpl.
  - intros H; injection H as <-. exact Ha.
  - destruct (digit c) eqn:D; [|discriminate].
    apply IH. unfold strconv.digit_value. unfold digit in D.
    apply andb_prop in D. destruct D as [D _]. apply Nat.leb_le in D. lia.
Qed.

Lemma Atoi_range (s : string) :
  (GoInt.minInt <= fst (strconv.Atoi s) <= GoInt.maxInt)%Z.
Proof.
  pose proof maxInt_pos. pose proof minInt_neg.
  assert (G : forall body,
             match strconv.digits body with
             | None => True
             | Some n => (0 <= n)%Z
             end).
  { intros body. unfold strconv.digits.
    destruct body as [|c body]; [exact I|].
    destruct (strconv.digits_from 0 (String c body)) eqn:E; [|exact I].
    eapply digits_from_nonneg; [|exact E]. lia. }
  unfold strconv.Atoi.
  set (nb := match s with
             | String "+"%char t => (false, t)
             | String "-"%char t => (true, t)
             | _ => (false, s)
             end).
  destruct nb as [neg body]. specialize (G body).
  destruct (strconv.digits body) as [n|]; [|simpl; lia].
  destruct neg.
  - destruct (n >? - GoInt.minInt)%Z eqn:C; simpl; [lia|].
    rewrite Z.gtb_ltb, Z.ltb_ge in C.
    change GoInt.maxInt with (- GoInt.minInt - 1)%Z. lia.
  - destruct (n >? GoInt.maxInt)%Z eqn:C; simpl; [lia|].
    rewrite Z.gtb_ltb, Z.ltb_ge in C. lia.
Qed.

Lemma counted_consecutive (n : nat) :
  forall start,
    (GoInt.minInt <= start)%Z ->
    (start + Z.of_nat n - 1 <= GoInt.maxInt)%Z ->
    counted start n = consecutive start n.
Proof.
  unfold consecutive.
  induction n as [|n IH]; intros start Hlo Hhi; [reflexivity|].
  simpl. rewrite Z.add_0_r. f_equal.
  destruct n as [|n]; [reflexivity|].
  rewrite incr_in_range in * by lia. rewrite IH by lia.
  rewrite <- seq_shift, map_map. apply map_ext. intros i. lia.
Qed.

Lemma consecutive_sorted (start : Z) (n : nat) :
  StronglySorted Z.lt (consecutive start n).
Proof.
  unfold consecutive. generalize 0.
  induction n as [|n IH]; intros a; simpl; constructor; [apply IH|].
  apply Forall_forall. intros x Hx. apply in_map_iff in Hx.
  destruct Hx as (i & <- & Hi). apply in_seq in Hi. lia.
Qed.

Lemma classify_numbers (ls : list string) :
  forall o n,
    Forall number_pattern (classify ls o n) /\
    old_numbers (classify ls o n)
    = counted o (List.length (old_numbers (classify ls o n))) /\
    new_numbers (classify ls o n)
    = counted n (List.length (new_numbers (classify ls o n))).
Proof.
  induction ls as [|l ls IH]; intros o n; simpl.
  { repeat split; constructor. }
  destruct l as [|c content]; [apply IH|].
  destruct (Ascii.eqb c "+").
  { destruct (IH o (GoInt.incr n)) as (P & EO & EN).
    split; [constructor; [unfold number_pattern; simpl; split; eauto | exact P]|].
    unfold old_numbers, new_numbers in *. simpl. split; [exact EO|].
    f_equal. exact EN. }
  destruct (Ascii.eqb c "-").
  { destruct (IH (GoInt.incr o) n) as (P & EO & EN).
    split; [constructor; [unfold number_pattern; simpl; split; eauto | exact P]|].
    unfold old_numbers, new_numbers in *. simpl. split; [|exact EN].
    f_equal. exact EO. }
  destruct (Ascii.eqb c " "); [|apply IH].
  destruct (IH (GoInt.incr o) (GoInt.incr n)) as (P & EO & EN).
  split; [constructor; [unfold number_pattern; simpl; split; eauto | exact P]|].
  unfold old_numbers, new_numbers in *. simpl. split; f_equal; assumption.
Qed.

Lemma hunk_of_fields (l : string) (following : list string) (h : Hunk) :
  hunk_of l following = Some h ->
  Lines h = classify (hunk_body following) (OldStart h) (NewStart h) /\
  (GoInt.minInt <= OldStart h <= GoInt.maxInt)%Z /\
  (GoInt.minInt <= NewStart h <= GoInt.maxInt)%Z.
Proof.
  unfold hunk_of. destruct (_ <? _)%nat; [discriminate|].
  intros H; injection H as <-. simpl.
  split; [reflexivity|]. split; apply Atoi_range.
Qed.

(** C4, as the code has it: in every hunk the parser returns, each Added
    line has a new number only, each Deleted line an old number only and
    each Context line both; the old numbers are the successive values of a
    counter started at [OldStart] and the new numbers those of a counter
    started at [NewStart], each side for itself; and on a side whose
    numbers stay within [int] (the start plus the number of lines less one
    is at most [maxInt]) they are contiguous and strictly increasing from
    the start. *)
Theorem hunk_line_numbers (diff : string) (files : list FileDiff) (err : bool)
        (f : FileDiff) (h : Hunk) :
  parseDiff diff = Some (files, err) -> In f files -> In h (Hunks f) ->
  Forall number_pattern (Lines h) /\
  old_numbers (Lines h)
  = counted (OldStart h) (List.length (old_numbers (Lines h))) /\
  new_numbers (Lines h)
  = counted (NewStart h) (List.length (new_numbers (Lines h))) /\
  ((OldStart h + Z.of_nat (List.length (old_numbers (Lines h))) - 1
    <= GoInt.maxInt)%Z ->
   old_numbers (Lines h)
   = consecutive (OldStart h) (List.length (old_numbers (Lines h))) /\
   StronglySorted Z.lt (old_numbers (Lines h))) /\
  ((NewStart h + Z.of_nat (List.length (new_numbers (Lines h))) - 1
    <= GoInt.maxInt)%Z ->
   new_numbers (Lines h)
   = consecutive (NewStart h) (List.length (new_numbers (Lines h))) /\
   StronglySorted Z.lt (new_numbers (Lines h))).
Proof.
  intros Hp Hf Hh.
  destruct (parseDiff_hunk_origin _ _ _ _ _ Hp Hf Hh) as (pre & post & _ & Ho).
  destruct (hunk_of_fields _ _ _ Ho) as (EL & RO & RN).
  destruct (classify_numbers (hunk_body post) (OldStart h) (NewStart h))
    as (P & EO & EN).
  rewrite <- EL in P, EO, EN.
  split; [exact P|]. split; [exact EO|]. split; [exact EN|].
  split; intros B.
  - assert (C : old_numbers (Lines h)
                = consecutive (OldStart h) (List.length (old_numbers (Lines h))))
      by (rewrite EO at 1; apply counted_consecutive; lia).
    split; [exact C|]. rewrite C. apply consecutive_sorted.
  - assert (C : new_numbers (Lines h)
                = consecutive (NewStart h) (List.length (new_numbers (Lines h))))
      by (rewrite EN at 1; apply counted_consecutive; lia).
    split; [exact C|]. rewrite C. apply consecutive_sorted.
Qed.

Lemma hunk_line_numbers_witness :
  parseDiff scenarioA = Some ([scenarioA_file], false) /\
  old_numbers (Lines scenarioA_hunk) = consecutive 1 2 /\
  new_numbers (Lines scenarioA_hunk) = consecutive 1 3.
Proof.
  assert (Hp : parseDiff scenarioA = Some ([scenarioA_file], false))
    by (vm_compute; reflexivity).
  split; [exact Hp|].
  destruct (hunk_line_numbers scenarioA _ false scenarioA_file scenarioA_hunk Hp)
    as (_ & _ & _ & HO & HN).
  - left. reflexivity.
  - left. reflexivity.
  - split.
    + refine (proj1 (HO _)). vm_compute. discriminate.
    + refine (proj1 (HN _)). vm_compute. discriminate.
Defined.

(** The claim as the specification words it fails where a counter passes
    the largest [int]: the old numbers of the hunk below are [maxInt] and
    then [minInt]. *)
Lemma hunk_line_numbers_counterexample :
  exists f h,
    parseDiff overflowing_hunk = Some ([f], false) /\ Hunks f = [h] /\
    OldStart h = 9223372036854775807%Z /\
    old_numbers (Lines h) = [9223372036854775807; -9223372036854775808]%Z /\
    old_numbers (Lines h)
    <> consecutive (OldStart h) (List.length (old_numbers (Lines h))).
Proof.
  exists (mkFileDiff "x" "x" FileStatusModified 0 2 false [overflowing_result]).
  exists overflowing_result.
  split; [vm_compute; reflexivity|]. split; [reflexivity|].
  split; [reflexivity|]. split; [reflexivity|]. vm_compute. discriminate.
Qed.

(** ** Round trip of a hunk body *)

Lemma classify_render (ls : list string) :
  forall o n, map render (classify ls o n) = filter stored ls.
Proof.
  induction ls as [|l ls IH]; intros o n; simpl; [reflexivity|].
  destruct l as [|c content]; simpl; [apply IH|].
  destruct (Ascii.eqb c "+") eqn:Ep.
  { apply Ascii.eqb_eq in Ep. subst c. simpl. f_equal. apply IH. }
  destruct (Ascii.eqb c "-") eqn:Em.
  { apply Ascii.eqb_eq in Em. subst c. simpl. f_equal. apply IH. }
  destruct (Ascii.eqb c " ") eqn:Es.
  { apply Ascii.eqb_eq in Es. subst c. simpl. f_equal. apply IH. }
  simpl. apply IH.
Qed.

(** C5, as the code has it: for every hunk the parser returns, the stored
    lines, each with its marker byte put back in front of its content, are
    in order the lines of the hunk's body (the lines of the text after the
    header, up to the next line starting with ["@@"] or ["diff --git"])
    that start with ['+'], ['-'] or a space; joined by line feeds the two
    are the same text.  All other body lines are left out: the empty ones,
    those starting with a backslash, and those starting with any other
    byte. *)
Theorem hunk_body_round_trip (diff : string) (files : list FileDiff) (err : bool)
        (f : FileDiff) (h : Hunk) :
  parseDiff diff = Some (files, err) -> In f files -> In h (Hunks f) ->
  exists pre post,
    strings.Split diff = pre ++ Header h :: post /\
    map render (Lines h) = filter stored (hunk_body post) /\
    strings.Join (map render (Lines h))
    = strings.Join (filter stored (hunk_body post)).
Proof.
  intros Hp Hf Hh.
  destruct (parseDiff_hunk_origin _ _ _ _ _ Hp Hf Hh) as (pre & post & E & Ho).
  exists pre, post. split; [exact E|].
  destruct (hunk_of_fields _ _ _ Ho) as (EL & _).
  assert (R : map render (Lines h) = filter stored (hunk_body post))
    by (rewrite EL; apply classify_render).
  split; [exact R | now rewrite R].
Qed.

Lemma hunk_body_round_trip_witness :
  parseDiff scenarioA = Some ([scenarioA_file], false) /\
  exists pre post,
    strings.Split scenarioA = pre ++ Header scenarioA_hunk :: post /\
    map render (Lines scenarioA_hunk) = filter stored (hunk_body post) /\
    strings.Join (map render (Lines scenarioA_hunk))
    = strings.Join (filter stored (hunk_body post)).
Proof.
  assert (Hp : parseDiff scenarioA = Some ([scenarioA_file], false))
    by (vm_compute; reflexivity).
  split; [exact Hp|].
  apply (hunk_body_round_trip scenarioA _ false scenarioA_file scenarioA_hunk Hp).
  - left. reflexivity.
  - left. reflexivity.
Defined.

(** The claim as the specification words it fails: the body of the hunk
    below has an empty line and no backslash line, and the stored lines do
    not give the body back. *)
Lemma hunk_body_round_trip_counterexample :
  exists f h,
    parseDiff blank_in_hunk = Some ([f], false) /\ Hunks f = [h] /\
    strings.Split blank_in_hunk
    = ["diff --git a/x b/x"; Header h] ++ ["+a"; ""; "+b"] /\
    hunk_body ["+a"; ""; "+b"] = ["+a"; ""; "+b"] /\
    filter (fun l => negb (is_backslash_line l)) ["+a"; ""; "+b"]
    = ["+a"; ""; "+b"] /\
    map render (Lines h) = ["+a"; "+b"] /\
    strings.Join (map render (Lines h))
    <> strings.Join (filter (fun l => negb (is_backslash_line l)) ["+a"; ""; "+b"]).
Proof.
  exists (mkFileDiff "x" "x" FileStatusModified 2 0 false
            [mkHunk 1 1 1 2 "@@ -1 +1,2 @@"
               [mkLine LineTypeAdded "a" None (Some 1%Z);
                mkLine LineTypeAdded "b" None (Some 2%Z)]]).
  eexists. split; [vm_compute; reflexivity|].
  split; [reflexivity|]. split; [vm_compute; reflexivity|].
  split; [vm_compute; reflexivity|]. split; [reflexivity|].
  split; [reflexivity|]. vm_compute. discriminate.
Qed.

(** ** The matcher on texts of a known shape *)

Lemma HasPrefix_app (t s : string) : strings.HasPrefix (t ++ s) t = true.
Proof.
  induction t as [|c t IH]; [reflexivity|].
  simpl. rewrite HasPrefix_cons, Ascii.eqb_refl. exact IH.
Qed.

Lemma drop_app (t s : string) : strings.drop (String.length t) (t ++ s) = s.
Proof. induction t as [|c t IH]; [reflexivity | exact IH]. Qed.

Lemma substring_app (a b : string) : String.substring 0 (String.length a) (a ++ b) = a.
Proof.
  induction a as [|c a IH]; simpl.
  - destruct b; reflexivity.
  - now rewrite IH.
Qed.

Lemma string_length_app (a b : string) :
  String.length (a ++ b) = String.length a + String.length b.
Proof. induction a as [|c a IH]; simpl; [reflexivity | now rewrite IH]. Qed.

Lemma consumed_app (a b : string) : consumed (a ++ b) b = a.
Proof.
  unfold consumed. rewrite string_length_app.
  replace (String.length a + String.length b - String.length b)
    with (String.length a) by lia.
  apply substring_app.
Qed.

Lemma append_nil_r (s : string) : (s ++ "")%string = s.
Proof. induction s as [|c s IH]; simpl; [reflexivity | now rewrite IH]. Qed.

Lemma consumed_all (s : string) : consumed s "" = s.
Proof. rewrite <- (append_nil_r s) at 1. apply consumed_app. Qed.

Section MatcherFacts.
Context {R : Type}.

Lemma star_class_app (f : ascii -> bool) (d Y : string) (k : string -> option R)
      (r : R) :
  all_in f d = true ->
  star_class f Y k = Some r ->
  star_class f (d ++ Y) k = Some r.
Proof.
  induction d as [|c d IH]; simpl; intros Hd HY; [exact HY|].
  apply andb_prop in Hd. destruct Hd as [-> Hd].
  now rewrite (IH Hd HY).
Qed.

Lemma star_class_stop (f : ascii -> bool) (Y : string) (k : string -> option R) :
  stops f Y = true -> star_class f Y k = k Y.
Proof.
  destruct Y as [|c Y]; simpl; [reflexivity|].
  rewrite negb_true_iff. now intros ->.
Qed.

(** When the continuation fails on every proper suffix, nothing is taken. *)
Lemma star_class_none_beyond (f : ascii -> bool) (Y : string)
      (k : string -> option R) :
  (forall a b, Y = (a ++ b)%string -> a <> "" -> k b = None) ->
  star_class f Y k = k Y.
Proof.
  induction Y as [|c Y IH]; intros H; simpl; [reflexivity|].
  destruct (f c); [|reflexivity].
  rewrite IH.
  - rewrite (H (String c "") Y); [reflexivity|reflexivity|discriminate].
  - intros a b -> Ha. apply (H (String c a) b); [reflexivity|discriminate].
Qed.

Lemma rmatch_Seq (r1 r2 : regex) (s : string) (caps : list string)
      (k : string -> list string -> option R) :
  rmatch (r1 +++ r2) s caps k
  = rmatch r1 s caps (fun s' caps' => rmatch r2 s' caps' k).
Proof. reflexivity. Qed.

Lemma rmatch_Opt (r1 : regex) (s : string) (caps : list string)
      (k : string -> list string -> option R) :
  rmatch (Opt r1) s caps k
  = match rmatch r1 s caps k with
    | Some x => Some x
    | None => k s caps
    end.
Proof. reflexivity. Qed.

Lemma rmatch_Class_cons (f : ascii -> bool) (c : ascii) (s : string)
      (caps : list string) (k : string -> list string -> option R) :
  rmatch (Class f) (String c s) caps k = if f c then k s caps else None.
Proof. reflexivity. Qed.

Lemma rmatch_Lit_app (t s : string) (caps : list string)
      (k : string -> list string -> option R) :
  rmatch (Lit t) (t ++ s) caps k = k s caps.
Proof. simpl. now rewrite HasPrefix_app, drop_app. Qed.

Lemma rmatch_Group_Plus_run (i : nat) (f : ascii -> bool) (d Y : string)
      (caps : list string) (k : string -> list string -> option R) (r : R) :
  all_in f d = true -> d <> "" -> stops f Y = true ->
  k Y (set_cap i d caps) = Some r ->
  rmatch (Group i (Plus f)) (d ++ Y) caps k = Some r.
Proof.
  intros Hd Hne HY Hk. destruct d as [|c d]; [contradiction|].
  simpl in Hd. apply andb_prop in Hd. destruct Hd as [Hc Hd].
  cbn [rmatch append]. rewrite Hc.
  apply star_class_app; [exact Hd|]. rewrite star_class_stop by exact HY.
  change (String c (d ++ Y)) with (String c d ++ Y)%string. now rewrite consumed_app.
Qed.

Lemma rmatch_Group_Plus_last (i : nat) (f : ascii -> bool) (d Y : string)
      (caps : list string) (k : string -> list string -> option R) (r : R) :
  all_in f d = true -> d <> "" ->
  (forall a b caps', Y = (a ++ b)%string -> a <> "" -> k b caps' = None) ->
  k Y (set_cap i d caps) = Some r ->
  rmatch (Group i (Plus f)) (d ++ Y) caps k = Some r.
Proof.
  intros Hd Hne HY Hk. destruct d as [|c d]; [contradiction|].
  simpl in Hd. apply andb_prop in Hd. destruct Hd as [Hc Hd].
  cbn [rmatch append]. rewrite Hc.
  apply star_class_app; [exact Hd|]. rewrite star_class_none_beyond.
  - change (String c (d ++ Y)) with (String c d ++ Y)%string. now rewrite consumed_app.
  - intros a b E Ha. now apply HY with (a := a).
Qed.

Lemma rmatch_Group_Star_all (i : nat) (f : ascii -> bool) (d : string)
      (caps : list string) (k : string -> list string -> option R) (r : R) :
  all_in f d = true ->
  k "" (set_cap i d caps) = Some r ->
  rmatch (Group i (Star f)) d caps k = Some r.
Proof.
  intros Hd Hk. cbn [rmatch].
  rewrite <- (append_nil_r d) at 1. apply star_class_app; [exact Hd|].
  simpl. now rewrite consumed_all.
Qed.

Lemma rmatch_Group_Plus_all (i : nat) (f : ascii -> bool) (d : string)
      (caps : list string) (k : string -> list string -> option R) (r : R) :
  all_in f d = true -> d <> "" ->
  k "" (set_cap i d caps) = Some r ->
  rmatch (Group i (Plus f)) d caps k = Some r.
Proof.
  intros Hd Hne Hk. rewrite <- (append_nil_r d).
  apply rmatch_Group_Plus_run; try assumption. reflexivity.
Qed.

End MatcherFacts.

Lemma FindStringSubmatch_here (r : regex) (n : nat) (s : string)
      (caps : list string) :
  match_here r n s = Some caps -> FindStringSubmatch r n s = caps.
Proof. intros H. destruct s; simpl; now rewrite H. Qed.

Lemma digits_from_all_in (s : string) :
  forall acc n, strconv.digits_from acc s = Some n -> all_in digit s = true.
Proof.
  induction s as [|c s IH]; intros acc n; simpl; [reflexivity|].
  destruct (digit c); [|discriminate]. intros H. simpl. eapply IH. exact H.
Qed.

Lemma digits_all_in (d : string) (n : Z) :
  strconv.digits d = Some n -> all_in digit d = true /\ d <> "".
Proof.
  destruct d as [|c d]; [discriminate|].
  unfold strconv.digits. intros H. split; [|discriminate].
  eapply digits_from_all_in. exact H.
Qed.

(** [Atoi] on a run of digits: the number, or the largest [int]. *)
Lemma Atoi_digits (d : string) (n : Z) :
  strconv.digits d = Some n -> fst (strconv.Atoi d) = Z.min n GoInt.maxInt.
Proof.
  intros H. destruct (digits_all_in d n H) as [Hd _].
  destruct d as [|c d]; [discriminate|].
  simpl in Hd. apply andb_prop in Hd. destruct Hd as [Hc _].
  assert (E : strconv.Atoi (String c d)
              = match strconv.digits (String c d) with
                | None => (0%Z, true)
                | Some n =>
                    if (n >? GoInt.maxInt)%Z then (GoInt.maxInt, true) else (n, false)
                end).
  { unfold strconv.Atoi.
    destruct c as [[] [] [] [] [] [] [] []]; try discriminate Hc; reflexivity. }
  rewrite E, H.
  destruct (n >? GoInt.maxInt)%Z eqn:C; simpl.
  - rewrite Z.gtb_ltb, Z.ltb_lt in C. lia.
  - rewrite Z.gtb_ltb, Z.ltb_ge in C. lia.
Qed.

(** ** Hunk headers *)

Lemma count_ok_digits (c : option string) :
  count_ok c ->
  match c with
  | Some d => all_in digit d = true /\ d <> ""
  | None => True
  end.
Proof.
  destruct c as [d|]; [|trivial]. intros (n & H). eapply digits_all_in. exact H.
Qed.

Section HeaderMatch.
Context {R : Type}.
Variables (d1 : string) (c1 : option string) (d3 : string) (c2 : option string)
          (trailing : string).
Hypotheses (H1 : all_in digit d1 = true) (N1 : d1 <> "")
           (H3 : all_in digit d3 = true) (N3 : d3 <> "")
           (O1 : count_ok c1) (O2 : count_ok c2)
           (HT : no_newline trailing = true).

Lemma hunkRe_new_side (caps : list string)
      (k : string -> list string -> option R) (r : R) :
  k "" (set_cap 5 trailing (count_cap 4 c2 (set_cap 3 d3 caps))) = Some r ->
  rmatch (Group 3 (Plus digit) +++ Opt (Lit "," +++ Group 4 (Plus digit))
          +++ Lit " @@" +++ Group 5 (Star dot))
         (d3 ++ count_text c2 ++ " @@" ++ trailing) caps k
  = Some r.
Proof.
  intros Hk. pose proof (count_ok_digits c2 O2) as D2.
  rewrite rmatch_Seq.
  apply rmatch_Group_Plus_run; [exact H3|exact N3|destruct c2; reflexivity|].
  rewrite rmatch_Seq, rmatch_Opt.
  destruct c2 as [d|]; cbn [count_text count_cap] in *.
  - destruct D2 as [H4 N4].
    change (("," ++ d) ++ " @@" ++ trailing)%string
      with ("," ++ d ++ " @@" ++ trailing)%string.
    rewrite rmatch_Seq, rmatch_Lit_app.
    erewrite (rmatch_Group_Plus_run 4 digit d);
      [reflexivity|exact H4|exact N4|reflexivity|].
    rewrite rmatch_Seq, rmatch_Lit_app.
    apply rmatch_Group_Star_all; [exact HT|exact Hk].
  - change ("" ++ " @@" ++ trailing)%string with (" @@" ++ trailing)%string.
    replace (rmatch (Lit "," +++ Group 4 (Plus digit)) (" @@" ++ trailing)
               (set_cap 3 d3 caps)
               (fun s' caps' =>
                  rmatch (Lit " @@" +++ Group 5 (Star dot)) s' caps' k))
      with (@None R) by reflexivity.
    rewrite rmatch_Seq, rmatch_Lit_app.
    apply rmatch_Group_Star_all; [exact HT|exact Hk].
Qed.

Lemma hunkRe_rmatch (caps : list string)
      (k : string -> list string -> option R) (r : R) :
  k "" (set_cap 5 trailing
          (count_cap 4 c2 (set_cap 3 d3 (count_cap 2 c1 (set_cap 1 d1 caps)))))
  = Some r ->
  rmatch hunkRe (header_text d1 c1 d3 c2 trailing) caps k = Some r.
Proof.
  intros Hk. pose proof (count_ok_digits c1 O1) as D1.
  unfold hunkRe, header_text.
  rewrite rmatch_Seq, rmatch_Lit_app, rmatch_Seq.
  apply rmatch_Group_Plus_run; [exact H1|exact N1|destruct c1; reflexivity|].
  rewrite rmatch_Seq, rmatch_Opt.
  destruct c1 as [d|]; cbn [count_text count_cap] in *.
  - destruct D1 as [H2 N2].
    change (("," ++ d) ++ " +" ++ d3 ++ count_text c2 ++ " @@" ++ trailing)%string
      with ("," ++ d ++ " +" ++ d3 ++ count_text c2 ++ " @@" ++ trailing)%string.
    rewrite rmatch_Seq, rmatch_Lit_app.
    erewrite (rmatch_Group_Plus_run 2 digit d);
      [reflexivity|exact H2|exact N2|reflexivity|].
    rewrite rmatch_Seq, rmatch_Lit_app. apply hunkRe_new_side. exact Hk.
  - change ("" ++ " +" ++ d3 ++ count_text c2 ++ " @@" ++ trailing)%string
      with (" +" ++ d3 ++ count_text c2 ++ " @@" ++ trailing)%string.
    replace (rmatch (Lit "," +++ Group 2 (Plus digit))
               (" +" ++ d3 ++ count_text c2 ++ " @@" ++ trailing)
               (set_cap 1 d1 caps)
               (fun s' c' =>
                  rmatch (Lit " +" +++ Group 3 (Plus digit)
                          +++ Opt (Lit "," +++ Group 4 (Plus digit))
                          +++ Lit " @@" +++ Group 5 (Star dot)) s' c' k))
      with (@None R) by reflexivity.
    rewrite rmatch_Seq, rmatch_Lit_app. apply hunkRe_new_side. exact Hk.
Qed.

End HeaderMatch.

(** The submatches of a header text. *)
Lemma hunkRe_submatches (d1 : string) (c1 : option string) (d3 : string)
      (c2 : option string) (trailing : string) :
  all_in digit d1 = true -> d1 <> "" ->
  all_in digit d3 = true -> d3 <> "" ->
  count_ok c1 -> count_ok c2 -> no_newline trailing = true ->
  FindStringSubmatch hunkRe 5 (header_text d1 c1 d3 c2 trailing)
  = [header_text d1 c1 d3 c2 trailing; d1; or_default c1 ""; d3;
     or_default c2 ""; trailing].
Proof.
  intros H1 N1 H3 N3 O1 O2 HT.
  apply FindStringSubmatch_here. unfold match_here.
  erewrite hunkRe_rmatch; try eassumption; [|reflexivity].
  rewrite consumed_all. destruct c1, c2; reflexivity.
Qed.

Lemma stored_count_spec (c : option string) (matches : list string) (i : nat) :
  count_ok c -> sub matches i = or_default c "" ->
  (if negb (String.eqb (sub matches i) "") then fst (strconv.Atoi (sub matches i))
   else 1%Z) = stored_count c.
Proof.
  intros O ->. destruct c as [d|]; simpl; [|reflexivity].
  destruct O as (n & Hn). destruct (digits_all_in d n Hn) as [_ Ne].
  destruct (String.eqb d "") eqn:E; [apply String.eqb_eq in E; contradiction|].
  simpl. rewrite (Atoi_digits d n Hn), Hn. reflexivity.
Qed.

(** C7, as the code has it: for a header line of the form
    [@@ -<n>[,<m>] +<n>[,<m>] @@<rest>], [parseHunk] returns a hunk whose
    [OldLines] (and likewise [NewLines]) is 1 when the count of that side is
    omitted, and the count given when it is present and at most the largest
    [int]; a larger count is stored as the largest [int]. *)
Theorem header_counts (fuel : nat) (p : diffParser) (d1 : string)
        (c1 : option string) (d3 : string) (c2 : option string)
        (trailing : string) (n1 n3 : Z) :
  at_end p = false ->
  List.length (rest p) <= fuel ->
  cur_line p = header_text d1 c1 d3 c2 trailing ->
  strconv.digits d1 = Some n1 -> strconv.digits d3 = Some n3 ->
  count_ok c1 -> count_ok c2 -> no_newline trailing = true ->
  exists h p',
    parseHunk fuel p = Some (Some h, p') /\
    OldLines h = stored_count c1 /\ NewLines h = stored_count c2 /\
    (c1 = None -> OldLines h = 1%Z) /\
    (c2 = None -> NewLines h = 1%Z) /\
    (forall d n, c1 = Some d -> strconv.digits d = Some n ->
                 (n <= GoInt.maxInt)%Z -> OldLines h = n) /\
    (forall d n, c2 = Some d -> strconv.digits d = Some n ->
                 (n <= GoInt.maxInt)%Z -> NewLines h = n).
Proof.
  intros E Hf Hl D1 D3 O1 O2 HT.
  destruct (digits_all_in d1 n1 D1) as [A1 N1].
  destruct (digits_all_in d3 n3 D3) as [A3 N3].
  pose proof (hunkRe_submatches d1 c1 d3 c2 trailing A1 N1 A3 N3 O1 O2 HT) as M.
  rewrite parseHunk_spec by assumption.
  unfold hunk_of. rewrite Hl, M. cbn [List.length Nat.ltb Nat.leb].
  eexists _, _. split; [reflexivity|]. cbn [OldLines NewLines].
  assert (EO : header_OldLines
                 [header_text d1 c1 d3 c2 trailing; d1; or_default c1 ""; d3;
                  or_default c2 ""; trailing] = stored_count c1)
    by (apply stored_count_spec; [exact O1|reflexivity]).
  assert (EN : header_NewLines
                 [header_text d1 c1 d3 c2 trailing; d1; or_default c1 ""; d3;
                  or_default c2 ""; trailing] = stored_count c2)
    by (apply stored_count_spec; [exact O2|reflexivity]).
  rewrite EO, EN.
  split; [reflexivity|]. split; [reflexivity|].
  split; [now intros ->|]. split; [now intros ->|].
  split; intros d n -> Hd Hn; simpl; rewrite Hd; lia.
Qed.

Lemma header_counts_witness :
  exists h p',
    parseHunk 4 (mkParser (strings.Split blank_in_hunk) 1) = Some (Some h, p') /\
    OldLines h = 1%Z /\ NewLines h = 2%Z.
Proof.
  destruct (header_counts 4 (mkParser (strings.Split blank_in_hunk) 1)
              "1" None "1" (Some "2") "" 1 1)
    as (h & p' & Hp & _ & _ & HO & _ & _ & HN).
  - vm_compute. reflexivity.
  - vm_compute. lia.
  - vm_compute. reflexivity.
  - reflexivity.
  - reflexivity.
  - exact I.
  - exists 2%Z. reflexivity.
  - reflexivity.
  - exists h, p'. split; [exact Hp|]. split; [now apply HO|].
    apply (HN "2" 2%Z); [reflexivity|reflexivity|]. vm_compute. discriminate.
Defined.

(** The claim as the specification words it fails on a count beyond the
    largest [int]: it is not stored as given. *)
Lemma header_counts_counterexample :
  exists f h,
    parseDiff huge_count = Some ([f], false) /\ Hunks f = [h] /\
    Header h = header_text "1" (Some "99999999999999999999") "1" None "" /\
    strconv.digits "99999999999999999999" = Some 99999999999999999999%Z /\
    OldLines h = 9223372036854775807%Z /\
    OldLines h <> 99999999999999999999%Z.
Proof.
  exists (mkFileDiff "x" "x" FileStatusModified 1 0 false
            [mkHunk 1 9223372036854775807 1 1 "@@ -1,99999999999999999999 +1 @@"
               [mkLine LineTypeAdded "a" None (Some 1%Z)]]).
  eexists. split; [vm_compute; reflexivity|]. split; [reflexivity|].
  split; [reflexivity|]. split; [reflexivity|]. split; [reflexivity|discriminate].
Qed.

(** ** Marker lines *)

Lemma HasPrefix_nil (s : string) : strings.HasPrefix s "" = true.
Proof. reflexivity. Qed.

Lemma HasPrefix_empty (a : ascii) (prefix : string) :
  strings.HasPrefix "" (String a prefix) = false.
Proof. reflexivity. Qed.

Lemma lower_not_space (b : ascii) : lower b = true -> Ascii.eqb b " " = false.
Proof.
  intros H. destruct (Ascii.eqb b " ") eqn:E; [|reflexivity].
  apply Ascii.eqb_eq in E. subst b. discriminate H.
Qed.

Lemma side_fail {R : Type} (s : string) (caps : list string)
      (k : string -> list string -> option R) :
  side_here s = false ->
  rmatch (Lit " " +++ Class lower +++ Lit "/" +++ Group 2 (Plus dot)) s caps k = None.
Proof.
  intros H.
  destruct s as [|sp [|c [|sl [|x s4]]]]; cbn [rmatch];
    rewrite ?HasPrefix_cons, ?HasPrefix_nil, ?HasPrefix_empty, ?andb_true_r;
    try reflexivity.
  - destruct (Ascii.eqb sp " "); reflexivity.
  - destruct (Ascii.eqb sp " "); [|reflexivity]. simpl.
    destruct (lower c); reflexivity.
  - destruct (Ascii.eqb sp " "); [|reflexivity]. simpl.
    destruct (lower c); [|reflexivity].
    rewrite ?HasPrefix_cons, ?HasPrefix_nil.
    destruct (Ascii.eqb sl "/"); reflexivity.
  - simpl in H.
    destruct (Ascii.eqb sp " "); [|reflexivity]. simpl.
    destruct (lower c); [|reflexivity].
    rewrite ?HasPrefix_cons, ?HasPrefix_nil.
    destruct (Ascii.eqb sl "/"); [|reflexivity]. simpl.
    simpl in H. now rewrite H.
Qed.

Lemma has_side_marker_suffix (s : string) :
  has_side_marker s = false ->
  forall a b, s = (a ++ b)%string -> side_here b = false.
Proof.
  induction s as [|c s IH]; intros H a b E.
  - destruct a; [|discriminate]. simpl in E. now subst b.
  - cbn [has_side_marker] in H. apply orb_false_elim in H. destruct H as [H1 H2].
    destruct a as [|c' a]; simpl in E.
    + now subst b.
    + injection E as _ E. now apply (IH H2 a b).
Qed.

Section MarkerMatch.
Variables (a : ascii) (old : string) (b : ascii) (new : string).
Hypotheses (La : lower a = true) (Lb : lower b = true)
           (Aold : no_newline old = true) (Nold : old <> "")
           (Anew : no_newline new = true) (Nnew : new <> "")
           (Unamb : has_side_marker new = false).

(** The submatches of a marker line: with no further side prefix in the new
    path, the split is the one the line was built from. *)
Lemma diffGitRe_submatches :
  FindStringSubmatch diffGitRe 2 (marker_line a old b new)
  = [marker_line a old b new; old; new].
Proof.
  apply FindStringSubmatch_here. unfold match_here, diffGitRe, marker_line.
  rewrite rmatch_Seq, rmatch_Lit_app, rmatch_Seq, rmatch_Class_cons, La.
  rewrite rmatch_Seq, rmatch_Lit_app, rmatch_Seq.
  erewrite (rmatch_Group_Plus_last 1 dot old); [reflexivity|exact Aold|exact Nold| |].
  - intros a' b' caps' E Ha.
    apply side_fail.
    destruct a' as [|x1 a']; [contradiction|]. simpl in E. injection E as _ E.
    destruct a' as [|x2 a']; simpl in E.
    { subst b'. destruct new as [|x [|y n']]; simpl;
        rewrite ?(lower_not_space b Lb); reflexivity. }
    injection E as _ E.
    destruct a' as [|x3 a']; simpl in E.
    { subst b'. destruct new as [|x [|y [|z n']]]; reflexivity. }
    injection E as _ E.
    now apply (has_side_marker_suffix new Unamb a' b').
  - rewrite rmatch_Seq, rmatch_Lit_app, rmatch_Seq, rmatch_Class_cons, Lb.
    rewrite rmatch_Seq, rmatch_Lit_app.
    erewrite (rmatch_Group_Plus_all 2 dot new); [reflexivity|exact Anew|exact Nnew|].
    rewrite consumed_all. reflexivity.
Qed.

End MarkerMatch.

Lemma Split_no_newline (s : string) :
  Forall (fun l => no_newline l = true) (strings.Split s).
Proof.
  induction s as [|c s IH]; simpl; [repeat constructor|].
  destruct (Ascii.eqb c strings.newline) eqn:E.
  - constructor; [reflexivity | exact IH].
  - destruct (strings.Split s) as [|l ls]; [repeat constructor; simpl|].
    + unfold no_newline. simpl. unfold dot. now rewrite E.
    + inversion IH as [|? ? Hl Hls]; subst. constructor; [|exact Hls].
      unfold no_newline in *. simpl. unfold dot at 1. now rewrite E.
Qed.

Lemma all_in_app (f : ascii -> bool) (s t : string) :
  all_in f (s ++ t) = all_in f s && all_in f t.
Proof.
  induction s as [|c s IH]; simpl; [reflexivity|]. now rewrite IH, andb_assoc.
Qed.

Lemma marker_line_no_newline (a : ascii) (old : string) (b : ascii) (new : string) :
  no_newline (marker_line a old b new) = true ->
  no_newline old = true /\ no_newline new = true.
Proof.
  unfold no_newline, marker_line.
  rewrite all_in_app. cbn [all_in append]. rewrite all_in_app. cbn [all_in append].
  intros H. repeat (apply andb_prop in H; destruct H as [? H]).
  repeat match goal with
         | X : _ && _ = true |- _ => apply andb_prop in X; destruct X
         end.
  now split.
Qed.


Lemma same_but_paths_scan (body : list string) :
  forall b f g, same_but_paths f g -> same_but_paths (scan body b f) (scan body b g).
Proof.
  induction body as [|l body IH]; intros b f g H; simpl; [exact H|].
  destruct (strings.HasPrefix l "@@").
  - destruct (hunk_of l body) as [h|]; [|now apply IH].
    apply IH. destruct H as (? & ? & ? & ? & E). unfold same_but_paths; simpl.
    now rewrite E.
  - destruct b; [now apply IH|]. apply IH.
    destruct H as (? & ? & ? & ? & ?). unfold apply_marker.
    repeat match goal with |- context [if ?c then _ else _] => destruct c end;
      repeat split; simpl; assumption.
Qed.

Lemma same_but_paths_tally_lines (ls : list Line) :
  forall f g,
    same_but_paths f g ->
    same_but_paths (fold_left tally_line ls f) (fold_left tally_line ls g).
Proof.
  induction ls as [|l ls IH]; intros f g H; simpl; [exact H|].
  apply IH. destruct H as (? & EA & ED & ? & ?). unfold tally_line.
  destruct (Type_ l); repeat split; simpl; try assumption;
    [now rewrite EA | now rewrite ED].
Qed.

Lemma same_but_paths_tally_hunks (hs : list Hunk) :
  forall f g,
    same_but_paths f g ->
    same_but_paths (fold_left tally_hunk hs f) (fold_left tally_hunk hs g).
Proof.
  induction hs as [|h hs IH]; intros f g H; simpl; [exact H|].
  apply IH. now apply same_but_paths_tally_lines.
Qed.

Lemma same_but_paths_file_of_section (marker marker' : string) (body : list string) :
  same_but_paths (file_of_section (marker, body)) (file_of_section (marker', body)).
Proof.
  unfold file_of_section. simpl.
  assert (H0 : same_but_paths (marker_paths marker emptyFileDiff)
                              (marker_paths marker' emptyFileDiff)).
  { unfold marker_paths.
    destruct (_ <=? _)%nat; destruct (_ <=? _)%nat; repeat split. }
  apply (same_but_paths_scan body false) in H0.
  set (f := scan body false (marker_paths marker emptyFileDiff)) in *.
  set (g := scan body false (marker_paths marker' emptyFileDiff)) in *.
  assert (H1 : same_but_paths (default_Status f) (default_Status g)).
  { destruct H0 as (ES & ? & ? & ? & ?). unfold default_Status. rewrite ES.
    destruct (FileStatus_eqb (Status g) FileStatusUnset); repeat split; assumption. }
  unfold tally. destruct H1 as (? & ? & ? & ? & EH). rewrite EH.
  apply same_but_paths_tally_hunks. repeat split; assumption.
Qed.

Lemma file_of_section_paths (marker : string) (body : list string) :
  Path (file_of_section (marker, body)) = Path (marker_paths marker emptyFileDiff) /\
  OldPath (file_of_section (marker, body))
  = or_default (last_of marker_old_path (seen_lines body false))
               (OldPath (marker_paths marker emptyFileDiff)).
Proof.
  unfold file_of_section. simpl.
  set (f0 := marker_paths marker emptyFileDiff).
  destruct (tally_fields (default_Status (scan body false f0)))
    as (_ & -> & -> & _).
  destruct (default_Status_fields (scan body false f0)) as (_ & _ & _ & -> & -> & _).
  destruct (scan_counters body false f0) as (_ & _ & ->).
  split; [reflexivity | apply scan_last_marker].
Qed.

Lemma last_of_none {A : Type} (g : string -> option A) (ls : list string) :
  (forall l, In l ls -> g l = None) -> last_of g ls = None.
Proof.
  induction ls as [|l ls IH]; intros H; simpl; [reflexivity|].
  rewrite IH by (intros l' Hl; apply H; now right).
  apply H. now left.
Qed.

Lemma seen_lines_In (body : list string) :
  forall b l, In l (seen_lines body b) -> In l body.
Proof.
  induction body as [|x body IH]; intros b l; simpl; [tauto|].
  destruct (strings.HasPrefix x "@@").
  - destruct (valid_header x); simpl; [right; eauto|].
    intros [<-|H]; [now left | right; eauto].
  - destruct b; simpl; [right; eauto|].
    intros [<-|H]; [now left | right; eauto].
Qed.

(** C8, as the code has it: for the section of a marker line, when the line
    is ["diff --git <a>/<old> <b>/<new>"] with lower-case letters [<a>] and
    [<b>], nonempty paths, and no further side prefix (a space, a lower-case
    letter, a slash and one more byte) inside [<new>], the file has
    [Path = <new>], and [OldPath = <old>] unless a ["rename from"] line that
    the scan of the section dispatches on overwrites it; when the pattern
    matches nowhere in the line, [Path] is empty, and [OldPath] is empty
    unless such a line overwrites it; and in every case the rest of the
    section is parsed all the same: a section with the same body under any
    other marker line gives the same status, binary flag, hunks and
    counts. *)
Theorem marker_line_paths (diff : string) (i : nat) (marker : string)
        (body : list string) :
  nth_error (sections (strings.Split diff)) i = Some (marker, body) ->
  exists files f,
    parseDiff diff = Some (files, false) /\
    nth_error files i = Some f /\
    (forall a old b new,
        marker = marker_line a old b new ->
        lower a = true -> lower b = true -> old <> "" -> new <> "" ->
        has_side_marker new = false ->
        Path f = new /\
        OldPath f = or_default (last_of marker_old_path (seen_lines body false)) old /\
        ((forall l, In l body -> strings.HasPrefix l "rename from" = false) ->
         OldPath f = old)) /\
    (FindStringSubmatch diffGitRe 2 marker = [] ->
     Path f = "" /\
     OldPath f = or_default (last_of marker_old_path (seen_lines body false)) "" /\
     ((forall l, In l body -> strings.HasPrefix l "rename from" = false) ->
      OldPath f = "")) /\
    (forall diff' j marker',
        nth_error (sections (strings.Split diff')) j = Some (marker', body) ->
        exists files' f',
          parseDiff diff' = Some (files', false) /\
          nth_error files' j = Some f' /\
          same_but_paths f f').
Proof.
  intros Hsec.
  destruct (parseDiff_nth diff i _ Hsec) as (files & Hp & Hn).
  exists files, (file_of_section (marker, body)).
  split; [exact Hp|]. split; [exact Hn|].
  destruct (file_of_section_paths marker body) as [EP EO].
  assert (NoRename : (forall l, In l body -> strings.HasPrefix l "rename from" = false) ->
                     last_of marker_old_path (seen_lines body false) = None).
  { intros H. apply last_of_none. intros l Hl. apply seen_lines_In in Hl.
    unfold marker_old_path. rewrite (H l Hl).
    destruct (strings.HasPrefix l "new file"); [reflexivity|].
    destruct (strings.HasPrefix l "deleted file"); reflexivity. }
  split; [|split].
  - intros a old b new -> La Lb No Nn U.
    assert (NL : no_newline (marker_line a old b new) = true).
    { apply nth_error_In in Hsec. apply sections_In in Hsec.
      destruct Hsec as (pre & post & E & _). simpl in E.
      pose proof (Split_no_newline diff) as F. rewrite E in F.
      rewrite Forall_forall in F. apply F. apply in_or_app. right. now left. }
    destruct (marker_line_no_newline _ _ _ _ NL) as [Ao An].
    assert (M : marker_paths (marker_line a old b new) emptyFileDiff
                = set_Paths old new emptyFileDiff).
    { unfold marker_paths. now rewrite diffGitRe_submatches. }
    rewrite M in EP, EO. simpl in EP, EO.
    split; [exact EP|]. split; [exact EO|].
    intros H. rewrite EO, (NoRename H). reflexivity.
  - intros M.
    assert (M' : marker_paths marker emptyFileDiff = emptyFileDiff)
      by (unfold marker_paths; now rewrite M).
    rewrite M' in EP, EO. simpl in EP, EO.
    split; [exact EP|]. split; [exact EO|].
    intros H. rewrite EO, (NoRename H). reflexivity.
  - intros diff' j marker' Hsec'.
    destruct (parseDiff_nth diff' j _ Hsec') as (files' & Hp' & Hn').
    exists files', (file_of_section (marker', body)).
    split; [exact Hp'|]. split; [exact Hn'|].
    apply same_but_paths_file_of_section.
Qed.

Lemma marker_line_paths_witness :
  exists files f,
    parseDiff renamed_section = Some (files, false) /\
    nth_error files 0 = Some f /\
    Path f = "y" /\ OldPath f = "z".
Proof.
  destruct (marker_line_paths renamed_section 0 (marker_line "a" "x" "b" "y")
              ["rename from z"; "rename to y"])
    as (files & f & H1 & H2 & H3 & _).
  - vm_compute. reflexivity.
  - exists files, f. split; [exact H1|]. split; [exact H2|].
    destruct (H3 "a"%char "x" "b"%char "y") as (HP & HO & _);
      try reflexivity; try discriminate.
    split; [exact HP | exact HO].
Defined.

(** The claim as the specification words it fails three ways: a
    ["rename from"] line overwrites the old path of a matching marker line;
    it fills the old path after a marker line that does not match; and a
    marker line that reads as [a/x] and [b/y b/z] is split at its last side
    prefix. *)
Lemma marker_line_paths_counterexample :
  exists f g h,
    parseDiff renamed_section = Some ([f], false) /\
    sections (strings.Split renamed_section)
    = [(marker_line "a" "x" "b" "y", ["rename from z"; "rename to y"])] /\
    OldPath f = "z" /\ OldPath f <> "x" /\
    parseDiff unmatched_marker = Some ([g], false) /\
    FindStringSubmatch diffGitRe 2 "diff --git" = [] /\
    OldPath g = "z" /\ OldPath g <> "" /\
    parseDiff ambiguous_marker = Some ([h], false) /\
    ambiguous_marker = marker_line "a" "x" "b" "y b/z" /\
    OldPath h = "x b/y" /\ Path h = "z" /\ OldPath h <> "x".
Proof.
  exists (mkFileDiff "y" "z" FileStatusRenamed 0 0 false []).
  exists (mkFileDiff "" "z" FileStatusRenamed 0 0 false []).
  exists (mkFileDiff "z" "x b/y" FileStatusModified 0 0 false []).
  repeat split; try (vm_compute; reflexivity); discriminate.
Qed.

(** ** Termination and forward progress *)

Lemma section_body_bound (p : diffParser) :
  at_end p = false ->
  current p + S (List.length (section_body (rest (advance p))))
  <= List.length (lines p).
Proof.
  intros E. pose proof (takeWhile_length in_section (rest (advance p))) as T.
  fold (section_body (rest (advance p))) in T.
  unfold rest in T at 2. rewrite length_skipn in T. simpl in T.
  unfold at_end in E. rewrite negb_false_iff, Nat.ltb_lt in E. lia.
Qed.

Lemma failed_header_skipped (fuel : nat) (p : diffParser) (file : FileDiff) :
  at_end p = false ->
  strings.HasPrefix (cur_line p) "@@" = true ->
  valid_header (cur_line p) = false ->
  parseHunk fuel p = Some (None, p) /\
  parseFile_loop (S fuel) p file = parseFile_loop fuel (advance p) file.
Proof.
  intros E A V.
  assert (H : parseHunk fuel p = Some (None, p)).
  { unfold parseHunk. unfold valid_header in V. rewrite negb_false_iff in V.
    now rewrite V. }
  split; [exact H|].
  pose proof (at_prefix_in_section _ A) as D. unfold in_section in D.
  rewrite negb_true_iff in D.
  simpl. rewrite E, D. simpl.
  destruct (at_prefix_no_marker _ A) as (-> & -> & -> & ->).
  now rewrite A, H.
Qed.

(** C6, as the code has it: for every input the parse terminates and
    returns files and no error, whatever the fuel beyond the number of
    lines; from every line, parsing a file section moves the cursor strictly
    forward and stays within the text; a line starting with ["@@"] that
    fails the header pattern produces no hunk, the cursor staying on it in
    [parseHunk] and the scan of the section resuming at the next line; a
    section in which no line starting with ["@@"] matches the pattern gets a
    file without hunks, the parse going on with the sections after it; and a
    section whose marker line does not match the path pattern is not
    skipped: it gets its file all the same, with an empty [Path], and with
    the status, binary flag, hunks and counts that its body gives under any
    other marker line. *)
Theorem parse_terminates (diff : string) :
  exists files,
    parseDiff diff = Some (files, false) /\
    (forall fuel,
        List.length (strings.Split diff) < fuel ->
        parse fuel (newDiffParser diff) = Some (files, false)) /\
    (forall c fuel,
        c < List.length (strings.Split diff) ->
        List.length (strings.Split diff) - c <= fuel ->
        let p := mkParser (strings.Split diff) c in
        (exists f p',
            parseFile fuel p = Some (f, p') /\
            c < current p' <= List.length (strings.Split diff)) /\
        (strings.HasPrefix (cur_line p) "@@" = true ->
         valid_header (cur_line p) = false ->
         parseHunk fuel p = Some (None, p) /\
         forall file,
           parseFile_loop (S fuel) p file = parseFile_loop fuel (advance p) file)) /\
    List.length files = List.length (sections (strings.Split diff)) /\
    (forall i marker body,
        nth_error (sections (strings.Split diff)) i = Some (marker, body) ->
        (forall l, In l body -> strings.HasPrefix l "@@" = true ->
                   valid_header l = false) ->
        exists f, nth_error files i = Some f /\ Hunks f = []) /\
    (forall i marker body,
        nth_error (sections (strings.Split diff)) i = Some (marker, body) ->
        FindStringSubmatch diffGitRe 2 marker = [] ->
        exists f,
          nth_error files i = Some f /\ Path f = ""%string /\
          forall diff' j marker',
            nth_error (sections (strings.Split diff')) j = Some (marker', body) ->
            exists files' f',
              parseDiff diff' = Some (files', false) /\
              nth_error files' j = Some f' /\
              same_but_paths f f').
Proof.
  exists (map file_of_section (sections (strings.Split diff))).
  split; [apply parseDiff_spec|]. split; [|split; [|split; [|split]]].
  - intros fuel Hf. rewrite parse_spec; [reflexivity|].
    unfold newDiffParser, rest. simpl. exact Hf.
  - intros c fuel Hc Hf p.
    assert (E : at_end p = false).
    { unfold at_end, p. simpl. rewrite negb_false_iff, Nat.ltb_lt. exact Hc. }
    split.
    + rewrite parseFile_spec; [|unfold rest, p; simpl; rewrite length_skipn; lia|exact E].
      eexists _, _. split; [reflexivity|].
      pose proof (section_body_bound p E) as B. unfold jump, p in *; simpl in *. lia.
    + intros A V. split; [|intros file].
      * exact (proj1 (failed_header_skipped fuel p emptyFileDiff E A V)).
      * exact (proj2 (failed_header_skipped fuel p file E A V)).
  - apply length_map.
  - intros i marker body Hsec Hv.
    exists (file_of_section (marker, body)). split.
    + rewrite nth_error_map, Hsec. reflexivity.
    + rewrite file_of_section_Hunks. simpl.
      apply (scan_without_hunks body Hv emptyFileDiff).
  - intros i marker body Hsec Hm.
    exists (file_of_section (marker, body)). split; [|split].
    + rewrite nth_error_map, Hsec. reflexivity.
    + rewrite (proj1 (file_of_section_paths marker body)).
      unfold marker_paths. now rewrite Hm.
    + intros diff' j marker' Hsec'.
      exists (map file_of_section (sections (strings.Split diff'))),
             (file_of_section (marker', body)).
      split; [apply parseDiff_spec|]. split.
      * rewrite nth_error_map, Hsec'. reflexivity.
      * apply same_but_paths_file_of_section.
Qed.

Lemma parse_terminates_witness :
  exists files,
    parseDiff bogus_header = Some (files, false) /\
    parse 4 (newDiffParser bogus_header) = Some (files, false) /\
    parseHunk 2 (mkParser (strings.Split bogus_header) 1)
    = Some (None, mkParser (strings.Split bogus_header) 1) /\
    exists f, nth_error files 0 = Some f /\ Hunks f = [].
Proof.
  destruct (parse_terminates bogus_header) as (files & H1 & H2 & H3 & _ & H4 & _).
  exists files. split; [exact H1|]. split; [|split].
  - apply H2. vm_compute. lia.
  - refine (proj1 (proj2 (H3 1 2 _ _) _ _)).
    + vm_compute. lia.
    + vm_compute. lia.
    + vm_compute. reflexivity.
    + vm_compute. reflexivity.
  - apply (H4 0 "diff --git a/x b/x" ["@@ bogus"; "+a"]).
    + vm_compute. reflexivity.
    + intros l [<-|[<-|[]]] H; [vm_compute; reflexivity | discriminate H].
Defined.

(** The claim as the specification words it fails: the marker line of the
    section below does not match the path pattern, and the section is not
    skipped: the parser returns a file for it, with empty paths, and with
    the hunk of the section. *)
Lemma parse_terminates_counterexample :
  FindStringSubmatch diffGitRe 2 "diff --git x y" = [] /\
  sections (strings.Split malformed_section)
  = [("diff --git x y"%string, ["@@ -1 +1 @@"; "+a"]%string)] /\
  parseDiff malformed_section
  = Some ([mkFileDiff "" "" FileStatusModified 1 0 false
             [mkHunk 1 1 1 1 "@@ -1 +1 @@"
                     [mkLine LineTypeAdded "a" None (Some 1%Z)]]],
          false).
Proof. split; [|split]; vm_compute; reflexivity. Qed.

(** ** Untracked files *)

Lemma Split_length (s : string) :
  List.length (strings.Split s) = S (line_feeds s).
Proof.
  induction s as [|c s IH]; simpl; [reflexivity|].
  destruct (Ascii.eqb c strings.newline); simpl; [now rewrite IH|].
  destruct (strings.Split s) as [|l ls]; [discriminate|]. exact IH.
Qed.

Lemma untracked_lines_length (ls : list string) :
  forall i, List.length (untracked_lines i ls) = List.length ls.
Proof.
  induction ls as [|l ls IH]; intros i; simpl; [reflexivity|]. now rewrite IH.
Qed.

Lemma untracked_lines_nth (ls : list string) :
  forall i0 i line,
    nth_error ls i = Some line ->
    nth_error (untracked_lines i0 ls) i
    = Some (mkLine LineTypeAdded line None
                   (Some (GoInt.wrap (Z.of_nat (i0 + i) + 1)))).
Proof.
  induction ls as [|l ls IH]; intros i0 i line; [destruct i; discriminate|].
  destruct i as [|i]; simpl.
  - intros H; injection H as ->. now rewrite Nat.add_0_r.
  - intros H. rewrite (IH (S i0) i line H).
    replace (S i0 + i) with (i0 + S i) by lia. reflexivity.
Qed.

Lemma untracked_lines_Added (ls : list string) :
  forall i0,
    Forall (fun l => Type_ l = LineTypeAdded /\ OldNumber l = None)
           (untracked_lines i0 ls).
Proof.
  induction ls as [|l ls IH]; intros i0; simpl; constructor;
    [now split | apply IH].
Qed.

Lemma untracked_lines_new_numbers (ls : list string) :
  forall i0,
    (Z.of_nat (i0 + List.length ls) <= GoInt.maxInt)%Z ->
    new_numbers (untracked_lines i0 ls)
    = consecutive (Z.of_nat i0 + 1) (List.length ls).
Proof.
  unfold new_numbers, consecutive.
  induction ls as [|l ls IH]; intros i0 H; [reflexivity|].
  simpl in *. pose proof minInt_neg.
  rewrite wrap_in_range by lia. rewrite Z.add_0_r. f_equal.
  rewrite IH by lia.
  rewrite <- seq_shift, map_map. apply map_ext. intros i. lia.
Qed.

Lemma terminated_cons (c : ascii) (s : string) :
  terminated (String c s) = true -> terminated s = true.
Proof. destruct s; [reflexivity|]. simpl. auto. Qed.

(** After a final line feed [strings.Split] has one more piece, which is
    empty. *)
Lemma Split_terminated (s : string) :
  terminated s = true ->
  nth_error (strings.Split s) (line_feeds s) = Some ""%string /\
  (s <> ""%string -> 0 < line_feeds s).
Proof.
  induction s as [|c s IH]; intros T; [split; [reflexivity|congruence]|].
  pose proof (terminated_cons c s T) as T'. destruct (IH T') as [IHn IHp].
  cbn [strings.Split line_feeds].
  destruct (Ascii.eqb c strings.newline) eqn:E.
  - split; [exact IHn | intros _; lia].
  - destruct s as [|c' s']; [simpl in T; congruence|].
    assert (P : 0 < line_feeds (String c' s')) by (apply IHp; discriminate).
    rewrite Nat.add_0_l. split; [|intros _; exact P].
    destruct (strings.Split (String c' s')) as [|l ls];
      [destruct (line_feeds (String c' s')); discriminate IHn|].
    destruct (line_feeds (String c' s')) as [|k]; [lia|]. exact IHn.
Qed.

(** C9, as the code has it: for an untracked file that can be read, the
    file returned has status Added, no deletions, is not binary, and has
    exactly one hunk, with [OldStart = 0], [OldLines = 0], [NewStart = 1]
    and the header ["@@ -0,0 +1,<N> @@"]; its additions, its [NewLines] and
    the number of its lines are [N], the lines being the pieces of the
    content between line feeds, all Added, with new numbers 1 to [N] and no
    old number.  [N] is the number of lines of the file only for a content
    that is not empty and does not end in a line feed; for an empty content,
    and for a content whose last line is closed by a line feed, [N] is one
    more than the number of lines of the file, the last line returned being
    an empty line that the file does not have. *)
Theorem untracked_file_diff (ReadFile : string -> option string)
        (filepath content : string) (contextLines : Z) :
  ReadFile filepath = Some content ->
  is_len (List.length (strings.Split content)) ->
  exists f h N,
    getUntrackedFileDiff ReadFile filepath contextLines = Some f /\
    N = List.length (strings.Split content) /\ N = S (line_feeds content) /\
    Path f = filepath /\ Status f = FileStatusAdded /\
    Additions f = Z.of_nat N /\ Deletions f = 0%Z /\ IsBinary f = false /\
    Hunks f = [h] /\
    OldStart h = 0%Z /\ OldLines h = 0%Z /\ NewStart h = 1%Z /\
    NewLines h = Z.of_nat N /\
    Header h = ("@@ -0,0 +1," ++ strconv.Itoa (Z.of_nat N) ++ " @@")%string /\
    List.length (Lines h) = N /\
    (forall i line,
        nth_error (strings.Split content) i = Some line ->
        nth_error (Lines h) i
        = Some (mkLine LineTypeAdded line None (Some (Z.of_nat i + 1)%Z))) /\
    Forall (fun l => Type_ l = LineTypeAdded /\ OldNumber l = None) (Lines h) /\
    new_numbers (Lines h) = consecutive 1 N /\
    (terminated content = false -> N = file_lines content) /\
    (terminated content = true ->
     N = S (file_lines content) /\
     nth_error (Lines h) (file_lines content)
     = Some (mkLine LineTypeAdded "" None (Some (Z.of_nat N)))).
Proof.
  intros HR HL. unfold getUntrackedFileDiff. rewrite HR.
  eexists _, _, _. split; [reflexivity|]. cbn -[strings.Split strconv.Itoa].
  assert (Nth : forall i line,
             nth_error (strings.Split content) i = Some line ->
             nth_error (untracked_lines 0 (strings.Split content)) i
             = Some (mkLine LineTypeAdded line None (Some (Z.of_nat i + 1)%Z))).
  { intros i line H. rewrite (untracked_lines_nth _ 0 i line H), Nat.add_0_l.
    rewrite wrap_in_range; [reflexivity|].
    assert (i < List.length (strings.Split content))
      by (apply nth_error_Some; congruence).
    pose proof minInt_neg. unfold is_len in HL. lia. }
  pose proof (Split_length content) as SL.
  pose proof (untracked_lines_length (strings.Split content) 0) as UL.
  pose proof (untracked_lines_Added (strings.Split content) 0) as UA.
  pose proof (untracked_lines_new_numbers (strings.Split content) 0 HL) as UN.
  repeat (split; [first [reflexivity | assumption]|]).
  unfold file_lines. split; intros T; rewrite T; cbv iota; [exact SL|].
  split; [exact SL|]. cbn [Lines].
  rewrite (Nth _ _ (proj1 (Split_terminated content T))), SL.
  do 3 f_equal. lia.
Qed.

Lemma untracked_file_diff_witness :
  exists f h,
    file_lines five_lines_terminated = 5 /\
    getUntrackedFileDiff (one_file "new.txt" five_lines_terminated) "new.txt" 3
    = Some f /\
    Hunks f = [h] /\ Additions f = 6%Z /\ NewLines h = 6%Z /\
    Header h = "@@ -0,0 +1,6 @@"%string /\
    new_numbers (Lines h) = [1; 2; 3; 4; 5; 6]%Z /\
    nth_error (Lines h) 5 = Some (mkLine LineTypeAdded "" None (Some 6%Z)).
Proof.
  destruct (untracked_file_diff (one_file "new.txt" five_lines_terminated)
              "new.txt" five_lines_terminated 3)
    as (f & h & N & H1 & HN & _ & _ & _ & HA & _ & _ & HH & _ & _ & _ & HL & HD
        & _ & _ & _ & HC & _ & HT).
  - reflexivity.
  - unfold is_len. vm_compute. discriminate.
  - exists f, h. split; [reflexivity|]. split; [exact H1|]. split; [exact HH|].
    assert (E : N = 6) by (rewrite HN; vm_compute; reflexivity).
    rewrite E in *. split; [exact HA|]. split; [exact HL|].
    split; [exact HD|]. split; [exact HC|].
    exact (proj2 (HT eq_refl)).
Defined.

(** * Further properties of the parser and of the service

    ** The lines of the text *)

Lemma Split_nonempty (s : string) : strings.Split s <> [].
Proof.
  destruct s as [|c s]; simpl; [discriminate|].
  destruct (Ascii.eqb c strings.newline); [discriminate|].
  destruct (strings.Split s); discriminate.
Qed.

Lemma Join_cons (l : string) (ls : list string) :
  ls <> [] ->
  strings.Join (l :: ls) = (l ++ String strings.newline (strings.Join ls))%string.
Proof. destruct ls; [contradiction | reflexivity]. Qed.

Lemma Join_Split (s : string) : strings.Join (strings.Split s) = s.
Proof.
  induction s as [|c s IH]; [reflexivity|].
  simpl. destruct (Ascii.eqb c strings.newline) eqn:E.
  - apply Ascii.eqb_eq in E. subst c.
    rewrite Join_cons by apply Split_nonempty. simpl. now rewrite IH.
  - pose proof (Split_nonempty s) as N.
    destruct (strings.Split s) as [|l ls]; [contradiction|].
    destruct ls as [|l' ls].
    + simpl in *. now rewrite IH.
    + change (strings.Join (String c l :: l' :: ls))
        with (String c (strings.Join (l :: l' :: ls))).
      now rewrite IH.
Qed.

Lemma Split_no_newline_line (l : string) :
  no_newline l = true -> strings.Split l = [l].
Proof.
  unfold no_newline. induction l as [|c l IH]; [reflexivity|].
  simpl. intros H. apply andb_prop in H. destruct H as [Hc Hl].
  unfold dot in Hc. rewrite negb_true_iff in Hc. rewrite Hc.
  now rewrite (IH Hl).
Qed.

Lemma Split_app_newline (l rest : string) :
  no_newline l = true ->
  strings.Split (l ++ String strings.newline rest) = l :: strings.Split rest.
Proof.
  unfold no_newline. induction l as [|c l IH]; simpl; intros H.
  - reflexivity.
  - apply andb_prop in H. destruct H as [Hc Hl].
    unfold dot in Hc. rewrite negb_true_iff in Hc. rewrite Hc.
    now rewrite (IH Hl).
Qed.

Lemma Split_Join (ls : list string) :
  ls <> [] -> Forall (fun l => no_newline l = true) ls ->
  strings.Split (strings.Join ls) = ls.
Proof.
  induction ls as [|l ls IH]; intros N F; [contradiction|].
  inversion F as [|? ? Hl Hls]; subst.
  destruct ls as [|l' ls].
  - simpl. now apply Split_no_newline_line.
  - rewrite Join_cons by discriminate.
    rewrite Split_app_newline by exact Hl. f_equal. apply IH; [discriminate|exact Hls].
Qed.

(** X1: the parser is given the whole text: the lines of [newDiffParser],
    joined by line feeds, are the text again, and none of them holds a line
    feed; conversely a nonempty list of lines without line feed is what
    [newDiffParser] makes of its joined text. *)
Theorem newDiffParser_round_trip (diff : string) :
  strings.Join (lines (newDiffParser diff)) = diff /\
  current (newDiffParser diff) = 0 /\
  Forall (fun l => no_newline l = true) (lines (newDiffParser diff)) /\
  (forall ls,
      ls <> [] -> Forall (fun l => no_newline l = true) ls ->
      lines (newDiffParser (strings.Join ls)) = ls).
Proof.
  split; [apply Join_Split|]. split; [reflexivity|].
  split; [apply Split_no_newline|].
  intros ls N F. now apply Split_Join.
Qed.

Lemma newDiffParser_round_trip_witness :
  lines (newDiffParser (strings.Join ["diff --git a/x b/x"; "@@ -1 +1 @@"; "+a"]))
  = ["diff --git a/x b/x"; "@@ -1 +1 @@"; "+a"].
Proof.
  apply (proj2 (proj2 (proj2 (newDiffParser_round_trip "")))).
  - discriminate.
  - repeat constructor.
Defined.

(** ** Files and marker lines *)

Lemma sections_markers (ls : list string) :
  map fst (sections ls) = filter is_marker ls.
Proof.
  induction ls as [|l ls IH]; [reflexivity|].
  simpl. unfold is_marker at 1.
  destruct (strings.HasPrefix l "diff --git"); simpl; now rewrite IH.
Qed.

Lemma filter_none {A : Type} (f : A -> bool) (l : list A) :
  (forall x, In x l -> f x = false) -> filter f l = [].
Proof.
  induction l as [|x l IH]; intros H; [reflexivity|].
  simpl. rewrite (H x (or_introl eq_refl)). apply IH.
  intros y Hy. apply H. now right.
Qed.

(** X2: the parser returns exactly one file for each line of the text that
    starts with ["diff --git"], in the order of these lines, and the path of
    the [i]-th file is what the [i]-th such line gives; so it returns no
    file exactly when no line starts with ["diff --git"]. *)
Theorem one_file_per_marker (diff : string) :
  exists files,
    parseDiff diff = Some (files, false) /\
    List.length files = List.length (filter is_marker (strings.Split diff)) /\
    (forall i f,
        nth_error files i = Some f ->
        exists marker,
          nth_error (filter is_marker (strings.Split diff)) i = Some marker /\
          Path f = Path (marker_paths marker emptyFileDiff)) /\
    (files = [] <-> forall l, In l (strings.Split diff) -> is_marker l = false).
Proof.
  exists (map file_of_section (sections (strings.Split diff))).
  split; [apply parseDiff_spec|].
  pose proof (sections_markers (strings.Split diff)) as M.
  assert (L : List.length (map file_of_section (sections (strings.Split diff)))
              = List.length (filter is_marker (strings.Split diff)))
    by (rewrite <- M, !length_map; reflexivity).
  split; [exact L|]. split.
  - intros i f H. rewrite nth_error_map in H.
    destruct (nth_error (sections (strings.Split diff)) i) as [[marker body]|] eqn:E;
      [|discriminate].
    injection H as <-. exists marker. split.
    + rewrite <- M, nth_error_map, E. reflexivity.
    + apply file_of_section_paths.
  - split.
    + intros H l Hl. rewrite H in L. simpl in L.
      destruct (is_marker l) eqn:Ml; [|reflexivity].
      assert (Hin : In l (filter is_marker (strings.Split diff)))
        by (apply filter_In; now split).
      destruct (filter is_marker (strings.Split diff)); [destruct Hin|discriminate].
    + intros H.
      assert (F : filter is_marker (strings.Split diff) = [])
        by (apply filter_none; exact H).
      rewrite F in L. simpl in L.
      destruct (map file_of_section (sections (strings.Split diff)));
        [reflexivity|discriminate].
Qed.

Lemma one_file_per_marker_witness :
  exists files,
    parseDiff renamed_section = Some (files, false) /\ List.length files = 1.
Proof.
  destruct (one_file_per_marker renamed_section) as (files & H1 & H2 & _).
  exists files. split; [exact H1|]. rewrite H2. vm_compute. reflexivity.
Defined.

(** ** Texts put together *)

Lemma Split_app (a b : string) :
  strings.Split (a ++ String strings.newline b) = strings.Split a ++ strings.Split b.
Proof.
  induction a as [|c a IH]; [reflexivity|].
  simpl. destruct (Ascii.eqb c strings.newline); [now rewrite IH|].
  rewrite IH. pose proof (Split_nonempty a) as N.
  destruct (strings.Split a); [contradiction|reflexivity].
Qed.

Lemma Split_head_prefix (prefix : string) :
  no_newline prefix = true ->
  forall s,
    strings.HasPrefix s prefix = true ->
    exists l ls, strings.Split s = l :: ls /\ strings.HasPrefix l prefix = true.
Proof.
  unfold no_newline.
  induction prefix as [|a prefix IH]; intros Hp s H.
  - pose proof (Split_nonempty s) as N.
    destruct (strings.Split s) as [|l ls]; [contradiction|]. now exists l, ls.
  - destruct s as [|b s]; [discriminate|].
    rewrite HasPrefix_cons in H. apply andb_prop in H. destruct H as [Hb Hs].
    apply Ascii.eqb_eq in Hb. subst b.
    simpl in Hp. apply andb_prop in Hp. destruct Hp as [Ha Hp].
    destruct (IH Hp s Hs) as (l & ls & E & Hl).
    simpl. unfold dot in Ha. rewrite negb_true_iff in Ha. rewrite Ha, E.
    exists (String a l), ls. split; [reflexivity|].
    now rewrite HasPrefix_cons, Ascii.eqb_refl.
Qed.

Lemma section_body_app_marker (a b : list string) (m : string) :
  is_marker m = true -> section_body (a ++ m :: b) = section_body a.
Proof.
  intros Hm. unfold section_body.
  induction a as [|l a IH]; simpl.
  - unfold in_section. unfold is_marker in Hm. now rewrite Hm.
  - destruct (in_section l); [now rewrite IH | reflexivity].
Qed.

Lemma sections_app (l1 l2 : list string) (m : string) :
  is_marker m = true ->
  sections (l1 ++ m :: l2) = sections l1 ++ sections (m :: l2).
Proof.
  intros Hm. induction l1 as [|l l1 IH]; [reflexivity|].
  cbn [app sections]. rewrite IH.
  destruct (strings.HasPrefix l "diff --git"); [|reflexivity].
  now rewrite (section_body_app_marker l1 l2 m Hm).
Qed.

(** X3: parsing two texts put together, the second starting with a marker
    line and set on a line of its own, gives the files of the first followed
    by the files of the second. *)
Theorem parseDiff_app (d1 d2 : string) (files1 files2 : list FileDiff) :
  parseDiff d1 = Some (files1, false) ->
  parseDiff d2 = Some (files2, false) ->
  strings.HasPrefix d2 "diff --git" = true ->
  parseDiff (d1 ++ String strings.newline d2) = Some (files1 ++ files2, false).
Proof.
  rewrite !parseDiff_spec. intros H1 H2 Hm.
  injection H1 as <-. injection H2 as <-.
  destruct (Split_head_prefix "diff --git" eq_refl d2 Hm) as (m & ls & E & Hl).
  rewrite Split_app, E, (sections_app _ _ _ Hl), map_app. reflexivity.
Qed.

Lemma parseDiff_app_witness :
  parseDiff (scenarioA ++ String strings.newline renamed_section)
  = Some ([scenarioA_file] ++ [mkFileDiff "y" "z" FileStatusRenamed 0 0 false []],
          false).
Proof.
  apply parseDiff_app.
  - vm_compute. reflexivity.
  - vm_compute. reflexivity.
  - reflexivity.
Defined.

(** ** Lines the parser reads nowhere *)

Lemma inert_facts (l : string) :
  inert l = true ->
  stored l = false /\ strings.HasPrefix l "@@" = false /\
  in_section l = true /\ in_body l = true /\
  forall file, apply_marker l file = file.
Proof.
  unfold inert. rewrite !andb_true_iff, !negb_true_iff.
  intros ((((((S & A) & D) & N) & Dl) & Rn) & B).
  repeat split; try assumption.
  - unfold in_section. now rewrite D.
  - unfold in_body, is_boundary. now rewrite A, D.
  - intros file. unfold apply_marker. now rewrite N, Dl, Rn, B.
Qed.

Lemma takeWhile_filter {A : Type} (p q : A -> bool) (l : list A) :
  (forall x, q x = false -> p x = true) ->
  takeWhile p (filter q l) = filter q (takeWhile p l).
Proof.
  intros H. induction l as [|x l IH]; [reflexivity|].
  simpl. destruct (q x) eqn:Q; simpl.
  - destruct (p x); simpl; [now rewrite Q, IH | reflexivity].
  - rewrite (H x Q). simpl. now rewrite Q.
Qed.

Lemma classify_not_stored (l : string) (ls : list string) (o n : Z) :
  stored l = false -> classify (l :: ls) o n = classify ls o n.
Proof.
  destruct l as [|c content]; [reflexivity|].
  simpl. intros H. apply orb_false_elim in H. destruct H as [H Hs].
  apply orb_false_elim in H. destruct H as [Hp Hm].
  now rewrite Hp, Hm, Hs.
Qed.

Lemma classify_filter (ls : list string) :
  forall o n, classify (filter not_inert ls) o n = classify ls o n.
Proof.
  induction ls as [|l ls IH]; intros o n; [reflexivity|].
  cbn [filter]. unfold not_inert at 1.
  destruct (inert l) eqn:I; cbn [negb].
  - destruct (inert_facts l I) as (S & _).
    now rewrite (classify_not_stored l ls o n S).
  - destruct l as [|c content]; simpl; [apply IH|].
    destruct (Ascii.eqb c "+"); [now rewrite IH|].
    destruct (Ascii.eqb c "-"); [now rewrite IH|].
    destruct (Ascii.eqb c " "); [now rewrite IH|apply IH].
Qed.

Lemma not_inert_keeps (p : string -> bool) (l : string) :
  (inert l = true -> p l = true) -> not_inert l = false -> p l = true.
Proof.
  unfold not_inert. rewrite negb_false_iff. auto.
Qed.

Lemma hunk_body_filter (ls : list string) :
  hunk_body (filter not_inert ls) = filter not_inert (hunk_body ls).
Proof.
  apply takeWhile_filter. intros l H. apply not_inert_keeps; [|exact H].
  intros I. apply (inert_facts l I).
Qed.

Lemma section_body_filter (ls : list string) :
  section_body (filter not_inert ls) = filter not_inert (section_body ls).
Proof.
  apply takeWhile_filter. intros l H. apply not_inert_keeps; [|exact H].
  intros I. apply (inert_facts l I).
Qed.

Lemma hunk_of_filter (l : string) (following : list string) :
  hunk_of l (filter not_inert following) = hunk_of l following.
Proof.
  unfold hunk_of. now rewrite hunk_body_filter, classify_filter.
Qed.

Lemma scan_filter (body : list string) :
  forall b file, scan (filter not_inert body) b file = scan body b file.
Proof.
  induction body as [|l body IH]; intros b file; [reflexivity|].
  cbn [filter]. unfold not_inert at 1.
  destruct (inert l) eqn:I; cbn [negb].
  - destruct (inert_facts l I) as (_ & A & _ & _ & M).
    simpl. rewrite A. destruct b; [apply IH|]. rewrite M. apply IH.
  - simpl. rewrite hunk_of_filter.
    destruct (strings.HasPrefix l "@@").
    + destruct (hunk_of l body); apply IH.
    + destruct b; apply IH.
Qed.

Lemma sections_filter (ls : list string) :
  map file_of_section (sections (filter not_inert ls))
  = map file_of_section (sections ls).
Proof.
  induction ls as [|l ls IH]; [reflexivity|].
  cbn [filter]. unfold not_inert at 1.
  destruct (inert l) eqn:I; cbn [negb].
  - destruct (inert_facts l I) as (_ & _ & D & _).
    unfold in_section in D. rewrite negb_true_iff in D.
    simpl. rewrite D. exact IH.
  - simpl. destruct (strings.HasPrefix l "diff --git"); [|exact IH].
    simpl. rewrite IH. f_equal.
    unfold file_of_section. simpl.
    now rewrite section_body_filter, scan_filter.
Qed.

(** X4: the lines that are not stored in a hunk (those not starting with
    ['+'], ['-'] or a space) and start neither with ["@@"], ["diff --git"],
    ["new file"], ["deleted file"], ["rename from"] nor ["Binary files"] have
    no effect at all: two texts with the same other lines, in the same
    order, parse to the same files.  Empty lines, backslash lines and lines
    such as ["index ..."] or ["rename to ..."] are of this kind. *)
Theorem inert_lines_ignored (d d' : string) :
  filter not_inert (strings.Split d) = filter not_inert (strings.Split d') ->
  parseDiff d = parseDiff d'.
Proof.
  intros H. rewrite !parseDiff_spec.
  rewrite <- (sections_filter (strings.Split d)), H, sections_filter. reflexivity.
Qed.

Lemma inert_lines_ignored_witness :
  parseDiff blank_in_hunk
  = parseDiff ("diff --git a/x b/x" ++ nl ++ "index 1..2" ++ nl
               ++ "@@ -1 +1,2 @@" ++ nl ++ "+a" ++ nl ++ "\ No newline" ++ nl
               ++ "+b" ++ nl ++ "rename to y").
Proof.
  apply inert_lines_ignored. vm_compute. reflexivity.
Defined.

(** ** The hunks of a file *)

Lemma hunk_of_Header (l : string) (following : list string) (h : Hunk) :
  hunk_of l following = Some h -> Header h = l /\ valid_header l = true.
Proof.
  unfold hunk_of, valid_header. destruct (_ <? _)%nat; [discriminate|].
  intros H; injection H as <-. now split.
Qed.

Lemma scan_Hunks_headers (body : list string) :
  forall b file,
    map Header (Hunks (scan body b file))
    = map Header (Hunks file) ++ filter is_header body.
Proof.
  induction body as [|l body IH]; intros b file; simpl.
  { now rewrite app_nil_r. }
  unfold is_header at 1.
  destruct (strings.HasPrefix l "@@") eqn:A; simpl.
  - destruct (hunk_of l body) as [h|] eqn:Hh.
    + destruct (hunk_of_Header _ _ _ Hh) as [EH V]. rewrite V, IH.
      cbn [add_Hunk Hunks]. rewrite map_app, <- app_assoc. simpl. now rewrite EH.
    + rewrite (hunk_of_invalid _ _ Hh). apply IH.
  - destruct b; [apply IH|]. rewrite IH.
    now destruct (apply_marker_fields l file) as (-> & _).
Qed.

(** X5: the hunks of a file are, in order, one for each line of its section
    that starts with ["@@"] and matches the header pattern, and each keeps
    that line as its header, byte for byte. *)
Theorem hunks_are_headers (diff : string) (i : nat) (marker : string)
        (body : list string) :
  nth_error (sections (strings.Split diff)) i = Some (marker, body) ->
  exists files f,
    parseDiff diff = Some (files, false) /\
    nth_error files i = Some f /\
    map Header (Hunks f) = filter is_header body /\
    List.length (Hunks f) = List.length (filter is_header body).
Proof.
  intros Hsec.
  destruct (parseDiff_nth diff i _ Hsec) as (files & Hp & Hn).
  exists files, (file_of_section (marker, body)).
  split; [exact Hp|]. split; [exact Hn|].
  assert (E : map Header (Hunks (file_of_section (marker, body)))
              = filter is_header body).
  { rewrite file_of_section_Hunks. simpl.
    now rewrite (scan_Hunks_headers body false emptyFileDiff). }
  split; [exact E|]. now rewrite <- E, length_map.
Qed.

Lemma hunks_are_headers_witness :
  exists files f h1 h2,
    parseDiff headers_in_section = Some (files, false) /\
    nth_error files 0 = Some f /\
    Hunks f = [h1; h2] /\
    Header h1 = "@@ -1 +1 @@"%string /\ Header h2 = "@@ -5 +5,2 @@ f()"%string.
Proof.
  destruct (hunks_are_headers headers_in_section 0 "diff --git a/x b/x"
              ["@@ bogus"; "@@ -1 +1 @@"; "+a"; "@@ -5 +5,2 @@ f()"; "+b"; "+c"]%string)
    as (files & f & H1 & H2 & H3 & H4).
  - vm_compute. reflexivity.
  - exists files, f.
    destruct (Hunks f) as [|h1 [|h2 [|h3 hs]]]; try discriminate H4.
    exists h1, h2. split; [exact H1|]. split; [exact H2|]. split; [reflexivity|].
    vm_compute in H3. injection H3 as E1 E2. now split.
Defined.

(** ** The binary flag *)

Lemma scan_IsBinary (body : list string) :
  forall b file,
    IsBinary (scan body b file)
    = IsBinary file
      || existsb (fun l => strings.HasPrefix l "Binary files") (seen_lines body b).
Proof.
  induction body as [|l body IH]; intros b file; simpl.
  { now rewrite orb_false_r. }
  destruct (strings.HasPrefix l "@@") eqn:A.
  - destruct (hunk_of l body) as [h|] eqn:Hh.
    + destruct (hunk_of_Header _ _ _ Hh) as [_ V]. rewrite V.
      apply (IH true (add_Hunk h file)).
    + rewrite (hunk_of_invalid _ _ Hh). simpl.
      destruct (at_prefix_no_marker l A) as (_ & _ & _ & ->). apply IH.
  - destruct b; [apply IH|]. simpl.
    rewrite IH, apply_marker_IsBinary. now rewrite orb_assoc.
Qed.

(** X6: a file is binary exactly when a line starting with ["Binary files"]
    is among the lines of its section that lie outside the hunks (the lines
    the scan of the section dispatches on). *)
Theorem binary_iff_marker_outside_hunks (diff : string) (i : nat)
        (marker : string) (body : list string) :
  nth_error (sections (strings.Split diff)) i = Some (marker, body) ->
  exists files f,
    parseDiff diff = Some (files, false) /\
    nth_error files i = Some f /\
    (IsBinary f = true <->
     exists l, In l (seen_lines body false) /\
               strings.HasPrefix l "Binary files" = true).
Proof.
  intros Hsec.
  destruct (parseDiff_nth diff i _ Hsec) as (files & Hp & Hn).
  exists files, (file_of_section (marker, body)).
  split; [exact Hp|]. split; [exact Hn|].
  rewrite file_of_section_IsBinary. simpl.
  rewrite (scan_IsBinary body false emptyFileDiff). simpl.
  apply existsb_exists.
Qed.

Lemma binary_iff_marker_outside_hunks_witness :
  exists files f,
    parseDiff binary_in_hunk = Some (files, false) /\
    nth_error files 0 = Some f /\ IsBinary f <> true.
Proof.
  destruct (binary_iff_marker_outside_hunks binary_in_hunk 0 "diff --git a/x b/x"
              ["@@ -1 +1 @@"; "+a"; "Binary files a/x and b/x differ"])
    as (files & f & H1 & H2 & H3).
  - vm_compute. reflexivity.
  - exists files, f. split; [exact H1|]. split; [exact H2|].
    intros B. apply H3 in B. destruct B as (l & Hl & _).
    vm_compute in Hl. exact Hl.
Defined.

(** ** The counts and the text *)

Lemma file_of_section_counts (ls : list string) (sec : string * list string) :
  is_len (List.length ls) ->
  In sec (sections ls) ->
  Additions (file_of_section sec)
  = Z.of_nat (count_type LineTypeAdded (file_of_section sec)) /\
  Deletions (file_of_section sec)
  = Z.of_nat (count_type LineTypeDeleted (file_of_section sec)).
Proof.
  intros Hlen Hsec.
  destruct (sections_In _ _ Hsec) as (pre & post & Els & Ebody & _).
  unfold count_type, all_lines. rewrite file_of_section_Hunks.
  unfold file_of_section.
  set (f0 := marker_paths (fst sec) emptyFileDiff).
  set (f1 := scan (snd sec) false f0).
  assert (B : List.length (all_lines f1) <= List.length (snd sec)).
  { assert (F : Forall (fun l => in_section l = true) (snd sec))
      by (rewrite Ebody; apply takeWhile_Forall).
    pose proof (scan_stored_bound (snd sec) F false f0) as S.
    destruct (marker_paths_counters (fst sec) emptyFileDiff) as (_ & _ & E & _).
    unfold all_lines in S at 2. fold f0 in E. rewrite E in S. simpl in S.
    fold f1 in S. lia. }
  assert (L : (Z.of_nat (List.length (snd sec)) < GoInt.maxInt)%Z).
  { unfold is_len in Hlen. rewrite Els, length_app in Hlen. simpl in Hlen.
    rewrite Ebody. pose proof (takeWhile_length in_section post).
    unfold section_body. lia. }
  destruct (scan_counters (snd sec) false f0) as (A1 & D1 & _). fold f1 in A1, D1.
  destruct (marker_paths_counters (fst sec) emptyFileDiff) as (A0 & D0 & _).
  fold f0 in A0, D0. simpl in A0, D0.
  destruct (default_Status_fields f1) as (A2 & D2 & H2 & _).
  unfold tally. unfold all_lines in B. rewrite H2.
  pose proof (tally_hunks_counts (Hunks f1) (default_Status f1)) as T.
  rewrite A2, D2, A1, D1, A0, D0 in T.
  destruct T as [EA ED]; try lia.
  rewrite EA, ED.
  assert (HH : Hunks f1 = Hunks (scan (snd sec) false emptyFileDiff)).
  { apply scan_Hunks_ext. apply marker_paths_counters. }
  rewrite <- HH. split; reflexivity.
Qed.

Lemma scan_Hunks_app (body : list string) :
  forall b file, Hunks (scan body b file) = Hunks file ++ section_hunks body.
Proof.
  unfold section_hunks.
  induction body as [|l body IH]; intros b file; simpl.
  { now rewrite app_nil_r. }
  destruct (strings.HasPrefix l "@@").
  - destruct (hunk_of l body) as [h|].
    + rewrite (IH true (add_Hunk h file)), (IH true (add_Hunk h emptyFileDiff)).
      simpl. now rewrite <- app_assoc.
    + rewrite (IH false file). reflexivity.
  - destruct b.
    + rewrite (IH true file), (IH false (apply_marker l emptyFileDiff)).
      now destruct (apply_marker_fields l emptyFileDiff) as (-> & _).
    + rewrite (IH false (apply_marker l file)),
        (IH false (apply_marker l emptyFileDiff)).
      destruct (apply_marker_fields l file) as (-> & _).
      now destruct (apply_marker_fields l emptyFileDiff) as (-> & _).
Qed.

Lemma section_hunks_cons (l : string) (body : list string) :
  section_hunks (l :: body)
  = (if strings.HasPrefix l "@@" then opt_list (hunk_of l body) else [])
    ++ section_hunks body.
Proof.
  unfold section_hunks at 1. simpl.
  destruct (strings.HasPrefix l "@@").
  - destruct (hunk_of l body) as [h|]; [|reflexivity].
    now rewrite scan_Hunks_app.
  - rewrite scan_Hunks_app.
    now destruct (apply_marker_fields l emptyFileDiff) as (-> & _).
Qed.

(** The stored lines of a section, with their marker bytes, are the lines
    inside its hunks that start with ['+'], ['-'] or a space. *)
Lemma inside_hunks_rendered (body : list string) :
  Forall (fun l => in_section l = true) body ->
  forall b,
    filter stored (inside_hunks body b)
    = (if b then filter stored (hunk_body body) else [])
      ++ map render (flat_map Lines (section_hunks body)).
Proof.
  induction 1 as [|l body Hl _ IH]; intros b.
  { destruct b; reflexivity. }
  rewrite section_hunks_cons. cbn [inside_hunks].
  unfold hunk_body. cbn [takeWhile]. unfold in_body at 1, is_boundary.
  unfold in_section in Hl. rewrite negb_true_iff in Hl. rewrite Hl, orb_false_r.
  destruct (strings.HasPrefix l "@@") eqn:A; cbn [negb].
  - destruct (hunk_of l body) as [h|] eqn:Hh.
    + destruct (hunk_of_Header _ _ _ Hh) as [_ V]. rewrite V.
      rewrite (IH true). cbn [opt_list app flat_map]. rewrite ?app_nil_r.
      destruct (hunk_of_fields _ _ _ Hh) as (EL & _).
      rewrite !map_app, EL, classify_render.
      destruct b; rewrite ?app_nil_l, <- ?app_assoc; reflexivity.
    + rewrite (hunk_of_invalid _ _ Hh), (IH false). destruct b; reflexivity.
  - destruct b.
    + cbn [filter]. rewrite (IH true). fold (hunk_body body).
      destruct (stored l); reflexivity.
    + apply (IH false).
Qed.

Lemma count_in_rendered (c : ascii) (t : LineType) (ls : list Line) :
  (forall l, starts_with c (render l) = LineType_eqb (Type_ l) t) ->
  count_in t ls = List.length (filter (starts_with c) (map render ls)).
Proof.
  intros H. unfold count_in.
  induction ls as [|l ls IH]; [reflexivity|].
  simpl. rewrite H. destruct (LineType_eqb (Type_ l) t); simpl; now rewrite IH.
Qed.

Lemma filter_stored_starts (c : ascii) (ls : list string) :
  (forall l, starts_with c l = true -> stored l = true) ->
  filter (starts_with c) (filter stored ls) = filter (starts_with c) ls.
Proof.
  intros H. induction ls as [|l ls IH]; [reflexivity|].
  simpl. destruct (stored l) eqn:S; simpl.
  - now rewrite IH.
  - destruct (starts_with c l) eqn:E; [|exact IH].
    rewrite (H l E) in S. discriminate.
Qed.

(** X9: the additions of a file are the lines of the text, inside the hunks
    of its section, that start with ['+'], and its deletions those that
    start with ['-']; lines of the section outside the hunks, such as
    ["--- a/x"] and ["+++ b/x"] in front of the first header, do not
    count.  The text is any text whose line count is a length a Go slice
    can have. *)
Theorem counts_from_text (diff : string) (i : nat) (marker : string)
        (body : list string) :
  is_len (List.length (strings.Split diff)) ->
  nth_error (sections (strings.Split diff)) i = Some (marker, body) ->
  exists files f,
    parseDiff diff = Some (files, false) /\
    nth_error files i = Some f /\
    Additions f
    = Z.of_nat (List.length (filter (starts_with "+") (inside_hunks body false))) /\
    Deletions f
    = Z.of_nat (List.length (filter (starts_with "-") (inside_hunks body false))).
Proof.
  intros Hlen Hsec.
  destruct (parseDiff_nth diff i _ Hsec) as (files & Hp & Hn).
  exists files, (file_of_section (marker, body)).
  split; [exact Hp|]. split; [exact Hn|].
  pose proof (nth_error_In _ _ Hsec) as Hin.
  destruct (file_of_section_counts _ _ Hlen Hin) as [-> ->].
  destruct (sections_In _ _ Hin) as (pre & post & _ & Ebody & _). simpl in Ebody.
  assert (F : Forall (fun l => in_section l = true) body)
    by (rewrite Ebody; apply takeWhile_Forall).
  pose proof (inside_hunks_rendered body F false) as R. simpl in R.
  unfold count_type, all_lines. rewrite file_of_section_Hunks. simpl.
  fold (section_hunks body).
  rewrite (count_in_rendered "+" LineTypeAdded), (count_in_rendered "-" LineTypeDeleted).
  - rewrite <- R, !filter_stored_starts; [split; reflexivity| |].
    + intros [|c l] E; [discriminate|]. simpl in *. now rewrite E, orb_true_r.
    + intros [|c l] E; [discriminate|]. simpl in *. now rewrite E.
  - intros l. unfold render. destruct (Type_ l); reflexivity.
  - intros l. unfold render. destruct (Type_ l); reflexivity.
Qed.

Lemma counts_from_text_witness :
  exists files f,
    parseDiff file_header_lines = Some (files, false) /\
    nth_error files 0 = Some f /\
    Additions f = 1%Z /\ Deletions f = 1%Z.
Proof.
  destruct (counts_from_text file_header_lines 0 "diff --git a/x b/x"
              ["--- a/x"; "+++ b/x"; "@@ -1 +1 @@"; "-a"; "+b"])
    as (files & f & H1 & H2 & H3 & H4).
  - unfold is_len. vm_compute. discriminate.
  - vm_compute. reflexivity.
  - exists files, f. split; [exact H1|]. split; [exact H2|].
    split; [exact H3 | exact H4].
Defined.

(** ** The size of the result *)

Lemma scan_size_bound (body : list string) :
  Forall (fun l => in_section l = true) body ->
  forall b file,
    List.length (all_lines (scan body b file))
    + List.length (Hunks (scan body b file))
    + (if b then List.length (hunk_body body) else 0)
    <= List.length (all_lines file) + List.length (Hunks file)
       + List.length body.
Proof.
  unfold all_lines.
  induction 1 as [|l body Hl _ IH]; intros b file; simpl.
  { destruct b; simpl; lia. }
  unfold hunk_body; simpl. unfold in_body at 1, is_boundary.
  unfold in_section in Hl. rewrite negb_true_iff in Hl. rewrite Hl, orb_false_r.
  destruct (strings.HasPrefix l "@@"); simpl.
  - destruct (hunk_of l body) as [h|] eqn:Hh.
    + specialize (IH true (add_Hunk h file)). cbn [add_Hunk Hunks] in IH.
      rewrite flat_map_app, !length_app in IH. cbn [flat_map] in IH.
      rewrite app_nil_r in IH. simpl in IH.
      apply hunk_of_Lines_length in Hh. destruct b; simpl; lia.
    + specialize (IH false file). destruct b; simpl in *; lia.
  - destruct b.
    + specialize (IH true file). fold (hunk_body body). simpl. lia.
    + specialize (IH false (apply_marker l file)).
      destruct (apply_marker_fields l file) as (E & _). rewrite E in IH. lia.
Qed.

Lemma sections_size (ls : list string) :
  List.length (flat_map snd (sections ls)) + List.length (sections ls)
  + List.length (section_body ls)
  <= List.length ls.
Proof.
  induction ls as [|l ls IH]; [simpl; lia|].
  unfold section_body in *. simpl. unfold in_section at 1.
  destruct (strings.HasPrefix l "diff --git"); simpl.
  - rewrite length_app. fold (section_body ls). unfold section_body. lia.
  - lia.
Qed.

Lemma files_size (secs : list (string * list string)) :
  Forall (fun sec => Forall (fun l => in_section l = true) (snd sec)) secs ->
  List.length (flat_map all_lines (map file_of_section secs))
  + List.length (flat_map Hunks (map file_of_section secs))
  <= List.length (flat_map snd secs).
Proof.
  induction 1 as [|sec secs Hs _ IH]; [simpl; lia|].
  simpl. rewrite !length_app.
  pose proof (scan_size_bound (snd sec) Hs false emptyFileDiff) as B.
  simpl in B. unfold all_lines at 1. rewrite file_of_section_Hunks.
  fold (all_lines (scan (snd sec) false emptyFileDiff)). lia.
Qed.

Lemma sections_bodies (ls : list string) :
  Forall (fun sec => Forall (fun l => in_section l = true) (snd sec)) (sections ls).
Proof.
  apply Forall_forall. intros sec H.
  destruct (sections_In _ _ H) as (_ & post & _ & -> & _).
  apply takeWhile_Forall.
Qed.

(** X8: the result is no larger than the text: the files, their hunks and
    the stored lines of all hunks together are at most as many as the text
    has lines. *)
Theorem result_size_bound (diff : string) :
  exists files,
    parseDiff diff = Some (files, false) /\
    List.length files + List.length (flat_map Hunks files)
    + List.length (flat_map all_lines files)
    <= List.length (strings.Split diff).
Proof.
  exists (map file_of_section (sections (strings.Split diff))).
  split; [apply parseDiff_spec|].
  pose proof (files_size _ (sections_bodies (strings.Split diff))) as F.
  pose proof (sections_size (strings.Split diff)) as S.
  rewrite length_map. lia.
Qed.

Lemma result_size_bound_witness :
  exists files,
    parseDiff scenarioA = Some (files, false) /\
    List.length files + List.length (flat_map Hunks files)
    + List.length (flat_map all_lines files) <= 7.
Proof.
  destruct (result_size_bound scenarioA) as (files & H1 & H2).
  exists files. split; [exact H1|]. exact H2.
Defined.

(** ** What a match of the header pattern tells *)

Lemma HasPrefix_split (t s : string) :
  strings.HasPrefix s t = true ->
  s = (t ++ strings.drop (String.length t) s)%string.
Proof.
  revert s. induction t as [|a t IH]; intros s H; [reflexivity|].
  destruct s as [|b s]; [discriminate|].
  rewrite HasPrefix_cons in H. apply andb_prop in H. destruct H as [Hb Hs].
  apply Ascii.eqb_eq in Hb. subst b. simpl. f_equal. now apply IH.
Qed.

Lemma string_app_assoc (a b c : string) :
  ((a ++ b) ++ c)%string = (a ++ b ++ c)%string.
Proof. induction a as [|x a IH]; simpl; [reflexivity | now rewrite IH]. Qed.

Section MatcherInversion.
Context {R : Type}.

Lemma star_class_inv (f : ascii -> bool) (s : string) (k : string -> option R)
      (r : R) :
  star_class f s k = Some r ->
  exists d s', s = (d ++ s')%string /\ all_in f d = true /\ k s' = Some r.
Proof.
  induction s as [|c s IH]; simpl; intros H.
  - exists "", "". now repeat split.
  - destruct (f c) eqn:Fc.
    + destruct (star_class f s k) as [r'|] eqn:E.
      * injection H as ->. destruct (IH eq_refl) as (d & s' & -> & Hd & Hk).
        exists (String c d), s'. simpl. rewrite Fc, Hd. now repeat split.
      * exists "", (String c s). now repeat split.
    + exists "", (String c s). now repeat split.
Qed.

Lemma rmatch_Lit_inv (t s : string) (caps : list string)
      (k : string -> list string -> option R) (r : R) :
  rmatch (Lit t) s caps k = Some r ->
  exists s', s = (t ++ s')%string /\ k s' caps = Some r.
Proof.
  simpl. destruct (strings.HasPrefix s t) eqn:P; [|discriminate].
  intros H. exists (strings.drop (String.length t) s).
  split; [now apply HasPrefix_split | exact H].
Qed.

Lemma rmatch_Group_Plus_inv (i : nat) (f : ascii -> bool) (s : string)
      (caps : list string) (k : string -> list string -> option R) (r : R) :
  rmatch (Group i (Plus f)) s caps k = Some r ->
  exists d s',
    s = (d ++ s')%string /\ all_in f d = true /\ d <> "" /\
    k s' (set_cap i d caps) = Some r.
Proof.
  cbn [rmatch]. destruct s as [|c s]; [discriminate|].
  destruct (f c) eqn:Fc; [|discriminate].
  intros H. apply star_class_inv in H. destruct H as (d & s' & -> & Hd & Hk).
  exists (String c d), s'. simpl. rewrite Fc, Hd.
  repeat split; [discriminate|].
  change (String c (d ++ s')) with (String c d ++ s')%string in Hk.
  now rewrite consumed_app in Hk.
Qed.

Lemma rmatch_Group_Star_inv (i : nat) (f : ascii -> bool) (s : string)
      (caps : list string) (k : string -> list string -> option R) (r : R) :
  rmatch (Group i (Star f)) s caps k = Some r ->
  exists d s',
    s = (d ++ s')%string /\ all_in f d = true /\
    k s' (set_cap i d caps) = Some r.
Proof.
  cbn [rmatch]. intros H. apply star_class_inv in H.
  destruct H as (d & s' & -> & Hd & Hk).
  exists d, s'. repeat split; [exact Hd|]. now rewrite consumed_app in Hk.
Qed.

(** An optional count in group [i], whether it is taken or passed over. *)
Lemma rmatch_Opt_count_inv (i : nat) (s : string) (caps : list string)
      (k : string -> list string -> option R) (r : R) :
  rmatch (Opt (Lit "," +++ Group i (Plus digit))) s caps k = Some r ->
  exists c s',
    s = (count_text c ++ s')%string /\
    match c with
    | Some d => all_in digit d = true /\ d <> ""
    | None => True
    end /\
    k s' (count_cap i c caps) = Some r.
Proof.
  rewrite rmatch_Opt.
  destruct (rmatch (Lit "," +++ Group i (Plus digit)) s caps k) as [r'|] eqn:E.
  - intros H. injection H as ->. rewrite rmatch_Seq in E.
    apply rmatch_Lit_inv in E. destruct E as (s1 & -> & E).
    apply rmatch_Group_Plus_inv in E. destruct E as (d & s' & -> & Hd & Hn & Hk).
    exists (Some d), s'. simpl. repeat split; assumption.
  - intros H. exists None, s. now repeat split.
Qed.

End MatcherInversion.

Lemma all_in_digits (d : string) :
  all_in digit d = true -> d <> "" -> exists n, strconv.digits d = Some n.
Proof.
  intros H N. destruct d as [|c d]; [contradiction|].
  unfold strconv.digits.
  assert (G : forall s acc, all_in digit s = true ->
                            exists n, strconv.digits_from acc s = Some n).
  { clear. induction s as [|c s IH]; intros acc H; simpl; [eauto|].
    simpl in H. apply andb_prop in H. destruct H as [-> H]. now apply IH. }
  now apply G.
Qed.

(** A match of the header pattern at the start of a text: the text starts
    with a header, and the submatches are its fields. *)
Lemma hunkRe_match_here_inv (s : string) (caps : list string) :
  match_here hunkRe 5 s = Some caps ->
  exists d1 c1 d3 c2 trailing rest,
    s = (header_text d1 c1 d3 c2 trailing ++ rest)%string /\
    (exists n1, strconv.digits d1 = Some n1) /\
    (exists n3, strconv.digits d3 = Some n3) /\
    count_ok c1 /\ count_ok c2 /\
    caps = [header_text d1 c1 d3 c2 trailing; d1; or_default c1 ""; d3;
            or_default c2 ""; trailing].
Proof.
  unfold match_here, hunkRe. intros H.
  rewrite rmatch_Seq in H. apply rmatch_Lit_inv in H. destruct H as (s1 & E1 & H).
  rewrite rmatch_Seq in H. apply rmatch_Group_Plus_inv in H.
  destruct H as (d1 & s2 & E2 & A1 & N1 & H).
  rewrite rmatch_Seq in H. apply rmatch_Opt_count_inv in H.
  destruct H as (c1 & s3 & E3 & O1 & H).
  rewrite rmatch_Seq in H. apply rmatch_Lit_inv in H. destruct H as (s4 & E4 & H).
  rewrite rmatch_Seq in H. apply rmatch_Group_Plus_inv in H.
  destruct H as (d3 & s5 & E5 & A3 & N3 & H).
  rewrite rmatch_Seq in H. apply rmatch_Opt_count_inv in H.
  destruct H as (c2 & s6 & E6 & O2 & H).
  rewrite rmatch_Seq in H. apply rmatch_Lit_inv in H. destruct H as (s7 & E7 & H).
  apply rmatch_Group_Star_inv in H. destruct H as (d5 & rest & E8 & A5 & H).
  exists d1, c1, d3, c2, d5, rest.
  assert (Es : s = (header_text d1 c1 d3 c2 d5 ++ rest)%string).
  { subst. unfold header_text. now rewrite !string_app_assoc. }
  split; [exact Es|].
  split; [now apply all_in_digits|]. split; [now apply all_in_digits|].
  split; [destruct c1 as [d|]; [apply all_in_digits; tauto | exact I]|].
  split; [destruct c2 as [d|]; [apply all_in_digits; tauto | exact I]|].
  injection H as <-. rewrite Es, consumed_app.
  destruct c1, c2; reflexivity.
Qed.

Lemma FindStringSubmatch_inv (r : regex) (n : nat) (s : string) (m : list string) :
  FindStringSubmatch r n s = m -> m <> [] ->
  exists pre s0, s = (pre ++ s0)%string /\ match_here r n s0 = Some m.
Proof.
  revert m. induction s as [|c s IH]; intros m H N.
  - simpl in H. destruct (match_here r n "") as [caps|] eqn:E.
    + subst m. now exists "", "".
    + now subst m.
  - simpl in H. destruct (match_here r n (String c s)) as [caps|] eqn:E.
    + subst m. now exists "", (String c s).
    + destruct (IH m H N) as (pre & s0 & -> & Hm).
      now exists (String c pre), s0.
Qed.

Lemma digits_min_range (d : string) (n : Z) :
  strconv.digits d = Some n -> (0 <= Z.min n GoInt.maxInt <= GoInt.maxInt)%Z.
Proof.
  intros H. pose proof maxInt_pos.
  assert (0 <= n)%Z.
  { unfold strconv.digits in H. destruct d; [discriminate|].
    eapply digits_from_nonneg; [|exact H]. lia. }
  lia.
Qed.

Lemma stored_count_range (c : option string) :
  count_ok c -> (0 <= stored_count c <= GoInt.maxInt)%Z.
Proof.
  pose proof maxInt_pos.
  destruct c as [d|]; simpl; [|lia].
  intros (n & Hn). rewrite Hn. now apply (digits_min_range d).
Qed.

(** X7: every hunk the parser returns has, somewhere in its header line, a
    complete header ["@@ -<n>[,<m>] +<n>[,<m>] @@"] from which its four
    numbers are read: the start values are the numbers given
    (the largest [int] when they are beyond it), a count is 1 when omitted;
    so none of the four numbers is negative or beyond the largest [int]. *)
Theorem hunk_fields_from_header (diff : string) (files : list FileDiff)
        (err : bool) (f : FileDiff) (h : Hunk) :
  parseDiff diff = Some (files, err) -> In f files -> In h (Hunks f) ->
  (exists pre d1 n1 c1 d3 n3 c2 trailing rest,
      Header h = (pre ++ header_text d1 c1 d3 c2 trailing ++ rest)%string /\
      strconv.digits d1 = Some n1 /\ strconv.digits d3 = Some n3 /\
      count_ok c1 /\ count_ok c2 /\
      OldStart h = Z.min n1 GoInt.maxInt /\ OldLines h = stored_count c1 /\
      NewStart h = Z.min n3 GoInt.maxInt /\ NewLines h = stored_count c2) /\
  (0 <= OldStart h <= GoInt.maxInt)%Z /\ (0 <= OldLines h <= GoInt.maxInt)%Z /\
  (0 <= NewStart h <= GoInt.maxInt)%Z /\ (0 <= NewLines h <= GoInt.maxInt)%Z.
Proof.
  intros Hp Hf Hh.
  destruct (parseDiff_hunk_origin _ _ _ _ _ Hp Hf Hh) as (_ & post & _ & Ho).
  unfold hunk_of in Ho.
  destruct (List.length (FindStringSubmatch hunkRe 5 (Header h)) <? 5)%nat eqn:L;
    [discriminate|].
  assert (N : FindStringSubmatch hunkRe 5 (Header h) <> []).
  { intros E. rewrite E in L. discriminate. }
  destruct (FindStringSubmatch_inv _ _ _ _ eq_refl N) as (pre & s0 & Es & Hm).
  destruct (hunkRe_match_here_inv _ _ Hm)
    as (d1 & c1 & d3 & c2 & trailing & rest & E0 & (n1 & D1) & (n3 & D3) & O1 & O2 & Ec).
  rewrite Ec in Ho. injection Ho as Eh.
  assert (F1 : OldStart h = Z.min n1 GoInt.maxInt).
  { rewrite <- Eh. simpl. unfold header_OldStart. simpl. now apply Atoi_digits. }
  assert (F3 : NewStart h = Z.min n3 GoInt.maxInt).
  { rewrite <- Eh. simpl. unfold header_NewStart. simpl. now apply Atoi_digits. }
  assert (F2 : OldLines h = stored_count c1).
  { rewrite <- Eh. simpl. unfold header_OldLines.
    now apply stored_count_spec. }
  assert (F4 : NewLines h = stored_count c2).
  { rewrite <- Eh. simpl. unfold header_NewLines.
    now apply stored_count_spec. }
  split.
  - exists pre, d1, n1, c1, d3, n3, c2, trailing, rest.
    rewrite Es, E0. repeat split; assumption.
  - rewrite F1, F2, F3, F4.
    split; [now apply (digits_min_range d1)|].
    split; [now apply stored_count_range|].
    split; [now apply (digits_min_range d3)|now apply stored_count_range].
Qed.

Lemma hunk_fields_from_header_witness :
  parseDiff scenarioA = Some ([scenarioA_file], false) /\
  (0 <= OldStart scenarioA_hunk <= GoInt.maxInt)%Z /\
  (0 <= OldLines scenarioA_hunk <= GoInt.maxInt)%Z.
Proof.
  assert (Hp : parseDiff scenarioA = Some ([scenarioA_file], false))
    by (vm_compute; reflexivity).
  split; [exact Hp|].
  destruct (hunk_fields_from_header scenarioA _ false scenarioA_file scenarioA_hunk Hp)
    as (_ & H1 & H2 & _).
  - left. reflexivity.
  - left. reflexivity.
  - split; [exact H1 | exact H2].
Defined.

(** ** Trimming white space *)

Lemma rev_onto_app (s acc : string) :
  strings.rev_onto s acc = (strings.rev s ++ acc)%string.
Proof.
  unfold strings.rev. revert acc.
  induction s as [|c s IH]; intros acc; [reflexivity|].
  simpl. rewrite (IH (String c acc)), (IH (String c "")).
  now rewrite string_app_assoc.
Qed.

Lemma rev_cons (c : ascii) (s : string) :
  strings.rev (String c s) = (strings.rev s ++ String c "")%string.
Proof. unfold strings.rev at 1. simpl. apply rev_onto_app. Qed.

Lemma rev_app (s t : string) :
  strings.rev (s ++ t) = (strings.rev t ++ strings.rev s)%string.
Proof.
  induction s as [|c s IH]; simpl.
  - now rewrite append_nil_r.
  - now rewrite !rev_cons, IH, string_app_assoc.
Qed.

Lemma rev_involutive (s : string) : strings.rev (strings.rev s) = s.
Proof.
  induction s as [|c s IH]; [reflexivity|].
  rewrite rev_cons, rev_app, IH. reflexivity.
Qed.

Lemma graphic_range (c : ascii) :
  graphic c = true -> 33 <= nat_of_ascii c <= 126.
Proof.
  unfold graphic. rewrite andb_true_iff, !Nat.leb_le. tauto.
Qed.

Lemma graphic_not_asciiSpace (c : ascii) :
  graphic c = true -> strings.asciiSpace c = false.
Proof.
  intros H. apply graphic_range in H. unfold strings.asciiSpace.
  destruct (nat_of_ascii c) as [|n]; [lia|].
  do 32 (destruct n as [|n]; [lia|]). reflexivity.
Qed.

Lemma eqb_false_of_neq (n m : nat) : n <> m -> (n =? m)%nat = false.
Proof. apply Nat.eqb_neq. Qed.

Lemma graphic_not_space2_first (a b : ascii) :
  graphic a = true -> strings.space2 a b = false.
Proof.
  intros H. apply graphic_range in H. unfold strings.space2.
  rewrite (eqb_false_of_neq (nat_of_ascii a) 194) by lia. reflexivity.
Qed.

Lemma graphic_not_space2_last (a b : ascii) :
  graphic b = true -> strings.space2 a b = false.
Proof.
  intros H. apply graphic_range in H. unfold strings.space2.
  rewrite (eqb_false_of_neq (nat_of_ascii b) 133) by lia.
  rewrite (eqb_false_of_neq (nat_of_ascii b) 160) by lia.
  apply andb_false_r.
Qed.

Lemma graphic_not_space3_first (a b c : ascii) :
  graphic a = true -> strings.space3 a b c = false.
Proof.
  intros H. apply graphic_range in H. unfold strings.space3. cbv zeta.
  rewrite (eqb_false_of_neq (nat_of_ascii a) 225) by lia.
  rewrite (eqb_false_of_neq (nat_of_ascii a) 226) by lia.
  rewrite (eqb_false_of_neq (nat_of_ascii a) 227) by lia.
  reflexivity.
Qed.

Lemma graphic_not_space3_last (a b c : ascii) :
  graphic c = true -> strings.space3 a b c = false.
Proof.
  intros H. apply graphic_range in H. unfold strings.space3. cbv zeta.
  rewrite (eqb_false_of_neq (nat_of_ascii c) 128) by lia.
  rewrite (eqb_false_of_neq (nat_of_ascii c) 168) by lia.
  rewrite (eqb_false_of_neq (nat_of_ascii c) 169) by lia.
  rewrite (eqb_false_of_neq (nat_of_ascii c) 175) by lia.
  rewrite (eqb_false_of_neq (nat_of_ascii c) 159) by lia.
  assert (E : (128 <=? nat_of_ascii c)%nat = false) by (apply Nat.leb_gt; lia).
  rewrite E. rewrite ?andb_false_r, ?andb_false_l, ?orb_false_r. reflexivity.
Qed.

Lemma TrimLeftSpace_graphic (a : ascii) (s : string) :
  graphic a = true -> strings.TrimLeftSpace (String a s) = String a s.
Proof.
  intros H. simpl. rewrite (graphic_not_asciiSpace a H).
  destruct s as [|b s]; [reflexivity|].
  rewrite (graphic_not_space2_first a b H).
  destruct s as [|c s]; [reflexivity|].
  now rewrite (graphic_not_space3_first a b c H).
Qed.

Lemma TrimLeftSpace_rev_graphic (a : ascii) (s : string) :
  graphic a = true -> strings.TrimLeftSpace_rev (String a s) = String a s.
Proof.
  intros H. simpl. rewrite (graphic_not_asciiSpace a H).
  destruct s as [|b s]; [reflexivity|].
  rewrite (graphic_not_space2_last b a H).
  destruct s as [|c s]; [reflexivity|].
  now rewrite (graphic_not_space3_last c b a H).
Qed.

Lemma last_byte_split (s : string) (c : ascii) :
  last_byte s = Some c -> exists q, s = (q ++ String c "")%string.
Proof.
  induction s as [|a s IH]; [discriminate|].
  destruct s as [|b s].
  - simpl. intros H; injection H as ->. now exists "".
  - intros H. change (last_byte (String a (String b s))) with (last_byte (String b s)) in H.
    destruct (IH H) as (q & E). exists (String a q). simpl. now rewrite <- E.
Qed.

Lemma last_byte_None (s : string) : last_byte s = None -> s = "".
Proof.
  induction s as [|a s IH]; [reflexivity|].
  destruct s as [|b s]; [discriminate|].
  intros H. change (last_byte (String a (String b s))) with (last_byte (String b s)) in H.
  discriminate (IH H).
Qed.

Lemma last_byte_app (a b : string) :
  b <> "" -> last_byte (a ++ b) = last_byte b.
Proof.
  intros N. induction a as [|x a IH]; [reflexivity|].
  simpl. rewrite IH. destruct (a ++ b)%string eqn:E; [|reflexivity].
  destruct a; simpl in E; [contradiction | discriminate].
Qed.

(** A text that ends with a printable byte is not trimmed on the right, and
    a line feed after it is. *)
Lemma TrimRightSpace_graphic (s : string) (c : ascii) :
  last_byte s = Some c -> graphic c = true ->
  strings.TrimRightSpace s = s /\
  strings.TrimRightSpace (s ++ String strings.newline "") = s.
Proof.
  intros L G. destruct (last_byte_split s c L) as (q & ->).
  unfold strings.TrimRightSpace. rewrite !rev_app.
  change (strings.rev (String c "")) with (String c "").
  change (strings.rev (String strings.newline "")) with (String strings.newline "").
  cbn [append].
  change (strings.TrimLeftSpace_rev
            (String strings.newline (String c (strings.rev q))))
    with (strings.TrimLeftSpace_rev (String c (strings.rev q))).
  rewrite (TrimLeftSpace_rev_graphic c _ G).
  change (String c (strings.rev q)) with (strings.rev (String c "") ++ strings.rev q)%string.
  rewrite <- rev_app, rev_involutive. now split.
Qed.

Lemma clean_path_parts (p : string) :
  clean_path p = true ->
  no_newline p = true /\
  (exists a q, p = String a q /\ graphic a = true) /\
  (exists c, last_byte p = Some c /\ graphic c = true).
Proof.
  unfold clean_path. rewrite !andb_true_iff. intros [[N F] L].
  split; [exact N|]. split.
  - destruct p as [|a q]; [discriminate|]. now exists a, q.
  - destruct (last_byte p) as [c|]; [|discriminate]. now exists c.
Qed.


Lemma unlines_Join (ls : list string) :
  ls <> [] ->
  unlines ls = (strings.Join ls ++ String strings.newline "")%string.
Proof.
  induction ls as [|l ls IH]; intros N; [contradiction|].
  destruct ls as [|l' ls]; [reflexivity|].
  rewrite Join_cons by discriminate. cbn [unlines] in *.
  rewrite IH by discriminate. now rewrite !string_app_assoc.
Qed.

Lemma last_byte_Join (ls : list string) (l : string) :
  l <> "" -> last_byte (strings.Join (ls ++ [l])) = last_byte l.
Proof.
  intros N. induction ls as [|x ls IH]; [reflexivity|].
  cbn [app]. rewrite Join_cons by (destruct ls; discriminate).
  rewrite last_byte_app.
  - change (last_byte (String strings.newline (strings.Join (ls ++ [l]))))
      with (match strings.Join (ls ++ [l]) with
            | EmptyString => Some strings.newline
            | String _ _ => last_byte (strings.Join (ls ++ [l]))
            end).
    destruct (strings.Join (ls ++ [l])) eqn:E; [|exact IH].
    simpl in IH. symmetry in IH. apply last_byte_None in IH. contradiction.
  - discriminate.
Qed.

(** A list of lines as git writes it, the first starting and the last
    ending with a printable byte, trims to the lines joined. *)
Lemma TrimSpace_unlines (a : ascii) (l : string) (ls front : list string)
      (lst : string) (c : ascii) :
  graphic a = true ->
  last_byte lst = Some c -> graphic c = true ->
  String a l :: ls = front ++ [lst] ->
  strings.TrimSpace (unlines (String a l :: ls)) = strings.Join (String a l :: ls).
Proof.
  intros Ga L Gc E.
  rewrite unlines_Join by discriminate.
  unfold strings.TrimSpace.
  assert (F : exists t, strings.Join (String a l :: ls) = String a t).
  { destruct ls as [|l' ls']; [now exists l|].
    rewrite Join_cons by discriminate. simpl. eauto. }
  destruct F as (t & F).
  assert (LB : last_byte (strings.Join (String a l :: ls)) = Some c).
  { rewrite E, last_byte_Join; [exact L|]. intros ->. discriminate L. }
  rewrite F in *.
  change (String a t ++ String strings.newline "")%string
    with (String a (t ++ String strings.newline "")).
  rewrite (TrimLeftSpace_graphic a _ Ga).
  change (String a (t ++ String strings.newline ""))
    with (String a t ++ String strings.newline "")%string.
  apply (TrimRightSpace_graphic _ c LB Gc).
Qed.

Lemma fold_left_collect {A B : Type} (p : A -> bool) (g : A -> B) (ls : list A) :
  forall acc,
    fold_left (fun files line => if p line then files ++ [g line] else files) ls acc
    = acc ++ map g (filter p ls).
Proof.
  induction ls as [|l ls IH]; intros acc; simpl; [now rewrite app_nil_r|].
  rewrite IH. destruct (p l); simpl; [now rewrite <- app_assoc | reflexivity].
Qed.

(** ** The lists git writes *)

Lemma TrimSpace_unlines_all (a : ascii) (l : string) (ls : list string) :
  graphic a = true ->
  Forall (fun x => exists c, last_byte x = Some c /\ graphic c = true)
         (String a l :: ls) ->
  strings.TrimSpace (unlines (String a l :: ls)) = strings.Join (String a l :: ls).
Proof.
  intros Ga F.
  destruct (exists_last (l := String a l :: ls)) as (front & lst & E);
    [discriminate|].
  assert (Hin : In lst (String a l :: ls))
    by (rewrite E; apply in_or_app; right; now left).
  rewrite Forall_forall in F. destruct (F lst Hin) as (c & L & Gc).
  now apply (TrimSpace_unlines a l ls front lst c).
Qed.

Lemma clean_path_nonempty (p : string) : clean_path p = true -> p <> "".
Proof.
  intros H. destruct (clean_path_parts p H) as (_ & (a & q & -> & _) & _).
  discriminate.
Qed.

Lemma filter_all {A : Type} (f : A -> bool) (l : list A) :
  Forall (fun x => f x = true) l -> filter f l = l.
Proof.
  induction 1 as [|x l Hx _ IH]; [reflexivity|]. simpl. now rewrite Hx, IH.
Qed.

(** X15: [getUntrackedFiles] passes the failure of git on unchanged;
    otherwise no path it returns is empty or holds a line feed; and for a
    listing of paths as git writes it, one path on each line, each starting
    and ending with a printable byte, it returns exactly these paths, in
    order (none for an empty listing). *)
Theorem getUntrackedFiles_listing (w : Env) :
  let r := git w ["ls-files"; "--others"; "--exclude-standard"] in
  (failed r = true ->
   getUntrackedFiles w = inr (ErrGitCommandFailed (stderr r))) /\
  (failed r = false ->
   exists files,
     getUntrackedFiles w = inl files /\
     Forall (fun p => p <> "" /\ no_newline p = true) files /\
     (forall paths,
         stdout r = unlines paths ->
         Forall (fun p => clean_path p = true) paths ->
         files = paths)).
Proof.
  intros r. unfold getUntrackedFiles, runGitCommand. fold r. split.
  - now intros ->.
  - intros ->. destruct (String.eqb (stdout r) "") eqn:E.
    + apply String.eqb_eq in E. exists []. split; [reflexivity|].
      split; [constructor|].
      intros paths Hp F. rewrite E in Hp.
      destruct paths as [|p ps]; [reflexivity|].
      inversion F as [|? ? Hc _]; subst. apply clean_path_nonempty in Hc.
      destruct p; [contradiction | discriminate Hp].
    + eexists. split; [reflexivity|].
      rewrite (fold_left_collect (fun line => negb (String.eqb line ""))
                                 (fun line => line)).
      rewrite app_nil_l, map_id. split.
      * apply Forall_forall. intros p Hp. apply filter_In in Hp.
        destruct Hp as [Hin Hne]. split.
        -- intros ->. discriminate Hne.
        -- pose proof (Split_no_newline (strings.TrimSpace (stdout r))) as N.
           rewrite Forall_forall in N. now apply N.
      * intros paths Hp F. rewrite Hp.
        destruct paths as [|p ps].
        { rewrite Hp in E. discriminate E. }
        inversion F as [|? ? Hc Hcs]; subst.
        destruct (clean_path_parts p Hc) as (_ & (a & q & -> & Ga) & _).
        rewrite TrimSpace_unlines_all; [|exact Ga|].
        -- rewrite Split_Join; [|discriminate|].
           ++ apply filter_all. apply Forall_forall. intros x Hx.
              rewrite Forall_forall in F. apply F in Hx.
              apply clean_path_nonempty in Hx.
              destruct x; [contradiction | reflexivity].
           ++ apply Forall_forall. intros x Hx.
              rewrite Forall_forall in F. apply F in Hx.
              apply (clean_path_parts x Hx).
        -- apply Forall_forall. intros x Hx.
           rewrite Forall_forall in F. apply F in Hx.
           apply (clean_path_parts x Hx).
Qed.

Lemma getUntrackedFiles_listing_witness :
  getUntrackedFiles
    (mkEnv (fun _ => mkCmdResult false (unlines ["new.txt"; "dir/other.go"]) "")
           (fun _ => None))
  = inl ["new.txt"; "dir/other.go"].
Proof.
  destruct (getUntrackedFiles_listing
              (mkEnv (fun _ => mkCmdResult false (unlines ["new.txt"; "dir/other.go"]) "")
                     (fun _ => None))) as [_ H].
  destruct (H eq_refl) as (files & -> & _ & E).
  f_equal. apply E; [reflexivity|]. repeat constructor.
Defined.

(** ** The status list *)








(** ** [GetDiff] and [GetFileDiff] *)

Lemma add_untracked_fold (w : Env) (context : Z) (fs : list string) :
  forall files,
    fold_left (add_untracked w context) fs files
    = files ++ untracked_diffs w context fs.
Proof.
  unfold untracked_diffs.
  induction fs as [|f fs IH]; intros files; simpl; [now rewrite app_nil_r|].
  rewrite IH. unfold add_untracked.
  destruct (getUntrackedFileDiff (readFile w) f context);
    [now rewrite <- app_assoc | reflexivity].
Qed.

Lemma GetDiff_spec (w : Env) (diffType : DiffType) (contextLines : list Z) :
  GetDiff w diffType contextLines
  = let context := context_of contextLines in
    let r := git w (diff_args diffType context) in
    if failed r
    then Some (inr (ErrFailedToGetDiff (ErrGitCommandFailed (stderr r))))
    else Some (inl (mkDiffResult
                      (map file_of_section (sections (strings.Split (stdout r)))
                       ++ untracked_part w diffType context)
                      diffType)).
Proof.
  unfold GetDiff, runGitCommand. cbv zeta.
  destruct (failed (git w (diff_args diffType (context_of contextLines))));
    [reflexivity|].
  rewrite parseDiff_spec. unfold untracked_part.
  destruct (wants_untracked diffType); [|now rewrite app_nil_r].
  destruct (getUntrackedFiles w) as [fs|err]; [|now rewrite app_nil_r].
  destruct fs as [|f fs]; [now rewrite app_nil_r|].
  change (0 <? List.length (f :: fs))%nat with true. cbv iota.
  now rewrite add_untracked_fold.
Qed.

(** X10: [GetDiff] returns an error exactly when the git diff command fails,
    and the error wraps the failure of the command; the parse never fails.
    Otherwise the files are the parsed files of the output, one for each
    marker line, followed by the diffs made for the untracked files: none
    for a staged diff or any kind other than unstaged and all, none when the
    listing of the untracked files fails, and none for a file that cannot be
    read. *)
Theorem GetDiff_outcome (w : Env) (diffType : DiffType) (contextLines : list Z) :
  let context := context_of contextLines in
  let r := git w (diff_args diffType context) in
  (failed r = true ->
   GetDiff w diffType contextLines
   = Some (inr (ErrFailedToGetDiff (ErrGitCommandFailed (stderr r))))) /\
  (failed r = false ->
   GetDiff w diffType contextLines
   = Some (inl (mkDiffResult
                  (map file_of_section (sections (strings.Split (stdout r)))
                   ++ untracked_part w diffType context)
                  diffType))).
Proof.
  intros context r. rewrite GetDiff_spec. subst context r. cbv zeta.
  split; intros H; rewrite H; reflexivity.
Qed.

Lemma GetDiff_outcome_witness :
  GetDiff (example_env true scenarioA) DiffTypeAll []
  = Some (inr (ErrFailedToGetDiff (ErrGitCommandFailed "fatal: not a git repository")))
  /\ exists f,
      GetDiff (example_env false scenarioA) DiffTypeAll [0%Z]
      = Some (inl (mkDiffResult [scenarioA_file; f] DiffTypeAll))
      /\ Path f = "new.txt"%string.
Proof.
  split.
  - exact (proj1 (GetDiff_outcome (example_env true scenarioA) DiffTypeAll [])
                 eq_refl).
  - eexists. split.
    + exact (proj2 (GetDiff_outcome (example_env false scenarioA) DiffTypeAll [0%Z])
                   eq_refl).
    + reflexivity.
Defined.

Lemma count_in_untracked_lines (ls : list string) :
  forall i,
    count_in LineTypeAdded (untracked_lines i ls) = List.length ls /\
    count_in LineTypeDeleted (untracked_lines i ls) = 0.
Proof.
  unfold count_in.
  induction ls as [|l ls IH]; intros i; simpl; [now split|].
  destruct (IH (S i)) as [A D]. simpl. now rewrite A, D.
Qed.

Lemma untracked_diff_counts (ReadFile : string -> option string)
      (filepath : string) (context : Z) (f : FileDiff) :
  getUntrackedFileDiff ReadFile filepath context = Some f ->
  Additions f = Z.of_nat (count_type LineTypeAdded f) /\
  Deletions f = Z.of_nat (count_type LineTypeDeleted f).
Proof.
  unfold getUntrackedFileDiff. destruct (ReadFile filepath) as [content|];
    [|discriminate].
  intros H; injection H as <-. unfold count_type, all_lines.
  cbn [Additions Deletions Hunks flat_map Lines]. rewrite app_nil_r.
  destruct (count_in_untracked_lines (strings.Split content) 0) as [A D].
  now rewrite A, D.
Qed.

Lemma untracked_diffs_In (w : Env) (context : Z) (fs : list string) (f : FileDiff) :
  In f (untracked_diffs w context fs) ->
  exists filepath,
    In filepath fs /\ getUntrackedFileDiff (readFile w) filepath context = Some f.
Proof.
  unfold untracked_diffs. rewrite in_flat_map. intros (p & Hp & Hf).
  exists p. split; [exact Hp|].
  destruct (getUntrackedFileDiff (readFile w) p context) as [d|];
    [|contradiction].
  destruct Hf as [->|[]]. reflexivity.
Qed.

Lemma untracked_part_In (w : Env) (diffType : DiffType) (context : Z) (f : FileDiff) :
  In f (untracked_part w diffType context) ->
  wants_untracked diffType = true /\
  exists fs filepath,
    getUntrackedFiles w = inl fs /\ In filepath fs /\
    getUntrackedFileDiff (readFile w) filepath context = Some f.
Proof.
  unfold untracked_part. destruct (wants_untracked diffType); [|contradiction].
  destruct (getUntrackedFiles w) as [fs|err]; [|contradiction].
  intros H. destruct (untracked_diffs_In _ _ _ _ H) as (p & Hp & Hf).
  split; [reflexivity|]. now exists fs, p.
Qed.

(** X11: in every file [GetDiff] returns, parsed or made for an untracked
    file, [Additions] is the number of Added lines and [Deletions] the
    number of Deleted lines of its hunks, the output of git having a number
    of lines that a slice can hold. *)
Theorem GetDiff_counts (w : Env) (diffType : DiffType) (contextLines : list Z)
        (d : DiffResult) (f : FileDiff) :
  is_len (List.length
            (strings.Split
               (stdout (git w (diff_args diffType (context_of contextLines)))))) ->
  GetDiff w diffType contextLines = Some (inl d) ->
  In f (Files d) ->
  Additions f = Z.of_nat (count_type LineTypeAdded f) /\
  Deletions f = Z.of_nat (count_type LineTypeDeleted f).
Proof.
  intros Hlen. rewrite GetDiff_spec. cbv zeta.
  destruct (failed _); [discriminate|].
  intros H; injection H as <-. cbn [Files]. rewrite in_app_iff.
  intros [Hf|Hf].
  - apply in_map_iff in Hf. destruct Hf as (sec & <- & Hsec).
    exact (file_of_section_counts _ sec Hlen Hsec).
  - apply untracked_part_In in Hf. destruct Hf as (_ & fs & p & _ & _ & Hf).
    exact (untracked_diff_counts _ _ _ _ Hf).
Qed.

Lemma GetDiff_counts_witness :
  exists d f,
    GetDiff (example_env false scenarioA) DiffTypeUnstaged [] = Some (inl d) /\
    nth_error (Files d) 1 = Some f /\
    Additions f = 2%Z /\ Deletions f = 0%Z /\
    count_type LineTypeAdded f = 2 /\ count_type LineTypeDeleted f = 0.
Proof.
  eexists. eexists. split; [reflexivity|]. split; [reflexivity|].
  pose proof (GetDiff_counts (example_env false scenarioA) DiffTypeUnstaged []
                _ _ ltac:(vm_compute; discriminate) eq_refl
                (or_intror (or_introl eq_refl))) as [A D].
  split; [exact A|]. split; [exact D|]. split; reflexivity.
Defined.

Lemma untracked_diff_Path (ReadFile : string -> option string)
      (filepath : string) (context : Z) (f : FileDiff) :
  getUntrackedFileDiff ReadFile filepath context = Some f -> Path f = filepath.
Proof.
  unfold getUntrackedFileDiff. destruct (ReadFile filepath); [|discriminate].
  intros H; injection H as <-. reflexivity.
Qed.

Lemma untracked_diff_context (ReadFile : string -> option string)
      (filepath : string) (c c' : Z) :
  getUntrackedFileDiff ReadFile filepath c = getUntrackedFileDiff ReadFile filepath c'.
Proof. reflexivity. Qed.

(** X12: [GetFileDiff] always returns; a file it returns has the file name
    asked for as its [Path], and, when the name is not listed as untracked,
    is the first file of that path among the files of [GetDiff]. *)
Theorem GetFileDiff_path (w : Env) (filename : string) (diffType : DiffType)
        (contextLines : list Z) :
  GetFileDiff w filename diffType contextLines <> None /\
  forall f,
    GetFileDiff w filename diffType contextLines = Some (inl f) ->
    Path f = filename /\
    ((forall fs, getUntrackedFiles w = inl fs -> ~ In filename fs) ->
     exists d front back,
       GetDiff w diffType contextLines = Some (inl d) /\
       Files d = front ++ f :: back /\
       Forall (fun g => Path g <> filename) front).
Proof.
  unfold GetFileDiff. cbv zeta.
  destruct (match getUntrackedFiles w with
            | inl fs => existsb (fun u => String.eqb u filename) fs
            | inr _ => false
            end) eqn:U.
  - destruct (getUntrackedFiles w) as [fs|err]; [|discriminate U].
    apply existsb_exists in U. destruct U as (u & Hu & E).
    apply String.eqb_eq in E. subst u.
    destruct (getUntrackedFileDiff (readFile w) filename (context_of contextLines))
      as [d|] eqn:G; (split; [discriminate|]); intros f H; [|discriminate H].
    injection H as <-. split; [exact (untracked_diff_Path _ _ _ _ G)|].
    intros No. exfalso. exact (No fs eq_refl Hu).
  - rewrite GetDiff_spec. cbv zeta.
    destruct (failed _); [split; [discriminate|intros f H; discriminate H]|].
    set (d := mkDiffResult _ diffType).
    destruct (find (fun file => String.eqb (Path file) filename) (Files d))
      as [g|] eqn:F; (split; [discriminate|]); intros f H; [|discriminate H].
    injection H as <-.
    assert (S : forall l, find (fun file => String.eqb (Path file) filename) l = Some g ->
                Path g = filename /\
                exists front back, l = front ++ g :: back /\
                  Forall (fun h => Path h <> filename) front).
    { induction l as [|a l IH]; [discriminate|]. simpl.
      destruct (String.eqb (Path a) filename) eqn:E.
      - intros H; injection H as ->. apply String.eqb_eq in E.
        split; [exact E|]. exists [], l. now split.
      - intros H. destruct (IH H) as (P & front & back & -> & Fr).
        split; [exact P|]. exists (a :: front), back. split; [reflexivity|].
        constructor; [|exact Fr]. now apply String.eqb_neq. }
    destruct (S _ F) as (P & front & back & E & Fr).
    split; [exact P|]. intros _. now exists d, front, back.
Qed.

Lemma GetFileDiff_path_witness :
  exists f,
    GetFileDiff (example_env false scenarioA) "x.txt" DiffTypeStaged []
    = Some (inl f) /\ Path f = "x.txt"%string.
Proof.
  exists scenarioA_file. split; [reflexivity|].
  exact (proj1 (proj2 (GetFileDiff_path (example_env false scenarioA) "x.txt"
                         DiffTypeStaged [])
                      scenarioA_file eq_refl)).
Defined.

(** X13: for a file name that the listing of the untracked files has,
    [GetFileDiff] does not look at the diff: whatever the kind of diff (also
    for a staged diff, where [GetDiff] has no untracked file) and whatever
    the context, and also when the diff command would fail, the result is
    the diff made from the content of the file, or the error of the read. *)
Theorem GetFileDiff_untracked (w : Env) (filename : string) (fs : list string)
        (diffType : DiffType) (contextLines : list Z) :
  getUntrackedFiles w = inl fs ->
  In filename fs ->
  GetFileDiff w filename diffType contextLines
  = match getUntrackedFileDiff (readFile w) filename 0 with
    | Some f => Some (inl f)
    | None => Some (inr (ErrFailedToReadUntracked filename))
    end.
Proof.
  intros E Hin. unfold GetFileDiff. cbv zeta. rewrite E.
  replace (existsb (fun u => String.eqb u filename) fs) with true.
  - now rewrite (untracked_diff_context _ filename (context_of contextLines) 0).
  - symmetry. apply existsb_exists. exists filename. split; [exact Hin|].
    apply String.eqb_refl.
Qed.

Lemma GetFileDiff_untracked_witness :
  exists f,
    GetFileDiffWithFullContext (example_env true "") "new.txt" DiffTypeStaged
    = Some (inl f) /\ Status f = FileStatusAdded /\
    GetFileDiff (example_env true "") "gone.txt" DiffTypeAll []
    = Some (inr (ErrFailedToReadUntracked "gone.txt")).
Proof.
  eexists. split; [|split].
  - exact (GetFileDiff_untracked (example_env true "") "new.txt"
             ["new.txt"; "gone.txt"]%string DiffTypeStaged [999999%Z] eq_refl
             (or_introl eq_refl)).
  - reflexivity.
  - exact (GetFileDiff_untracked (example_env true "") "gone.txt"
             ["new.txt"; "gone.txt"]%string DiffTypeAll [] eq_refl
             (or_intror (or_introl eq_refl))).
Defined.

(** ** The diff made for an untracked file, read by the parser *)

Lemma digits_from_uint_acc (d : Decimal.uint) :
  forall acc,
    strconv.digits_from (Z.pos acc) (NilEmpty.string_of_uint d)
    = Some (Z.pos (Pos.of_uint_acc d acc)).
Proof.
  induction d; intros acc; cbn [NilEmpty.string_of_uint Pos.of_uint_acc];
    [reflexivity| | | | | | | | | |];
    unfold strconv.digits_from; fold strconv.digits_from;
    match goal with
    | |- context [digit ?c] => change (digit c) with true; cbv iota
    end;
    rewrite <- IHd; f_equal;
    match goal with
    | |- context [strconv.digit_value ?c] =>
        let v := eval vm_compute in (strconv.digit_value c) in
        change (strconv.digit_value c) with v
    end; lia.
Qed.

Lemma digits_from_uint (d : Decimal.uint) :
  strconv.digits_from 0 (NilEmpty.string_of_uint d) = Some (Z.of_N (Pos.of_uint d)).
Proof.
  induction d; cbn [NilEmpty.string_of_uint Pos.of_uint];
    [reflexivity|exact IHd| | | | | | | | |];
    unfold strconv.digits_from; fold strconv.digits_from;
    match goal with
    | |- context [digit ?c] => change (digit c) with true; cbv iota
    end;
    match goal with
    | |- context [strconv.digit_value ?c] =>
        let v := eval vm_compute in (strconv.digit_value c) in
        change (0 * 10 + strconv.digit_value c)%Z with v
    end;
    apply digits_from_uint_acc.
Qed.

(** Reading back a number that has been written. *)
Lemma digits_Itoa (n : Z) :
  (0 <= n)%Z -> strconv.digits (strconv.Itoa n) = Some n.
Proof.
  intros H. unfold strconv.Itoa. destruct n as [|p|p]; [reflexivity| |lia].
  cbn [Z.to_int NilZero.string_of_int]. unfold NilZero.string_of_uint.
  pose proof (DecimalPos.Unsigned.to_uint_nonnil p) as NN.
  pose proof (digits_from_uint (Pos.to_uint p)) as D.
  rewrite DecimalPos.Unsigned.of_to in D.
  destruct (Pos.to_uint p) eqn:E; [contradiction| | | | | | | | | |];
    exact D.
Qed.

Lemma all_in_digit_dot (s : string) : all_in digit s = true -> no_newline s = true.
Proof.
  unfold no_newline. induction s as [|c s IH]; [reflexivity|].
  simpl. intros H. apply andb_prop in H. destruct H as [Hc Hs].
  rewrite (IH Hs), andb_true_r.
  destruct c as [[] [] [] [] [] [] [] []]; try discriminate Hc; reflexivity.
Qed.

Lemma added_lines_hunk_body (ls : list string) :
  hunk_body (map (String "+") ls) = map (String "+") ls.
Proof.
  unfold hunk_body. induction ls as [|l ls IH]; [reflexivity|].
  simpl. change (in_body (String "+" l)) with true. cbv iota. now rewrite IH.
Qed.

Lemma added_lines_section_body (ls : list string) :
  section_body (map (String "+") ls) = map (String "+") ls.
Proof.
  unfold section_body. induction ls as [|l ls IH]; [reflexivity|].
  simpl. change (in_section (String "+" l)) with true. cbv iota. now rewrite IH.
Qed.

Lemma added_lines_sections (ls : list string) :
  sections (map (String "+") ls) = [].
Proof.
  induction ls as [|l ls IH]; [reflexivity|].
  simpl. change (strings.HasPrefix (String "+" l) "diff --git") with false.
  exact IH.
Qed.

Lemma added_lines_scan (ls : list string) (file : FileDiff) :
  scan (map (String "+") ls) true file = file.
Proof.
  induction ls as [|l ls IH]; [reflexivity|].
  simpl. change (strings.HasPrefix (String "+" l) "@@") with false. exact IH.
Qed.

(** The parser numbers added lines as [getUntrackedFileDiff] does. *)
Lemma added_lines_classify (ls : list string) :
  forall i oldLine,
    is_len (i + List.length ls) ->
    classify (map (String "+") ls) oldLine (Z.of_nat i + 1) = untracked_lines i ls.
Proof.
  unfold is_len. pose proof minInt_neg as Hm.
  induction ls as [|l ls IH]; intros i oldLine H; [reflexivity|].
  cbn [List.length] in H. cbn [map classify untracked_lines].
  change (Ascii.eqb "+" "+") with true. cbv iota.
  rewrite wrap_in_range by lia. f_equal.
  destruct ls as [|l' ls]; [reflexivity|]. cbn [List.length] in H.
  rewrite incr_in_range by lia.
  replace (Z.of_nat i + 1 + 1)%Z with (Z.of_nat (S i) + 1)%Z by lia.
  apply IH. cbn [List.length]. lia.
Qed.

(** The hunk [parseHunk] reads from the header that [getUntrackedFileDiff]
    writes, followed by the lines as added lines. *)
Lemma untracked_hunk_of (ls : list string) :
  is_len (List.length ls) ->
  let n := Z.of_nat (List.length ls) in
  let header := ("@@ -0,0 +1," ++ strconv.Itoa n ++ " @@")%string in
  hunk_of header (map (String "+") ls)
  = Some (mkHunk 0 0 1 n header (untracked_lines 0 ls)).
Proof.
  intros Hlen n header.
  assert (D : strconv.digits (strconv.Itoa n) = Some n)
    by (apply digits_Itoa; unfold n; lia).
  destruct (digits_all_in _ _ D) as [A NE].
  assert (M : FindStringSubmatch hunkRe 5 header
              = [header; "0"; "0"; "1"; strconv.Itoa n; ""]%string).
  { exact (hunkRe_submatches "0" (Some "0"%string) "1" (Some (strconv.Itoa n)) ""
             eq_refl ltac:(discriminate) eq_refl ltac:(discriminate)
             (ex_intro _ 0%Z eq_refl) (ex_intro _ n D) eq_refl). }
  unfold hunk_of. rewrite M. cbn [List.length Nat.ltb Nat.leb].
  unfold header_OldStart, header_OldLines, header_NewStart, header_NewLines.
  cbn [sub nth].
  change (fst (strconv.Atoi "0")) with 0%Z.
  change (fst (strconv.Atoi "1")) with 1%Z.
  change (negb (String.eqb "0" "")) with true. cbv iota.
  destruct (String.eqb (strconv.Itoa n) "") eqn:E;
    [apply String.eqb_eq in E; contradiction|].
  cbn [negb]. rewrite (Atoi_digits _ _ D).
  unfold is_len in Hlen. fold n in Hlen. rewrite Z.min_l by exact Hlen.
  rewrite added_lines_hunk_body.
  change 1%Z with (Z.of_nat 0 + 1)%Z at 2.
  rewrite (added_lines_classify ls 0 0 Hlen). reflexivity.
Qed.

Lemma added_lines_no_newline (ls : list string) :
  Forall (fun l => no_newline l = true) ls ->
  Forall (fun l => all_in dot l = true) (map (String "+") ls).
Proof.
  unfold no_newline. induction 1 as [|l ls Hl _ IH]; [constructor|].
  constructor; [|exact IH]. cbn [all_in]. now rewrite Hl.
Qed.

Lemma render_untracked_lines (ls : list string) :
  forall i, map render (untracked_lines i ls) = map (String "+") ls.
Proof.
  induction ls as [|l ls IH]; intros i; [reflexivity|].
  cbn [untracked_lines map]. now rewrite IH.
Qed.

(** The lines of the text of the file [getUntrackedFileDiff] makes. *)
Lemma untracked_diff_text_lines (filepath : string) (ls : list string) :
  no_newline filepath = true ->
  Forall (fun l => no_newline l = true) ls ->
  let n := Z.of_nat (List.length ls) in
  let header := ("@@ -0,0 +1," ++ strconv.Itoa n ++ " @@")%string in
  strings.Split
    (diff_text (mkFileDiff filepath "" FileStatusAdded n 0 false
                  [mkHunk 0 0 1 n header (untracked_lines 0 ls)]))
  = [marker_line "a" filepath "b" filepath; "new file mode 100644"; header]
    ++ map (String "+") ls.
Proof.
  intros Hp Hls n header. unfold diff_text, hunk_text.
  cbn [Path Status Hunks status_lines flat_map Header Lines app].
  rewrite app_nil_r, render_untracked_lines.
  apply Split_Join; [discriminate|].
  assert (D : strconv.digits (strconv.Itoa n) = Some n)
    by (apply digits_Itoa; unfold n; lia).
  destruct (digits_all_in _ _ D) as [A _]. apply all_in_digit_dot in A.
  unfold no_newline in *.
  repeat constructor.
  - unfold marker_line. rewrite all_in_app. cbn [all_in append].
    rewrite all_in_app. cbn [all_in append]. now rewrite Hp.
  - unfold header. cbn [all_in append]. rewrite all_in_app, A. reflexivity.
  - now apply added_lines_no_newline.
Qed.

(** X14: written out as diff text (the marker line with its path on both
    sides, the ["new file"] line, the header of its hunk and its lines, each
    behind a ['+']), the file [getUntrackedFileDiff] makes is read back by
    the parser as the same file, but for [OldPath], which the parser takes
    from the marker line and [getUntrackedFileDiff] leaves empty: the header
    that [getUntrackedFileDiff] formats, the four numbers, the line numbers
    and the counts it stores are those the parser derives from that header
    and those lines.  The text is the rendering of the record; for a content
    that ends in a line feed it has one added line more than git writes for
    the file.  The path is such that the marker line is read as it was
    built, and the number of lines one that a slice can have. *)
Theorem untracked_diff_parses_back (ReadFile : string -> option string)
        (filepath : string) (context : Z) (f : FileDiff) :
  no_newline filepath = true -> filepath <> ""%string ->
  has_side_marker filepath = false ->
  getUntrackedFileDiff ReadFile filepath context = Some f ->
  is_len (List.length (all_lines f)) ->
  parseDiff (diff_text f) = Some ([set_OldPath filepath f], false).
Proof.
  intros Hp Np Up. unfold getUntrackedFileDiff.
  destruct (ReadFile filepath) as [content|]; [|discriminate]. cbv zeta.
  intros H Hlen.
  apply (f_equal (fun o => match o with Some x => x | None => f end)) in H.
  cbv beta iota in H. subst f. unfold all_lines in Hlen.
  cbn [Hunks flat_map Lines] in Hlen.
  rewrite app_nil_r, untracked_lines_length in Hlen.
  rewrite parseDiff_spec,
    (untracked_diff_text_lines _ _ Hp (Split_no_newline content)).
  set (ls := strings.Split content) in *.
  set (header := ("@@ -0,0 +1," ++ strconv.Itoa (Z.of_nat (List.length ls)) ++ " @@")%string).
  cbn [app sections].
  replace (strings.HasPrefix (marker_line "a" filepath "b" filepath) "diff --git")
    with true by reflexivity.
  change (strings.HasPrefix "new file mode 100644" "diff --git") with false.
  change (strings.HasPrefix header "diff --git") with false.
  cbv iota. rewrite added_lines_sections. cbn [map]. do 3 f_equal.
  unfold section_body. cbn [takeWhile].
  change (in_section "new file mode 100644") with true.
  change (in_section header) with true.
  cbv iota. fold (section_body (map (String "+") ls)).
  rewrite added_lines_section_body.
  unfold file_of_section. cbn [fst snd].
  unfold marker_paths.
  rewrite (diffGitRe_submatches "a" filepath "b" filepath eq_refl eq_refl
             Hp Np Hp Np Up).
  cbn [List.length Nat.leb sub nth]. cbn [scan].
  change (strings.HasPrefix "new file mode 100644" "@@") with false.
  change (strings.HasPrefix header "@@") with true.
  cbv iota. unfold header. rewrite (untracked_hunk_of ls Hlen). fold header.
  rewrite added_lines_scan.
  change (apply_marker "new file mode 100644" (set_Paths filepath filepath emptyFileDiff))
    with (set_Status FileStatusAdded (set_Paths filepath filepath emptyFileDiff)).
  unfold default_Status, tally.
  cbn [add_Hunk set_Status set_Paths emptyFileDiff Hunks Status FileStatus_eqb
       fold_left app Path OldPath Additions Deletions IsBinary].
  unfold tally_hunk. cbn [Lines].
  match goal with
  | |- fold_left tally_line _ ?file = _ =>
      destruct (tally_lines_counts (untracked_lines 0 ls) file) as [EA ED];
      [ cbn; lia | cbn; lia
      | cbn [Additions]; rewrite untracked_lines_length; exact Hlen
      | cbn [Deletions]; rewrite untracked_lines_length; exact Hlen
      | destruct (tally_lines_fields (untracked_lines 0 ls) file)
          as (EH & EP & EO & ES & EB) ]
  end.
  destruct (count_in_untracked_lines ls 0) as [CA CD].
  rewrite CA in EA. rewrite CD in ED.
  cbn [Additions Deletions Hunks Path OldPath Status IsBinary] in *.
  destruct (fold_left tally_line _ _). cbn in *. subst. reflexivity.
Qed.

Lemma untracked_diff_parses_back_witness :
  exists f,
    getUntrackedFileDiff (fun _ => Some ("a" ++ nl ++ "b")%string) "new.txt" 3 = Some f /\
    diff_text f
    = ("diff --git a/new.txt b/new.txt" ++ nl ++
       "new file mode 100644" ++ nl ++
       "@@ -0,0 +1,2 @@" ++ nl ++
       "+a" ++ nl ++
       "+b")%string /\
    parseDiff (diff_text f) = Some ([set_OldPath "new.txt" f], false).
Proof.
  eexists. split; [reflexivity|]. split; [reflexivity|].
  exact (untracked_diff_parses_back (fun _ => Some ("a" ++ nl ++ "b")%string)
           "new.txt" 3 _
           eq_refl ltac:(discriminate) eq_refl eq_refl
           ltac:(vm_compute; discriminate)).
Defined.
